(** * Quazaa discovery services manager (Discovery/discovery.cpp)

    A shallow embedding of [Discovery::CDiscovery]: the service map with its
    identifier recycling, duplicate management, persistence to the primary
    and backup files, and the rating-weighted random selection.

    Conventions.
    - Fixed-width unsigned integers are integers of [Z] with the wrap-around
      written out ([quint8], [quint16], [quint32]).
    - [std::map<TServiceID, TServicePtr>] is an association list kept in
      ascending key order: the code iterates the map ([foreach]) and the
      order of iteration decides which duplicate is merged, in which order
      candidates are listed and in which order records are written.
    - Services are held through shared pointers.  A loop that changes a
      service through its pointer is modelled by rewriting the entry of the
      map the pointer was taken from.
    - The manager runs here as sequential code: [m_pSection] is declared in
      discovery.h, which is not part of the sources, and taking or releasing
      it has no effect in this model.  A function of the model therefore
      returns also where the code, holding [m_pSection], calls a function
      that locks it again: [asyncSyncSavingHelper] calling [count],
      [addDefaults] calling [add( QString, ... )], and a caller of [load]
      that holds the mutex, for [load( QString )] calls [clear] and locks
      the mutex itself.  What is proved of these functions is proved of
      calls on which every lock is granted.
    - [TServiceID] is declared in discovery.h too.  Identifiers are integers
      of [Z] here, and [++m_nLastID] is [m_nLastID + 1]: the theorems that
      rest on the search for a free identifier bound the identifiers, so
      that no increment reaches the top of the range of a fixed-width type.
    - [Q_ASSERT] aborts in a debug build and is compiled out otherwise; the
      build is the field [debug_build] of the environment. *)

From Stdlib Require Import ZArith List String Ascii Bool Lia.
Import ListNotations.
Local Open Scope string_scope.
Local Open Scope list_scope.
Local Open Scope Z_scope.

(** ** Unsigned machine integers *)

Definition wrap (bits x : Z) : Z := x mod 2 ^ bits.
Definition quint8 : Z -> Z := wrap 8.
Definition quint16 : Z -> Z := wrap 16.
Definition quint32 : Z -> Z := wrap 32.

(** ** The ordered map [std::map] *)

Module StdMap.
Section WithValue.
Context {V : Type}.

Definition t := list (Z * V).

(** [find]: the entry stored under [k], if any. *)
Fixpoint find (k : Z) (m : t) : option V :=
  match m with
  | [] => None
  | (k', v) :: m' => if k' =? k then Some v else find k m'
  end.

(** [operator[]] followed by assignment: replace or insert in key order. *)
Fixpoint insert (k : Z) (v : V) (m : t) : t :=
  match m with
  | [] => [(k, v)]
  | (k', v') :: m' =>
      if k <? k' then (k, v) :: m
      else if k =? k' then (k, v) :: m'
      else (k', v') :: insert k v m'
  end.

(** [erase( key )]: drop what is stored under [k]. *)
Definition erase (k : Z) (m : t) : t :=
  filter (fun kv => negb (fst kv =? k)) m.

Definition keys (m : t) : list Z := map fst m.

(** The number of entries stored above a key: what the search for a free
    identifier has left to skip. *)
Definition above (k : Z) (m : t) : nat :=
  List.length (filter (fun kv => k <? fst kv) m).

(** Strictly ascending keys: the shape of every [std::map]. *)
Fixpoint ordered (m : t) : Prop :=
  match m with
  | [] => True
  | (k, _) :: m' => (forall k', In k' (keys m') -> k < k') /\ ordered m'
  end.
End WithValue.
Arguments t : clear implicits.
End StdMap.

(** ** Services *)

(** The service types the manager itself names ([stNull], [stGWC]); the
    enumeration is declared in discoveryservice.h. *)
Inductive TServiceType := stNull | stGWC.

Definition TServiceType_eqb (a b : TServiceType) : bool :=
  match a, b with
  | stNull, stNull | stGWC, stGWC => true
  | _, _ => false
  end.

(** Modelled from the spec: [CNetworkType] (networktype.h is not part of the
    sources) is "a bit-set of supported peer networks; supports membership
    test and union merge".  The bit-set is an integer, [setNetwork] is the
    union, [isNetwork] tests that the requested networks are all present and
    the null type is the empty set. *)
Definition CNetworkType := Z.
Definition dpNull : CNetworkType := 0.
Definition dpG2 : CNetworkType := 2.
Definition isNull (n : CNetworkType) : bool := n =? 0.
Definition isNetwork (n wanted : CNetworkType) : bool := Z.land n wanted =? wanted.
Definition setNetwork (n other : CNetworkType) : CNetworkType := Z.lor n other.

(** The fields of [CDiscoveryService] the manager reads and writes.
    [m_oServiceURL] stands for the text [m_oServiceURL.toString()] yields.
    Modelled from the spec: the class is declared in discoveryservice.h,
    which is not part of the sources; identifiers are non-negative integers
    with 0 for "unassigned", and [m_nZeroRevivals] is a counter. *)
Record CDiscoveryService := mkService {
  m_nID : Z;
  m_oServiceURL : string;
  m_nServiceType : TServiceType;
  m_oNetworkType : CNetworkType;
  m_nRating : Z;
  m_bBanned : bool;
  m_bRunning : bool;
  m_tLastQueried : Z;
  m_nZeroRevivals : Z
}.

Definition TMap := StdMap.t CDiscoveryService.

Definition with_id (s : CDiscoveryService) (id : Z) : CDiscoveryService :=
  mkService id (m_oServiceURL s) (m_nServiceType s) (m_oNetworkType s)
            (m_nRating s) (m_bBanned s) (m_bRunning s) (m_tLastQueried s)
            (m_nZeroRevivals s).

Definition with_network (s : CDiscoveryService) (n : CNetworkType) : CDiscoveryService :=
  mkService (m_nID s) (m_oServiceURL s) (m_nServiceType s) n
            (m_nRating s) (m_bBanned s) (m_bRunning s) (m_tLastQueried s)
            (m_nZeroRevivals s).

(** Modelled from the spec: [CDiscoveryService::setRating] is defined in
    discoveryservice.cpp, which is not part of the sources; reviving a
    service "sets rating to MAX_PROBABILITY", so [setRating] stores the
    rating it is given. *)
Definition setRating (s : CDiscoveryService) (r : Z) : CDiscoveryService :=
  mkService (m_nID s) (m_oServiceURL s) (m_nServiceType s) (m_oNetworkType s)
            (quint8 r) (m_bBanned s) (m_bRunning s) (m_tLastQueried s)
            (m_nZeroRevivals s).

Definition incZeroRevivals (s : CDiscoveryService) : CDiscoveryService :=
  mkService (m_nID s) (m_oServiceURL s) (m_nServiceType s) (m_oNetworkType s)
            (m_nRating s) (m_bBanned s) (m_bRunning s) (m_tLastQueried s)
            (m_nZeroRevivals s + 1).

(** Modelled from the spec: [CDiscoveryService::createService] is the
    factory of discoveryservice.cpp, which is not part of the sources: "a
    Service is created by a factory from a URL+type+network+rating tuple",
    with no identifier assigned yet. *)
Definition createService (sURL : string) (eSType : TServiceType)
           (oNType : CNetworkType) (nRating : Z) : option CDiscoveryService :=
  Some (mkService 0 sURL eSType oNType (quint8 nRating) false false 0 0).

(** ** Files *)

(** A file is the sequence of bytes it holds.  Every [QFile] call can be
    refused by the system; [refuses] says which ones are. *)
Inductive FileOp := OpRemove | OpOpenWrite | OpOpenRead | OpRename | OpCopy.

Record Disk := mkDisk {
  files : string -> option (list Z);
  refuses : FileOp -> string -> bool
}.

Definition put_file (d : Disk) (p : string) (c : option (list Z)) : Disk :=
  mkDisk (fun q => if String.eqb q p then c else files d q) (refuses d).

Definition QFile_exists (d : Disk) (p : string) : bool :=
  match files d p with Some _ => true | None => false end.

Definition QFile_remove (d : Disk) (p : string) : bool * Disk :=
  if QFile_exists d p && negb (refuses d OpRemove p)
  then (true, put_file d p None) else (false, d).

(** [QFile::rename] and [QFile::copy] fail when the source is missing or the
    target exists. *)
Definition QFile_rename (d : Disk) (from to : string) : bool * Disk :=
  match files d from with
  | Some c =>
      if negb (QFile_exists d to) && negb (refuses d OpRename from)
      then (true, put_file (put_file d from None) to (Some c)) else (false, d)
  | None => (false, d)
  end.

Definition QFile_copy (d : Disk) (from to : string) : bool * Disk :=
  match files d from with
  | Some c =>
      if negb (QFile_exists d to) && negb (refuses d OpCopy from)
      then (true, put_file d to (Some c)) else (false, d)
  | None => (false, d)
  end.

(** [open( QIODevice::WriteOnly )] creates or truncates the file. *)
Definition QFile_openWrite (d : Disk) (p : string) : bool * Disk :=
  if refuses d OpOpenWrite p then (false, d) else (true, put_file d p (Some [])).

Definition QFile_openRead (d : Disk) (p : string) : option (list Z) :=
  if refuses d OpOpenRead p then None else files d p.

(** [QDataStream] integers, most significant byte first.  A read that runs
    out of bytes yields 0 and leaves nothing to read. *)
Definition write_u16 (v : Z) : list Z :=
  [quint16 v / 256; quint16 v mod 256].
Definition write_u32 (v : Z) : list Z :=
  [quint32 v / 16777216; (quint32 v / 65536) mod 256;
   (quint32 v / 256) mod 256; quint32 v mod 256].

Definition read_u16 (s : list Z) : Z * list Z :=
  match s with
  | b1 :: b0 :: s' => (b1 * 256 + b0, s')
  | _ => (0, [])
  end.
Definition read_u32 (s : list Z) : Z * list Z :=
  match s with
  | b3 :: b2 :: b1 :: b0 :: s' => (((b3 * 256 + b2) * 256 + b1) * 256 + b0, s')
  | _ => (0, [])
  end.

(** ** The environment of the manager *)

(** What the manager takes from elsewhere: the build, Qt's URL parser, the
    constants of discoveryservice.h, the settings
    [quazaaSettings.Discovery], and the record format of the services
    ([CDiscoveryService::save] and [CDiscoveryService::load], where [None]
    stands for a thrown exception and a loaded [None] for a null pointer). *)
Record Environment := mkEnv {
  debug_build : bool;
  QUrl_isValid : string -> bool;
  QUrl_toString : string -> string;
  DISCOVERY_MAX_PROBABILITY : Z;
  DISCOVERY_CODE_VERSION : Z;
  DataPath : string;
  AccessThrottle : Z;
  ZeroRatingRevivalInterval : Z;
  CDiscoveryService_save : CDiscoveryService -> option (list Z);
  CDiscoveryService_load :
    Z -> list Z -> option (option CDiscoveryService * list Z)
}.

(** ** The state of the manager and of what it acts on *)

Module LogSeverity.
Inductive t := Debug | Notice | Warning | Error.
Definition eqb (a b : t) : bool :=
  match a, b with
  | Debug, Debug | Notice, Notice | Warning, Warning | Error, Error => true
  | _, _ => false
  end.
End LogSeverity.

Inductive Signal :=
| serviceAdded (pService : CDiscoveryService)
| serviceRemoved (nID : Z)
| serviceInfo (pService : CDiscoveryService).

(** Calls posted with [QMetaObject::invokeMethod( ..., Qt::QueuedConnection )]. *)
Inductive Invocation :=
| call_asyncStartUpHelper
| call_asyncSyncSavingHelper
| call_asyncRequestServiceListHelper.

Record CDiscovery := mkDiscovery {
  m_mServices : TMap;
  m_bSaved : bool;
  m_nLastID : Z;
  m_sMessage : string;
  systemLog : list (LogSeverity.t * string);
  emitted : list Signal;
  posted : list Invocation;
  disk : Disk
}.

(** The manager as its constructor leaves it. *)
Definition newDiscovery (d : Disk) : CDiscovery :=
  mkDiscovery [] true 0 EmptyString [] [] [] d.

Definition set_services (st : CDiscovery) (m : TMap) : CDiscovery :=
  mkDiscovery m (m_bSaved st) (m_nLastID st) (m_sMessage st) (systemLog st)
              (emitted st) (posted st) (disk st).
Definition set_saved (st : CDiscovery) (b : bool) : CDiscovery :=
  mkDiscovery (m_mServices st) b (m_nLastID st) (m_sMessage st) (systemLog st)
              (emitted st) (posted st) (disk st).
Definition set_lastID (st : CDiscovery) (n : Z) : CDiscovery :=
  mkDiscovery (m_mServices st) (m_bSaved st) n (m_sMessage st) (systemLog st)
              (emitted st) (posted st) (disk st).
Definition set_message (st : CDiscovery) (s : string) : CDiscovery :=
  mkDiscovery (m_mServices st) (m_bSaved st) (m_nLastID st) s (systemLog st)
              (emitted st) (posted st) (disk st).
Definition set_log (st : CDiscovery) (l : list (LogSeverity.t * string)) : CDiscovery :=
  mkDiscovery (m_mServices st) (m_bSaved st) (m_nLastID st) (m_sMessage st) l
              (emitted st) (posted st) (disk st).
Definition set_emitted (st : CDiscovery) (l : list Signal) : CDiscovery :=
  mkDiscovery (m_mServices st) (m_bSaved st) (m_nLastID st) (m_sMessage st)
              (systemLog st) l (posted st) (disk st).
Definition set_posted (st : CDiscovery) (l : list Invocation) : CDiscovery :=
  mkDiscovery (m_mServices st) (m_bSaved st) (m_nLastID st) (m_sMessage st)
              (systemLog st) (emitted st) l (disk st).
Definition set_disk (st : CDiscovery) (d : Disk) : CDiscovery :=
  mkDiscovery (m_mServices st) (m_bSaved st) (m_nLastID st) (m_sMessage st)
              (systemLog st) (emitted st) (posted st) d.

(** ** Outcomes

    A call either returns, or the process is lost: to a failed assertion of
    a debug build, to a division by zero, to an iterator taken past the end
    of its list, or to a loop that was given too little fuel. *)
Inductive Fault := AssertionFailed | DivisionByZero | IteratorPastEnd | OutOfFuel.

Inductive Result (A : Type) :=
| Ok (a : A)
| Crash (f : Fault).
Arguments Ok {A} a.
Arguments Crash {A} f.

Definition M (A : Type) : Type := CDiscovery -> Result (A * CDiscovery).

Definition ret {A} (a : A) : M A := fun st => Ok (a, st).
Definition bind {A B} (m : M A) (k : A -> M B) : M B :=
  fun st => match m st with
            | Ok (a, st') => k a st'
            | Crash f => Crash f
            end.

Declare Scope manager_scope.
Delimit Scope manager_scope with manager.
Notation "x <- m ;; k" := (bind m (fun x => k))
  (at level 61, m at next level, right associativity) : manager_scope.
Notation "m ;; k" := (bind m (fun _ => k))
  (at level 61, right associativity) : manager_scope.
Local Open Scope manager_scope.

Definition get {A} (f : CDiscovery -> A) : M A := fun st => Ok (f st, st).
Definition modify (f : CDiscovery -> CDiscovery) : M unit := fun st => Ok (tt, f st).
Definition crash {A} (f : Fault) : M A := fun _ => Crash f.

Definition postLog (sev : LogSeverity.t) (text : string) : M unit :=
  modify (fun st => set_log st (systemLog st ++ [(sev, String.append (m_sMessage st) text)])).
Definition emit (s : Signal) : M unit :=
  modify (fun st => set_emitted st (emitted st ++ [s])).
Definition invokeMethod (c : Invocation) : M unit :=
  modify (fun st => set_posted st (posted st ++ [c])).

(** [QString::toLower], on the letters A to Z. *)
Definition toLower_char (c : ascii) : ascii :=
  let n := nat_of_ascii c in
  if ((65 <=? n) && (n <=? 90))%nat then ascii_of_nat (n + 32) else c.
Fixpoint toLower (s : string) : string :=
  match s with
  | EmptyString => EmptyString
  | String c s' => String (toLower_char c) (toLower s')
  end.

(** [normalizeURL]: lower-casing is all that is implemented. *)
Definition normalizeURL (sURL : string) : string := toLower sURL.

(** ** The operations of [CDiscovery] *)

Section Manager.
Variable E : Environment.

Definition Q_ASSERT (c : bool) : M unit :=
  if debug_build E && negb c then crash AssertionFailed else ret tt.

(** *** [count] *)

Fixpoint count_working (oType : CNetworkType) (pairs : TMap) (nCount : Z) : Z :=
  match pairs with
  | [] => nCount
  | (_, pService) :: rest =>
      if isNetwork (m_oNetworkType pService) oType
         && negb (m_bBanned pService)
         && negb (m_nRating pService =? 0)
      then count_working oType rest (quint16 (nCount + 1))
      else count_working oType rest nCount
  end.

Definition count (oType : CNetworkType) : M Z :=
  m <- get m_mServices ;;
  if isNull oType then ret (quint32 (Z.of_nat (List.length m)))
  else ret (count_working oType m 0).

(** *** [clear]

    [clear()] without argument stands for [clear( false )]: "the default
    value is false", says the comment of the function. *)

Definition clear (bInformGUI : bool) : M unit :=
  m <- get m_mServices ;;
  (if bInformGUI
   then modify (fun st =>
          set_emitted st (emitted st ++ map (fun kv => serviceRemoved (m_nID (snd kv))) m))
   else ret tt) ;;
  modify (fun st => set_services st []) ;;
  modify (fun st => set_lastID st 0).

(** *** [manageDuplicates]

    The scan over the map.  [Some m'] is the map after a duplicate was
    found and the stored service took over the networks of [pService];
    [None] says that the scan reached the end. *)
Fixpoint manageDuplicates_scan (pService : CDiscoveryService) (pairs : TMap)
  : Result (option TMap) :=
  match pairs with
  | [] => Ok None
  | (k, pExService) :: rest =>
      if String.eqb (m_oServiceURL pExService) (m_oServiceURL pService) then
        if TServiceType_eqb (m_nServiceType pService) (m_nServiceType pExService) then
          Ok (Some ((k, with_network pExService
                          (setNetwork (m_oNetworkType pExService)
                                      (m_oNetworkType pService))) :: rest))
        else if debug_build E then Crash AssertionFailed   (* Q_ASSERT_X( false, ... ) *)
        else match manageDuplicates_scan pService rest with
             | Ok (Some rest') => Ok (Some ((k, pExService) :: rest'))
             | r => r
             end
      else match manageDuplicates_scan pService rest with
           | Ok (Some rest') => Ok (Some ((k, pExService) :: rest'))
           | r => r
           end
  end.

(** Returns whether a duplicate was detected, and [pService] as the call
    leaves it (cleared on a duplicate). *)
Definition manageDuplicates (pService : CDiscoveryService)
  : M (bool * option CDiscoveryService) :=
  fun st =>
    match manageDuplicates_scan pService (m_mServices st) with
    | Crash f => Crash f
    | Ok (Some m') =>
        (postLog LogSeverity.Debug
                 "Detected a duplicate service. Not going to add the new one." ;;
         ret (true, None)) (set_services st m')
    | Ok None => Ok ((false, Some pService), st)
    end.

(** *** [add( TServicePtr& )] *)

(** The [do ... while] loop that looks for a free identifier, starting
    above [nLastID]. *)
Fixpoint findFreeID (fuel : nat) (m : TMap) (nLastID : Z) : option Z :=
  match fuel with
  | O => None
  | S fuel' =>
      let nLastID := nLastID + 1 in
      match StdMap.find nLastID m with
      | Some _ => findFreeID fuel' m nLastID
      | None => Some nLastID
      end
  end.

Definition assignID (pService : CDiscoveryService) : M CDiscoveryService :=
  if m_nID pService =? 0 then
    m <- get m_mServices ;;
    nLastID <- get m_nLastID ;;
    match findFreeID (S (List.length m)) m nLastID with
    | Some id =>
        modify (fun st => set_lastID st id) ;;
        ret (with_id pService id)
    | None => crash OutOfFuel
    end
  else ret pService.

(** Returns the result of the call and [pService] as the call leaves it. *)
Definition add_ptr (pService : option CDiscoveryService)
  : M (bool * option CDiscoveryService) :=
  match pService with
  | None => ret (false, None)
  | Some pService =>
      dup <- manageDuplicates pService ;;
      if fst dup then ret (false, snd dup)
      else
        m <- get m_mServices ;;
        pService <-
          (if negb (m_nID pService =? 0)
              && match StdMap.find (m_nID pService) m with
                 | Some _ => true | None => false end
           then Q_ASSERT false ;; ret (with_id pService 0)
           else ret pService) ;;
        pService <- assignID pService ;;
        modify (fun st =>
          set_services st (StdMap.insert (m_nID pService) pService (m_mServices st))) ;;
        ret (true, Some pService)
  end.

(** *** [add( QString, ... )] *)

Definition add (sURL : string) (eSType : TServiceType)
           (oNType : CNetworkType) (nRating : Z) : M Z :=
  if negb (QUrl_isValid E sURL) then
    postLog LogSeverity.Error
            (String.append "Error: Could not add invalid URL as a discovery service: " sURL) ;;
    ret 0
  else
    let sURL := normalizeURL (QUrl_toString E sURL) in
    r <- add_ptr (createService sURL eSType oNType nRating) ;;
    match r with
    | (true, Some pService) =>
        nTmp <- get m_nLastID ;;
        postLog LogSeverity.Notice
                (String.append "Notice: New discovery service added: " sURL) ;;
        emit (serviceAdded pService) ;;
        ret nTmp
    | _ =>
        postLog LogSeverity.Error "Error adding service." ;;
        ret 0
    end.

(** *** [remove] *)

Definition remove (nID : Z) : M bool :=
  if nID =? 0 then
    postLog LogSeverity.Error "Internal error: Got request to remove invalid ID: " ;;
    ret false
  else
    m <- get m_mServices ;;
    match StdMap.find nID m with
    | None =>
        postLog LogSeverity.Error "Internal error: Got request to remove invalid ID: " ;;
        ret false
    | Some pService =>
        emit (serviceRemoved nID) ;;
        postLog LogSeverity.Notice
                (String.append "Removing discovery service: " (m_oServiceURL pService)) ;;
        (* pService->cancelRequest() acts on the service that is erased next *)
        modify (fun st => set_services st (StdMap.erase nID (m_mServices st))) ;;
        nLastID <- get m_nLastID ;;
        (if nID - 1 <? nLastID            (* --nID < m_nLastID *)
         then modify (fun st => set_lastID st (nID - 1))
         else ret tt) ;;
        ret true
    end.
End Manager.

(** ** Persistence *)

Section Persistence.
Variable E : Environment.

Definition sPath : string := String.append (DataPath E) "discovery.dat".
Definition sBackupPath : string := String.append (DataPath E) "discovery_backup.dat".
Definition sTemporaryPath : string := String.append sBackupPath "_tmp".

Definition file_exists (p : string) : M bool :=
  get (fun st => QFile_exists (disk st) p).
Definition file_remove (p : string) : M bool :=
  fun st => let '(b, d) := QFile_remove (disk st) p in Ok (b, set_disk st d).
Definition file_rename (from to : string) : M bool :=
  fun st => let '(b, d) := QFile_rename (disk st) from to in Ok (b, set_disk st d).
Definition file_copy (from to : string) : M bool :=
  fun st => let '(b, d) := QFile_copy (disk st) from to in Ok (b, set_disk st d).
Definition file_openWrite (p : string) : M bool :=
  fun st => let '(b, d) := QFile_openWrite (disk st) p in Ok (b, set_disk st d).
Definition file_write (p : string) (bytes : list Z) : M unit :=
  modify (fun st => set_disk st (put_file (disk st) p (Some bytes))).

(** The loop over the services inside the [try] block of the saving
    helper: the bytes written so far, and whether the loop got through
    without an exception. *)
Fixpoint save_services (pairs : TMap) (written : list Z) : list Z * bool :=
  match pairs with
  | [] => (written, true)
  | (_, pService) :: rest =>
      match CDiscoveryService_save E pService with
      | Some bytes => save_services rest (written ++ bytes)
      | None => (written, false)
      end
  end.

(** *** [asyncSyncSavingHelper] *)

Definition asyncSyncSavingHelper : M bool :=
  postLog LogSeverity.Notice "Saving Discovery Services Manager state." ;;
  bStale <- file_exists sTemporaryPath ;;
  bBlocked <- (if bStale
               then (bRemoved <- file_remove sTemporaryPath ;; ret (negb bRemoved))
               else ret false) ;;
  if bBlocked then
    postLog LogSeverity.Error
            (String.append "Error: Could not free space required for data backup: " sPath) ;;
    ret false
  else
    bOpen <- file_openWrite sTemporaryPath ;;
    if negb bOpen then
      postLog LogSeverity.Error
              (String.append "Error: Could open data file for write: " sTemporaryPath) ;;
      ret false
    else
      m <- get m_mServices ;;
      nCount <- count dpNull ;;            (* count() with its default argument *)
      let '(bytes, bWritten) :=
        save_services m (write_u16 (DISCOVERY_CODE_VERSION E) ++ write_u32 nCount) in
      file_write sTemporaryPath bytes ;;
      if negb bWritten then
        postLog LogSeverity.Error "Error while writing discovery services to disk." ;;
        ret false
      else
        modify (fun st => set_saved st true) ;;
        bPrimary <- file_exists sPath ;;
        bFailed <-
          (if bPrimary then
             bRemoved <- file_remove sPath ;;
             if negb bRemoved then
               postLog LogSeverity.Error
                       (String.append "Error: Could not remove old data file: " sPath) ;;
               ret true
             else
               bRenamed <- file_rename sTemporaryPath sPath ;;
               if negb bRenamed then
                 postLog LogSeverity.Error
                         (String.append "Error: Could not rename data file: " sPath) ;;
                 ret true
               else ret false
           else ret false) ;;
        if (bFailed : bool) then ret false
        else
          bBackup <- file_exists sBackupPath ;;
          (if bBackup then
             bRemoved <- file_remove sBackupPath ;;
             if negb bRemoved then
               postLog LogSeverity.Warning
                       (String.append "Error: Could not remove old backup file: " sBackupPath)
             else ret tt
           else ret tt) ;;
          bCopied <- file_copy sPath sBackupPath ;;
          (if negb bCopied then
             postLog LogSeverity.Warning
                     (String.append "Warning: Could not create create new backup file: "
                                    sBackupPath)
           else ret tt) ;;
          ret true.

(** *** [save] *)

Definition save (bForceSaving : bool) : M bool :=
  if bForceSaving then asyncSyncSavingHelper
  else
    bSaved <- get m_bSaved ;;
    if bSaved then ret true
    else invokeMethod call_asyncSyncSavingHelper ;; ret false.

(** *** [load( QString )] *)

(** The [while ( nCount > 0 )] loop; [false] stands for an exception
    thrown by [CDiscoveryService::load]. *)
Fixpoint load_services (nCount : nat) (nVersion : Z) (fsFile : list Z) : M bool :=
  match nCount with
  | O => ret true
  | S nCount' =>
      match CDiscoveryService_load E nVersion fsFile with
      | None => ret false
      | Some (pService, fsFile') =>
          add_ptr E pService ;;
          load_services nCount' nVersion fsFile'
      end
  end.

Definition load_path (path : string) : M bool :=
  oFile <- get (fun st => QFile_openRead (disk st) path) ;;
  match oFile with
  | None => ret false
  | Some bytes =>
      clear false ;;
      let '(nVersion, fsFile) := read_u16 bytes in
      let '(nCount, fsFile) := read_u32 fsFile in
      bLoaded <- load_services (Z.to_nat nCount) nVersion fsFile ;;
      if (bLoaded : bool) then ret true
      else
        clear false ;;
        postLog LogSeverity.Error
                "Error: Caught an exception while loading services from file!" ;;
        ret false
  end.

(** *** [load] *)

Definition load : M unit :=
  bPrimary <- load_path sPath ;;
  if (bPrimary : bool) then
    postLog LogSeverity.Debug
            (String.append "Loading discovery services from file: " sPath)
  else
    postLog LogSeverity.Warning
            (String.append
               "Failed to load discovery services from primary file. Switching to backup: "
               sBackupPath) ;;
    bBackup <- load_path sBackupPath ;;
    if (bBackup : bool) then ret tt
    else postLog LogSeverity.Error "Failed to load discovery services!".

(** *** [start], [stop] and the posted calls *)

Definition start : M unit := invokeMethod call_asyncStartUpHelper.

Definition stop : M bool :=
  bSaved <- save true ;;
  clear false ;;
  ret bSaved.

Definition asyncRequestServiceListHelper : M unit :=
  modify (fun st =>
    set_emitted st (emitted st ++ map (fun kv => serviceInfo (snd kv)) (m_mServices st))).
End Persistence.

(** ** Selection *)

Section Selection.
Variable E : Environment.

(** The body of the loop of [getRandomService] for a service that is not
    banned: the service as the loop leaves it, and whether it is put on
    the list.  [tNow] is a [quint32]; [m_tLastQueried] and the two
    intervals are declared outside the sources and are taken to be of that
    type too, so that the sums wrap at 2^32. *)
Definition consider (oNType : CNetworkType) (tNow : Z) (pService : CDiscoveryService)
  : CDiscoveryService * bool :=
  let bRatingEnabled := negb (m_nRating pService =? 0) in
  let '(pService, bRatingEnabled) :=
    if negb bRatingEnabled then
      if quint32 (m_tLastQueried pService + ZeroRatingRevivalInterval E) >? tNow
      then (incZeroRevivals (setRating pService (DISCOVERY_MAX_PROBABILITY E)), true)
      else (pService, bRatingEnabled)
    else (pService, bRatingEnabled) in
  (pService,
   isNetwork (m_oNetworkType pService) oNType
   && bRatingEnabled
   && (quint32 (m_tLastQueried pService + AccessThrottle E) >? tNow)
   && negb (m_bRunning pService)).

(** The loop over the map: the map as the loop leaves it, the list of
    candidates in the order they were pushed, and [nTotalRating]. *)
Fixpoint collect (oNType : CNetworkType) (tNow : Z) (pairs : TMap)
         (list : TMap) (nTotalRating : Z) : TMap * TMap * Z :=
  match pairs with
  | [] => ([], list, nTotalRating)
  | (k, pService) :: rest =>
      if m_bBanned pService then
        let '(rest', list', n') := collect oNType tNow rest list nTotalRating in
        ((k, pService) :: rest', list', n')
      else
        let '(pService', bListed) := consider oNType tNow pService in
        let '(rest', list', n') :=
          if bListed
          then collect oNType tNow rest (list ++ [(k, pService')])
                       (quint16 (nTotalRating + m_nRating pService'))
          else collect oNType tNow rest list nTotalRating in
        ((k, pService') :: rest', list', n')
  end.

(** The walk along the list: [pSelected] is [*current], [rest] is what
    follows [current]. *)
Fixpoint walk (rest : TMap) (nSelectedRating : Z) (pSelected : Z * CDiscoveryService)
  : Result (Z * CDiscoveryService) :=
  if nSelectedRating >? m_nRating (snd pSelected) then
    match rest with
    | [] => Crash IteratorPastEnd
    | next :: rest' =>
        walk rest' (quint16 (nSelectedRating - m_nRating (snd pSelected))) next
    end
  else Ok pSelected.

(** *** [getRandomService]

    [tNow] is the clock and [nRand] the value of [qrand()].  The service
    returned is given with the key of the map it is stored under. *)
Definition getRandomService (oNType : CNetworkType) (tNow nRand : Z)
  : M (option (Z * CDiscoveryService)) :=
  m <- get m_mServices ;;
  let '(m', list, nTotalRating) := collect oNType (quint32 tNow) m [] 0 in
  modify (fun st => set_services st m') ;;
  match list with
  | [] => ret None
  | first :: rest =>
      if nTotalRating =? 0 then crash DivisionByZero     (* qrand() % 0 *)
      else
        let nSelectedRating := quint16 (Z.rem nRand nTotalRating + 1) in
        match walk rest nSelectedRating first with
        | Ok pSelected => ret (Some pSelected)
        | Crash f => crash f
        end
  end.
End Selection.

(** ** A sample environment

    Settings and a record format for running the manager on concrete
    inputs.  The values the application uses are fixed by
    discoveryservice.h and by the settings, neither of which is part of the
    sources. *)

Module Sample.
Definition bytes_of_string (s : string) : list Z :=
  map (fun c => Z.of_nat (nat_of_ascii c)) (list_ascii_of_string s).
Definition string_of_bytes (l : list Z) : string :=
  string_of_list_ascii (map (fun b => ascii_of_nat (Z.to_nat b)) l).

Definition type_code (t : TServiceType) : Z :=
  match t with stNull => 0 | stGWC => 1 end.
Definition type_of_code (c : Z) : option TServiceType :=
  if c =? 0 then Some stNull else if c =? 1 then Some stGWC else None.

(** One record: type, id, networks, rating, flags, times, then the URL
    with its length in front. *)
Definition save_record (s : CDiscoveryService) : option (list Z) :=
  Some (type_code (m_nServiceType s)
        :: write_u32 (m_nID s) ++ write_u16 (m_oNetworkType s)
        ++ [quint8 (m_nRating s); Z.b2z (m_bBanned s); Z.b2z (m_bRunning s)]
        ++ write_u32 (m_tLastQueried s) ++ write_u32 (m_nZeroRevivals s)
        ++ write_u32 (Z.of_nat (String.length (m_oServiceURL s)))
        ++ bytes_of_string (m_oServiceURL s)).

Definition take (n : nat) (l : list Z) : option (list Z * list Z) :=
  if (n <=? List.length l)%nat then Some (firstn n l, skipn n l) else None.

(** A record that is cut short or names no known type throws. *)
Definition load_record (nVersion : Z) (l : list Z)
  : option (option CDiscoveryService * list Z) :=
  match l with
  | ty :: i3 :: i2 :: i1 :: i0 :: n1 :: n0 :: r :: b :: u
       :: q3 :: q2 :: q1 :: q0 :: z3 :: z2 :: z1 :: z0
       :: l3 :: l2 :: l1 :: l0 :: rest =>
      match type_of_code ty,
            take (Z.to_nat (fst (read_u32 [l3; l2; l1; l0]))) rest with
      | Some t, Some (url, rest') =>
          Some (Some (mkService (fst (read_u32 [i3; i2; i1; i0]))
                                (string_of_bytes url) t
                                (fst (read_u16 [n1; n0])) r
                                (negb (b =? 0)) (negb (u =? 0))
                                (fst (read_u32 [q3; q2; q1; q0]))
                                (fst (read_u32 [z3; z2; z1; z0]))),
                rest')
      | _, _ => None
      end
  | _ => None
  end.

Definition env (debug : bool) : Environment :=
  mkEnv debug
        (fun sURL => negb (String.eqb sURL ""))
        (fun sURL => sURL)
        5 1 "data/" 60 100
        save_record load_record.

(** A disk without files on which no call is refused. *)
Definition emptyDisk : Disk := mkDisk (fun _ => None) (fun _ _ => false).

Definition gwc (id : Z) (url : string) (rating lastQueried : Z) : CDiscoveryService :=
  mkService id url stGWC dpG2 rating false false lastQueried 0.

Definition manager (m : TMap) (nLastID : Z) : CDiscovery :=
  mkDiscovery m true nLastID "" [] [] [] emptyDisk.
End Sample.

(** ** Notions used in the statements *)

(** The list of candidates [getRandomService] builds, and its
    [nTotalRating]. *)
Definition candidates (E : Environment) (oNType : CNetworkType) (tNow : Z)
           (st : CDiscovery) : TMap :=
  snd (fst (collect E oNType (quint32 tNow) (m_mServices st) [] 0)).

Definition totalRating (E : Environment) (oNType : CNetworkType) (tNow : Z)
           (st : CDiscovery) : Z :=
  snd (collect E oNType (quint32 tNow) (m_mServices st) [] 0).

(** The three results of the loop of [getRandomService], each on its own:
    what the loop makes of an entry, which entries it lists, and how it
    adds up their ratings. *)
Definition visit (E : Environment) (oNType : CNetworkType) (tNow : Z)
           (kv : Z * CDiscoveryService) : Z * CDiscoveryService :=
  (fst kv, if m_bBanned (snd kv) then snd kv
           else fst (consider E oNType tNow (snd kv))).

Definition listed (E : Environment) (oNType : CNetworkType) (tNow : Z)
           (pairs : TMap) : TMap :=
  flat_map (fun kv => if m_bBanned (snd kv) then []
                      else if snd (consider E oNType tNow (snd kv))
                           then [visit E oNType tNow kv] else [])
           pairs.

Definition accumulate (l : TMap) (nTotalRating : Z) : Z :=
  fold_left (fun n kv => quint16 (n + m_nRating (snd kv))) l nTotalRating.

(** A service after its revival. *)
Definition revived (E : Environment) (s : CDiscoveryService) : CDiscoveryService :=
  incZeroRevivals (setRating s (DISCOVERY_MAX_PROBABILITY E)).

(** The sum of the ratings of a list of services, without wrap-around. *)
Definition rating_sum (l : TMap) : Z :=
  fold_right (fun kv acc => m_nRating (snd kv) + acc) 0 l.

(** The merge of the networks of a candidate into a stored service. *)
Definition merged (e : CDiscoveryService) (oNType : CNetworkType) : CDiscoveryService :=
  with_network e (setNetwork (m_oNetworkType e) oNType).

(** The entries of a log at error severity. *)
Definition errors (log : list (LogSeverity.t * string)) : list (LogSeverity.t * string) :=
  filter (fun e => LogSeverity.eqb (fst e) LogSeverity.Error) log.

(** What the round trip of the spec compares: "ids, urls, types, networks,
    ratings". *)
Definition essence (s : CDiscoveryService)
  : Z * string * TServiceType * CNetworkType * Z :=
  (m_nID s, m_oServiceURL s, m_nServiceType s, m_oNetworkType s, m_nRating s).

(** The parts of the state that only saving, posting and the start-up
    touch. *)
Definition same_frame (st st' : CDiscovery) : Prop :=
  m_bSaved st' = m_bSaved st
  /\ disk st' = disk st
  /\ posted st' = posted st
  /\ m_sMessage st' = m_sMessage st.

(** The state with another map and another [m_nLastID]. *)
Definition with_store (st : CDiscovery) (m : TMap) (nLastID : Z) : CDiscovery :=
  set_lastID (set_services st m) nLastID.

(** The state after the warning [load] logs when the primary file failed. *)
Definition warned (E : Environment) (st : CDiscovery) : CDiscovery :=
  set_log st
    (systemLog st
     ++ [(LogSeverity.Warning,
          String.append (m_sMessage st)
            (String.append
               "Failed to load discovery services from primary file. Switching to backup: "
               (sBackupPath E)))]).

(** Whether the [nCount] records that a stream announces can be read one
    after the other: whether no call of [CDiscoveryService::load] throws. *)
Fixpoint readable (E : Environment) (nCount : nat) (nVersion : Z) (fsFile : list Z)
  : bool :=
  match nCount with
  | O => true
  | S nCount' =>
      match CDiscoveryService_load E nVersion fsFile with
      | None => false
      | Some (_, fsFile') => readable E nCount' nVersion fsFile'
      end
  end.

(** Whether a file can be loaded: it can be opened, and the records its
    header announces can be read. *)
Definition loads (E : Environment) (d : Disk) (path : string) : bool :=
  match QFile_openRead d path with
  | None => false
  | Some bytes =>
      let '(nVersion, fsFile) := read_u16 bytes in
      let '(nCount, fsFile) := read_u32 fsFile in
      readable E (Z.to_nat nCount) nVersion fsFile
  end.

(** The shape of the map that the operations keep: ascending keys, every
    service stored under its own id, ids from 1 on, and a counter that is
    not negative. *)
Definition well_formed (st : CDiscovery) : Prop :=
  StdMap.ordered (m_mServices st)
  /\ (forall k s, In (k, s) (m_mServices st) -> m_nID s = k /\ 0 < k)
  /\ 0 <= m_nLastID st.

(** The bytes the saving helper writes after the header when no record
    throws. *)
Fixpoint records (E : Environment) (m : TMap) : list Z :=
  match m with
  | [] => []
  | (_, pService) :: rest =>
      match CDiscoveryService_save E pService with
      | Some bytes => bytes ++ records E rest
      | None => []
      end
  end.

(** A record format is faithful to a service when the service can be
    written and what was written reads back, from in front of whatever
    follows, as a service with the same id, URL, type, networks and
    rating. *)
Definition faithful_format (E : Environment) (s : CDiscoveryService) : Prop :=
  exists bytes,
    CDiscoveryService_save E s = Some bytes
    /\ forall rest, exists s',
         CDiscoveryService_load E (quint16 (DISCOVERY_CODE_VERSION E)) (bytes ++ rest)
         = Some (Some s', rest)
         /\ essence s' = essence s.

(** Two services that [manageDuplicates] lets live side by side. *)
Definition compatible (E : Environment) (a b : CDiscoveryService) : Prop :=
  m_oServiceURL a <> m_oServiceURL b
  \/ (debug_build E = false /\ m_nServiceType a <> m_nServiceType b).

(** Two maps that the round trip of the spec does not tell apart. *)
Definition equivalent (m m' : TMap) : Prop :=
  Forall2 (fun a b => fst a = fst b /\ essence (snd a) = essence (snd b)) m m'.

(** No URL is stored with two service types: what a debug build asserts of
    every service it stores. *)
Definition type_consistent (m : TMap) : Prop :=
  forall k1 e1 k2 e2,
    In (k1, e1) m -> In (k2, e2) m ->
    m_oServiceURL e1 = m_oServiceURL e2 -> m_nServiceType e1 = m_nServiceType e2.

Module Overflow.
Import Sample.

(** Services 1 to [n], all of the same rating and last queried at the
    same time, each with a URL of its own. *)
Definition crowd_from (first : nat) (n : nat) (rating lastQueried : Z) : TMap :=
  map (fun i => (Z.of_nat i,
                 gwc (Z.of_nat i)
                     (String.append "http://gwc.example/"
                        (string_of_bytes [Z.of_nat (i / 256); Z.of_nat (i mod 256)]))
                     rating lastQueried))
      (seq first n).

(** 13107 services of rating 5 and one of rating 1: ratings that sum up
    to 65536. *)
Definition fullHouse : TMap :=
  crowd_from 1 (Z.to_nat 13107) 5 1000
  ++ crowd_from (Z.to_nat 13108) 1 1 1000.
End Overflow.

(** ** The remaining operations of [CDiscovery] *)

Section Remaining.
Variable E : Environment.

(** *** [check]

    [operator==] of [CDiscoveryService] is defined outside the sources and
    is a parameter of [check]. *)
Definition check (service_eq : CDiscoveryService -> CDiscoveryService -> bool)
           (pService : CDiscoveryService) : M bool :=
  m <- get m_mServices ;;
  match StdMap.find (m_nID pService) m with
  | None => ret false
  | Some pExService => ret (service_eq pExService pService)
  end.

(** *** [requestServiceList] *)

Definition requestServiceList : M unit :=
  invokeMethod call_asyncRequestServiceListHelper.

(** *** [asyncUpdateServiceHelper] and [asyncQueryServiceHelper]

    The two pairs of helpers differ in the text they log and in the method
    they call on the service, [update()] or [query()].  The two methods
    belong to the service classes, outside the sources: [serve] says what
    the method called makes of the service it is called on.  The service is
    the one the map holds (a shared pointer), so the entry of the map is
    rewritten with what the method leaves.  A helper returns here the
    service it calls the method on, if any.  [bAccessible] says whether the
    access manager reports the network as accessible; [tNow] and [nRand]
    are passed on to [getRandomService]. *)
Inductive Request := Update | Query.

Definition request_text (r : Request) : string :=
  match r with Update => "Updating service: " | Query => "Querying service: " end.
Definition request_unable (r : Request) : string :=
  match r with
  | Update => "Unable to update service for network: "
  | Query => "Unable to query service for network: "
  end.
Definition request_offline (r : Request) : string :=
  match r with
  | Update =>
      "Could not update service because the network connection is currently unavailable."
  | Query =>
      "Could not query service because the network connection is currently unavailable."
  end.

Definition asyncServiceHelper_type
           (serve : Request -> CDiscoveryService -> CDiscoveryService)
           (r : Request) (bAccessible : bool)
           (type : CNetworkType) (tNow nRand : Z)
  : M (option (Z * CDiscoveryService)) :=
  if bAccessible then
    pService <- getRandomService E type tNow nRand ;;
    match pService with
    | Some (k, s) =>
        postLog LogSeverity.Notice (String.append (request_text r) (m_oServiceURL s)) ;;
        modify (fun st =>                    (* pService->update() or query() *)
          set_services st (StdMap.insert k (serve r s) (m_mServices st))) ;;
        ret (Some (k, s))
    | None =>
        postLog LogSeverity.Warning (request_unable r) ;;
        ret None
    end
  else
    postLog LogSeverity.Error (request_offline r) ;;
    ret None.

Definition asyncServiceHelper_id
           (serve : Request -> CDiscoveryService -> CDiscoveryService)
           (r : Request) (nID : Z)
  : M (option (Z * CDiscoveryService)) :=
  m <- get m_mServices ;;
  match StdMap.find nID m with
  | None => Q_ASSERT E false ;; ret None
  | Some s =>
      postLog LogSeverity.Notice (String.append (request_text r) (m_oServiceURL s)) ;;
      modify (fun st =>                      (* pService->update() or query() *)
        set_services st (StdMap.insert nID (serve r s) (m_mServices st))) ;;
      ret (Some (nID, s))
  end.

Definition asyncUpdateServiceHelper_type serve := asyncServiceHelper_type serve Update.
Definition asyncQueryServiceHelper_type serve := asyncServiceHelper_type serve Query.
Definition asyncUpdateServiceHelper_id serve := asyncServiceHelper_id serve Update.
Definition asyncQueryServiceHelper_id serve := asyncServiceHelper_id serve Query.

(** *** [addDefaults]

    One turn of the [while] loop, for the line [QTextStream::readLine] has
    returned. *)
Definition addDefaults_line (sLine : string) : M unit :=
  if (String.length sLine <? 7)%nat then ret tt            (* continue *)
  else
    match sLine with
    | EmptyString => ret tt
    | String cType _ =>
        let sService := substring 2 (String.length sLine - 2) sLine in
        if Ascii.eqb cType "2" then
          add E sService stGWC dpG2 (DISCOVERY_MAX_PROBABILITY E) ;; ret tt
        else if Ascii.eqb cType "M" then
          add E sService stGWC dpG2 (DISCOVERY_MAX_PROBABILITY E) ;; ret tt
        else if Ascii.eqb cType "X" then
          add E sService stNull dpNull 0 ;; ret tt
        else ret tt                  (* '1', 'D', 'U', comments, unsupported *)
    end.

Fixpoint addDefaults_loop (lines : list string) : M unit :=
  match lines with
  | [] => ret tt
  | sLine :: rest => addDefaults_line sLine ;; addDefaults_loop rest
  end.

(** [applicationDirPath] is what [qApp->applicationDirPath()] returns and
    [readLines] the lines a [QTextStream] reads from the bytes of a file;
    both belong to Qt. *)
Definition addDefaults (applicationDirPath : string)
           (readLines : list Z -> list string) : M unit :=
  postLog LogSeverity.Debug "Loading default services from file." ;;
  oFile <- get (fun st =>
             QFile_openRead (disk st)
                            (String.append applicationDirPath "\DefaultServices.dat")) ;;
  match oFile with
  | None => postLog LogSeverity.Error "Error: Could not open file: DefaultServices.dat"
  | Some bytes => addDefaults_loop (readLines bytes)
  end.
End Remaining.

(** ** Sequences of calls *)

Inductive Operation :=
| call_add (sURL : string) (eSType : TServiceType) (oNType : CNetworkType) (nRating : Z)
| call_remove (nID : Z)
| call_clear (bInformGUI : bool)
| call_getRandomService (oNType : CNetworkType) (tNow nRand : Z).

Definition perform (E : Environment) (o : Operation) : M unit :=
  match o with
  | call_add sURL eSType oNType nRating => add E sURL eSType oNType nRating ;; ret tt
  | call_remove nID => remove nID ;; ret tt
  | call_clear bInformGUI => clear bInformGUI
  | call_getRandomService oNType tNow nRand =>
      getRandomService E oNType tNow nRand ;; ret tt
  end.

Fixpoint perform_all (E : Environment) (ops : list Operation) : M unit :=
  match ops with
  | [] => ret tt
  | o :: rest => perform E o ;; perform_all E rest
  end.

(** ** Further notions used in the statements *)

(** A service that [count] counts for a network. *)
Definition working (oType : CNetworkType) (kv : Z * CDiscoveryService) : bool :=
  isNetwork (m_oNetworkType (snd kv)) oType
  && negb (m_bBanned (snd kv))
  && negb (m_nRating (snd kv) =? 0).

(** A service that a call of [getRandomService] at [tNow] revives. *)
Definition revivable (E : Environment) (tNow : Z) (s : CDiscoveryService) : bool :=
  negb (m_bBanned s)
  && (m_nRating s =? 0)
  && (quint32 (m_tLastQueried s + ZeroRatingRevivalInterval E) >? quint32 tNow).

(** No two entries of the map have both the same URL and the same type. *)
Definition distinct_services (m : TMap) : Prop :=
  forall k1 e1 k2 e2,
    In (k1, e1) m -> In (k2, e2) m ->
    m_oServiceURL e1 = m_oServiceURL e2 ->
    m_nServiceType e1 = m_nServiceType e2 ->
    k1 = k2.

(** The ratings stored are ratings of type [quint8]. *)
Definition ratings_in_range (m : TMap) : Prop :=
  forall k s, In (k, s) m -> 0 <= m_nRating s < 256.

(** What every sequence of calls keeps of the map. *)
Definition kept (st : CDiscovery) : Prop :=
  well_formed st
  /\ distinct_services (m_mServices st)
  /\ ratings_in_range (m_mServices st).

(** The draws [qrand] can make: it returns no negative number. *)
Definition drawn (o : Operation) : Prop :=
  match o with
  | call_getRandomService _ _ nRand => 0 <= nRand
  | _ => True
  end.

(** A manager whose ids, and whose [m_nLastID], are at most [n]. *)
Definition within (n : Z) (st : CDiscovery) : Prop :=
  (forall k, In k (StdMap.keys (m_mServices st)) -> k <= n)
  /\ m_nLastID st <= n.

(** A line of the seed file that [addDefaults] acts on. *)
Definition effective (sLine : string) : bool :=
  (7 <=? String.length sLine)%nat
  && match sLine with
     | EmptyString => false
     | String cType _ =>
         Ascii.eqb cType "2" || Ascii.eqb cType "M" || Ascii.eqb cType "X"
     end.

(** The call of [add] that [addDefaults] makes for a line, if any: the
    URL, the service type, the networks and the rating. *)
Definition seed (E : Environment) (sLine : string)
  : option (string * TServiceType * CNetworkType * Z) :=
  if effective sLine then
    match sLine with
    | EmptyString => None
    | String cType _ =>
        let sService := substring 2 (String.length sLine - 2) sLine in
        if Ascii.eqb cType "X" then Some (sService, stNull, dpNull, 0)
        else Some (sService, stGWC, dpG2, DISCOVERY_MAX_PROBABILITY E)
    end
  else None.

(** A map in which every service is stored under its own id, in ascending
    order of the ids, and no two services have the same URL and type. *)
Definition consistent (m : TMap) : Prop :=
  StdMap.ordered m
  /\ (forall k s, In (k, s) m -> m_nID s = k)
  /\ distinct_services m.

(** ** Proof automation

    Running the saving helper by hand: [run] unfolds one layer of calls,
    [known] uses what is already known of the disk, [stuck] splits on the
    next thing the disk decides. *)

Ltac run :=
  unfold bind, postLog, emit, invokeMethod, modify, get, ret, crash, file_exists,
    file_remove, file_openWrite, file_write, file_rename, file_copy, count,
    QFile_exists, QFile_remove, QFile_openWrite, QFile_copy, QFile_rename;
  cbn [put_file disk set_disk set_log set_saved set_emitted set_posted set_lastID
       set_services set_message files refuses m_mServices m_bSaved m_nLastID
       m_sMessage systemLog emitted posted isNull dpNull andb negb fst snd Z.eqb].

Ltac known st :=
  repeat match goal with
         | H : files (disk st) ?p = _ |- context [files (disk st) ?p] => rewrite H
         | H : refuses (disk st) ?o ?p = _ |- context [refuses (disk st) ?o ?p] =>
             rewrite H
         end.

Ltac stuck st :=
  match goal with
  | |- context [refuses (disk st) ?o ?p] =>
      let H := fresh "Hrefuse" in destruct (refuses (disk st) o p) eqn:H
  | |- context [files (disk st) ?p] =>
      let H := fresh "Hfile" in destruct (files (disk st) p) eqn:H
  | |- context [save_services ?E ?m ?w] =>
      let H := fresh "Hsave" in destruct (save_services E m w) as [? [|]] eqn:H
  end.

(** * Properties *)

(** ** The ordered map *)

Module StdMapFacts.
Import StdMap.
Section WithValue.
Context {V : Type}.
Implicit Types (m : StdMap.t V) (k : Z) (v : V).

Lemma find_insert_eq k v m : find k (insert k v m) = Some v.
Proof.
  induction m as [|[k' v'] m IH]; simpl.
  - now rewrite Z.eqb_refl.
  - destruct (k <? k') eqn:Hlt; simpl.
    + now rewrite Z.eqb_refl.
    + destruct (k =? k') eqn:Heq; simpl.
      * now rewrite Z.eqb_refl.
      * rewrite Z.eqb_sym, Heq. exact IH.
Qed.

Lemma find_insert_neq k k' v m :
  k <> k' -> find k' (insert k v m) = find k' m.
Proof.
  intros Hne. induction m as [|[k0 v0] m IH]; simpl.
  - destruct (k =? k') eqn:Heq; [apply Z.eqb_eq in Heq; contradiction | reflexivity].
  - destruct (k <? k0) eqn:Hlt; simpl.
    + destruct (k =? k') eqn:Heq; [apply Z.eqb_eq in Heq; contradiction | reflexivity].
    + destruct (k =? k0) eqn:Heq; simpl.
      * apply Z.eqb_eq in Heq. subst k0.
        destruct (k =? k') eqn:Heq'; [apply Z.eqb_eq in Heq'; contradiction | reflexivity].
      * now rewrite IH.
Qed.

Lemma find_erase_eq k m : find k (erase k m) = None.
Proof.
  unfold erase. induction m as [|[k' v'] m IH]; simpl; [reflexivity|].
  destruct (k' =? k) eqn:Heq; simpl; [exact IH | now rewrite Heq].
Qed.

Lemma find_erase_neq k k' m : k <> k' -> find k' (erase k m) = find k' m.
Proof.
  intros Hne. unfold erase. induction m as [|[k0 v0] m IH]; simpl; [reflexivity|].
  destruct (k0 =? k) eqn:Heq; simpl.
  - apply Z.eqb_eq in Heq. subst k0.
    destruct (k =? k') eqn:Heq'; [apply Z.eqb_eq in Heq'; contradiction | exact IH].
  - now rewrite IH.
Qed.

Lemma find_In k v m : find k m = Some v -> In (k, v) m.
Proof.
  induction m as [|[k' v'] m IH]; simpl; [discriminate|].
  destruct (k' =? k) eqn:Heq.
  - apply Z.eqb_eq in Heq. intros [= ->]. subst. now left.
  - intros H. right. now apply IH.
Qed.

Lemma In_find k v m : In (k, v) m -> exists v', find k m = Some v'.
Proof.
  induction m as [|[k' v'] m IH]; simpl; [contradiction|].
  intros [[= -> ->] | H].
  - rewrite Z.eqb_refl. eauto.
  - destruct (k' =? k); eauto.
Qed.

Lemma keys_insert k v m k' :
  In k' (keys (insert k v m)) <-> k' = k \/ In k' (keys m).
Proof.
  induction m as [|[k0 v0] m IH]; simpl.
  - intuition.
  - destruct (k <? k0) eqn:Hlt; simpl; [intuition|].
    destruct (k =? k0) eqn:Heq; simpl.
    + apply Z.eqb_eq in Heq. subst. intuition.
    + rewrite IH. intuition.
Qed.

Lemma insert_ordered k v m : ordered m -> ordered (insert k v m).
Proof.
  induction m as [|[k0 v0] m IH]; simpl.
  - intuition.
  - intros [Hhd Htl]. destruct (k <? k0) eqn:Hlt; simpl.
    + split; [|split; assumption].
      apply Z.ltb_lt in Hlt. intros k' [<- | Hin]; [assumption|].
      specialize (Hhd _ Hin). lia.
    + destruct (k =? k0) eqn:Heq; simpl.
      * apply Z.eqb_eq in Heq. subst. split; assumption.
      * split; [|now apply IH].
        intros k' Hin. apply keys_insert in Hin.
        destruct Hin as [-> | Hin]; [|now apply Hhd].
        apply Z.ltb_ge in Hlt. apply Z.eqb_neq in Heq. lia.
Qed.

Lemma erase_ordered k m : ordered m -> ordered (erase k m).
Proof.
  unfold erase. induction m as [|[k0 v0] m IH]; simpl; [trivial|].
  intros [Hhd Htl]. destruct (k0 =? k); simpl; [now apply IH|].
  split; [|now apply IH].
  intros k' Hin. apply Hhd. unfold keys in *.
  apply in_map_iff in Hin. destruct Hin as [x [<- Hx]].
  apply filter_In in Hx. apply in_map. tauto.
Qed.

Lemma above_mono k k' m : k <= k' -> (above k' m <= above k m)%nat.
Proof.
  intros Hle. unfold above. induction m as [|[k0 v0] m IH]; simpl; [lia|].
  destruct (k' <? k0) eqn:H1; destruct (k <? k0) eqn:H2; simpl; lia.
Qed.

Lemma above_found k k' v m :
  k < k' -> find k' m = Some v -> (above k' m < above k m)%nat.
Proof.
  intros Hlt. unfold above. induction m as [|[k0 v0] m IH]; simpl; [discriminate|].
  destruct (k0 =? k') eqn:Heq.
  - apply Z.eqb_eq in Heq. subst k0. intros _.
    rewrite Z.ltb_irrefl. replace (k <? k') with true by (symmetry; now apply Z.ltb_lt).
    simpl. pose proof (above_mono k k' m ltac:(lia)) as Hm. unfold above in Hm. lia.
  - intros Hf. specialize (IH Hf).
    destruct (k' <? k0) eqn:H1; destruct (k <? k0) eqn:H2; simpl; lia.
Qed.

Lemma above_length k m : (above k m <= List.length m)%nat.
Proof. unfold above. apply filter_length_le. Qed.
End WithValue.
End StdMapFacts.

(** ** Identifiers *)

Section ManagerFacts.
Variable E : Environment.
Import StdMapFacts.

(** The search for a free identifier ends: among the [length m + 1] keys
    it tries, the map cannot hold them all. *)
Lemma findFreeID_total fuel (m : TMap) nLastID :
  (StdMap.above nLastID m < fuel)%nat ->
  exists id, findFreeID fuel m nLastID = Some id
             /\ nLastID < id /\ StdMap.find id m = None.
Proof.
  revert nLastID. induction fuel as [|fuel IH]; intros nLastID Hlt; [lia|].
  simpl. destruct (StdMap.find (nLastID + 1) m) eqn:Hf.
  - pose proof (above_found nLastID (nLastID + 1) _ m ltac:(lia) Hf) as Hd.
    destruct (IH (nLastID + 1) ltac:(lia)) as [id [H1 [H2 H3]]].
    exists id. repeat split; [assumption | lia | assumption].
  - exists (nLastID + 1). repeat split; [lia | assumption].
Qed.

Lemma findFreeID_enough (m : TMap) nLastID :
  exists id, findFreeID (S (List.length m)) m nLastID = Some id
             /\ nLastID < id /\ StdMap.find id m = None.
Proof.
  apply findFreeID_total. pose proof (above_length nLastID m). lia.
Qed.

#[local] Arguments findFreeID : simpl never.

Lemma with_id_same p : with_id p (m_nID p) = p.
Proof. now destruct p. Qed.

(** [add( TServicePtr& )] for a service without identifier that is no
    duplicate. *)
Lemma add_ptr_unassigned p st :
  manageDuplicates_scan E p (m_mServices st) = Ok None ->
  m_nID p = 0 ->
  exists id,
    findFreeID (S (List.length (m_mServices st))) (m_mServices st) (m_nLastID st) = Some id
    /\ add_ptr E (Some p) st
       = Ok ((true, Some (with_id p id)),
             set_services (set_lastID st id)
                          (StdMap.insert id (with_id p id) (m_mServices st))).
Proof.
  intros Hscan Hid.
  destruct (findFreeID_enough (m_mServices st) (m_nLastID st)) as [id [Hfree _]].
  exists id. split; [assumption|].
  unfold add_ptr, bind, manageDuplicates. rewrite Hscan. simpl.
  rewrite Hid. simpl.
  unfold assignID. rewrite Hid. simpl.
  unfold bind, get. rewrite Hfree. reflexivity.
Qed.

(** [add( TServicePtr& )] for a service that brings its own identifier,
    which is free, and is no duplicate. *)
Lemma add_ptr_assigned p st :
  manageDuplicates_scan E p (m_mServices st) = Ok None ->
  m_nID p <> 0 ->
  StdMap.find (m_nID p) (m_mServices st) = None ->
  add_ptr E (Some p) st
  = Ok ((true, Some p), set_services st (StdMap.insert (m_nID p) p (m_mServices st))).
Proof.
  intros Hscan Hid Hfree.
  unfold add_ptr, bind, manageDuplicates. rewrite Hscan. simpl.
  rewrite Hfree.
  apply Z.eqb_neq in Hid. rewrite Hid. simpl.
  unfold assignID. rewrite Hid. reflexivity.
Qed.

(** [add( TServicePtr& )] for a service whose identifier is taken: a
    debug build stops at the assertion, any other build assigns a new
    identifier. *)
Lemma add_ptr_taken p st e :
  manageDuplicates_scan E p (m_mServices st) = Ok None ->
  m_nID p <> 0 ->
  StdMap.find (m_nID p) (m_mServices st) = Some e ->
  if debug_build E then add_ptr E (Some p) st = Crash AssertionFailed
  else exists id,
    findFreeID (S (List.length (m_mServices st))) (m_mServices st) (m_nLastID st) = Some id
    /\ add_ptr E (Some p) st
       = Ok ((true, Some (with_id p id)),
             set_services (set_lastID st id)
                          (StdMap.insert id (with_id p id) (m_mServices st))).
Proof.
  intros Hscan Hid Htaken.
  apply Z.eqb_neq in Hid.
  destruct (debug_build E) eqn:Hdebug.
  - unfold add_ptr, bind, manageDuplicates. rewrite Hscan. simpl.
    rewrite Htaken, Hid. simpl.
    unfold Q_ASSERT. rewrite Hdebug. reflexivity.
  - destruct (findFreeID_enough (m_mServices st) (m_nLastID st)) as [id [Hfree _]].
    exists id. split; [assumption|].
    unfold add_ptr, bind, manageDuplicates. rewrite Hscan. simpl.
    rewrite Htaken, Hid. simpl.
    unfold Q_ASSERT. rewrite Hdebug. simpl.
    unfold assignID. simpl. unfold bind, get. rewrite Hfree. reflexivity.
Qed.

(** [remove]: what a successful call does. *)
Lemma remove_success nID st st' :
  remove nID st = Ok (true, st') ->
  exists pService,
    nID <> 0
    /\ StdMap.find nID (m_mServices st) = Some pService
    /\ m_mServices st' = StdMap.erase nID (m_mServices st)
    /\ m_nLastID st' = (if nID - 1 <? m_nLastID st then nID - 1 else m_nLastID st)
    /\ m_bSaved st' = m_bSaved st.
Proof.
  unfold remove. destruct (nID =? 0) eqn:Hz.
  - unfold bind, postLog, modify, ret. simpl. discriminate.
  - unfold bind, get. simpl.
    destruct (StdMap.find nID (m_mServices st)) as [pService|] eqn:Hf.
    + simpl. destruct (nID - 1 <? m_nLastID st) eqn:Hlt; simpl;
        intros [= <-]; exists pService; simpl; rewrite ?Hlt;
        (repeat split; try reflexivity; now apply Z.eqb_neq).
    + simpl. discriminate.
Qed.
End ManagerFacts.

Section Recycling.
Variable E : Environment.
Import StdMapFacts.

#[local] Arguments findFreeID : simpl never.

(** A service whose URL no stored service has is no duplicate. *)
Lemma manageDuplicates_scan_fresh p (m : TMap) :
  (forall k e, In (k, e) m -> m_oServiceURL e <> m_oServiceURL p) ->
  manageDuplicates_scan E p m = Ok None.
Proof.
  induction m as [|[k e] m IH]; intros Hfresh; simpl; [reflexivity|].
  destruct (String.eqb (m_oServiceURL e) (m_oServiceURL p)) eqn:Heq.
  - apply String.eqb_eq in Heq. exfalso. apply (Hfresh k e); [now left | assumption].
  - rewrite IH; [reflexivity|]. intros k' e' Hin. apply (Hfresh k' e'). now right.
Qed.

(** The public [add] of a valid URL that no stored service has. *)
Lemma add_fresh sURL eSType oNType nRating st :
  QUrl_isValid E sURL = true ->
  (forall k e, In (k, e) (m_mServices st) ->
               m_oServiceURL e <> normalizeURL (QUrl_toString E sURL)) ->
  exists id st',
    add E sURL eSType oNType nRating st = Ok (id, st')
    /\ findFreeID (S (List.length (m_mServices st))) (m_mServices st) (m_nLastID st) = Some id
    /\ m_nLastID st' = id
    /\ m_bSaved st' = m_bSaved st
    /\ m_mServices st'
       = StdMap.insert id
           (mkService id (normalizeURL (QUrl_toString E sURL)) eSType oNType
                      (quint8 nRating) false false 0 0)
           (m_mServices st).
Proof.
  intros Hvalid Hfresh.
  set (p := mkService 0 (normalizeURL (QUrl_toString E sURL)) eSType oNType
                      (quint8 nRating) false false 0 0).
  destruct (add_ptr_unassigned E p st) as [id [Hfree Hadd]];
    [now apply manageDuplicates_scan_fresh | reflexivity |].
  exists id. eexists. split; [|split; [exact Hfree|]].
  - unfold add. rewrite Hvalid. cbn [negb]. unfold createService. fold p.
    unfold bind at 1. rewrite Hadd. reflexivity.
  - simpl. repeat split.
Qed.
End Recycling.

(** C4, as stated, fails: with the services 1, 2 and 3 stored and
    [m_nLastID] = 3, removing service 2 (an id lower than [m_nLastID])
    leaves [m_nLastID] at 1, not at the freed id 2. *)
Lemma C4_lastID_is_one_below_the_freed_id :
  let st := Sample.manager [(1, Sample.gwc 1 "http://a.com" 5 0);
                            (2, Sample.gwc 2 "http://b.com" 5 0);
                            (3, Sample.gwc 3 "http://c.com" 5 0)] 3 in
  exists st', remove 2 st = Ok (true, st')
              /\ 2 < m_nLastID st
              /\ m_nLastID st' = 1
              /\ m_nLastID st' <> 2.
Proof.
  eexists. split; [reflexivity|]. simpl. repeat split; lia.
Qed.

(** C4 (amended).  For every successful [remove( id )] with
    [id - 1 < m_nLastID] (that is, [id <= m_nLastID]), [m_nLastID] is set to
    [id - 1], one below the freed id, so that a subsequent [add] that
    assigns a fresh id (it scans upward from [m_nLastID + 1]) reuses the
    freed id first and returns it; this covers the removal of the service
    with the highest id whenever that id is not above [m_nLastID]. *)
Theorem C4_remove_recycles_the_freed_id
        (E : Environment) (nID : Z) (st st' : CDiscovery)
        (sURL : string) (eSType : TServiceType) (oNType : CNetworkType) (nRating : Z) :
  remove nID st = Ok (true, st') ->
  nID - 1 < m_nLastID st ->
  QUrl_isValid E sURL = true ->
  (forall k e, In (k, e) (m_mServices st') ->
               m_oServiceURL e <> normalizeURL (QUrl_toString E sURL)) ->
  m_nLastID st' = nID - 1
  /\ StdMap.find nID (m_mServices st') = None
  /\ exists st'' pService,
       add E sURL eSType oNType nRating st' = Ok (nID, st'')
       /\ StdMap.find nID (m_mServices st'') = Some pService
       /\ m_nID pService = nID
       /\ m_oServiceURL pService = normalizeURL (QUrl_toString E sURL)
       /\ m_nLastID st'' = nID.
Proof.
  intros Hrem Hlow Hvalid Hfresh.
  destruct (remove_success nID st st' Hrem) as [pOld [Hnz [Hold [Hmap [Hlast _]]]]].
  assert (Hlast' : m_nLastID st' = nID - 1).
  { rewrite Hlast. destruct (nID - 1 <? m_nLastID st) eqn:Hlt; [reflexivity | lia]. }
  assert (Hfree : StdMap.find nID (m_mServices st') = None).
  { rewrite Hmap. apply StdMapFacts.find_erase_eq. }
  split; [exact Hlast' | split; [exact Hfree|]].
  destruct (add_fresh E sURL eSType oNType nRating st' Hvalid Hfresh)
    as [id [st'' [Hadd [Hid [Hl [_ Hm]]]]]].
  assert (id = nID) as ->.
  { simpl in Hid. rewrite Hlast' in Hid.
    replace (nID - 1 + 1) with nID in Hid by lia.
    rewrite Hfree in Hid. now injection Hid. }
  exists st''. eexists. split; [exact Hadd|].
  split; [rewrite Hm; apply StdMapFacts.find_insert_eq|].
  simpl. repeat split. exact Hl.
Qed.

Lemma C4_remove_recycles_the_freed_id_witness :
  let st := Sample.manager [(1, Sample.gwc 1 "http://a.com" 5 0);
                            (2, Sample.gwc 2 "http://b.com" 5 0);
                            (3, Sample.gwc 3 "http://c.com" 5 0)] 3 in
  let st' := Sample.manager [(1, Sample.gwc 1 "http://a.com" 5 0);
                             (2, Sample.gwc 2 "http://b.com" 5 0)] 2 in
  exists st1,
    remove 3 st = Ok (true, st1)
    /\ m_mServices st1 = m_mServices st'
    /\ m_nLastID st1 = 3 - 1
    /\ exists st'' pService,
         add (Sample.env false) "http://D.com" stGWC dpG2 5 st1 = Ok (3, st'')
         /\ StdMap.find 3 (m_mServices st'') = Some pService
         /\ m_nID pService = 3.
Proof.
  intros st st'.
  eexists. split; [reflexivity|]. split; [reflexivity|].
  epose proof (C4_remove_recycles_the_freed_id (Sample.env false) 3 st _
                 "http://D.com" stGWC dpG2 5 eq_refl) as H.
  destruct H as [Hl [_ [st'' [p [Hadd [Hf [Hi _]]]]]]].
  - simpl. lia.
  - reflexivity.
  - simpl. intros k e [[= <- <-] | [[= <- <-] | []]]; simpl; discriminate.
  - split; [exact Hl|]. exists st'', p. repeat split; assumption.
Defined.

(** ** Duplicates *)

Lemma TServiceType_eqb_eq a b : TServiceType_eqb a b = true <-> a = b.
Proof. destruct a, b; simpl; split; congruence. Qed.

Section Duplicates.
Variable E : Environment.

(** The scan stops at the first stored service with the URL and the type
    of the candidate, and merges the networks there.  A debug build gets
    that far only if no service met on the way has the URL with another
    type. *)
Lemma manageDuplicates_scan_duplicate p (m : TMap) :
  (exists k e, In (k, e) m
               /\ m_oServiceURL e = m_oServiceURL p
               /\ m_nServiceType e = m_nServiceType p) ->
  (debug_build E = true ->
   forall k e, In (k, e) m -> m_oServiceURL e = m_oServiceURL p ->
               m_nServiceType e = m_nServiceType p) ->
  exists l1 k e l2,
    m = l1 ++ (k, e) :: l2
    /\ m_oServiceURL e = m_oServiceURL p
    /\ m_nServiceType e = m_nServiceType p
    /\ (forall k' e', In (k', e') l1 ->
                      ~ (m_oServiceURL e' = m_oServiceURL p
                         /\ m_nServiceType e' = m_nServiceType p))
    /\ manageDuplicates_scan E p m
       = Ok (Some (l1 ++ (k, merged e (m_oNetworkType p)) :: l2)).
Proof.
  induction m as [|[k0 e0] m IH]; intros [k [e [Hin [Hurl Hty]]]] Hdebug.
  - destruct Hin.
  - simpl.
    destruct (String.eqb (m_oServiceURL e0) (m_oServiceURL p)) eqn:Hu;
      [destruct (TServiceType_eqb (m_nServiceType p) (m_nServiceType e0)) eqn:Ht|].
    + apply String.eqb_eq in Hu. apply TServiceType_eqb_eq in Ht.
      exists [], k0, e0, m. simpl. repeat split; try congruence.
    + apply String.eqb_eq in Hu.
      assert (Hne : m_nServiceType e0 <> m_nServiceType p).
      { intros Heq. symmetry in Heq. apply TServiceType_eqb_eq in Heq. congruence. }
      destruct (debug_build E) eqn:Hd.
      { exfalso. apply Hne. apply (Hdebug eq_refl k0 e0); [now left | assumption]. }
      destruct Hin as [[= -> ->] | Hin]; [contradiction|].
      destruct IH as [l1 [k1 [e1 [l2 [Hm [Hu1 [Ht1 [Hfirst Hscan]]]]]]]].
      * exists k, e. auto.
      * intros Hd'. discriminate.
      * exists ((k0, e0) :: l1), k1, e1, l2. rewrite Hscan, Hm. simpl.
        repeat split; try assumption.
        intros k' e' [Heq | Hin'];
          [injection Heq as <- <-; tauto | exact (Hfirst k' e' Hin')].
    + assert (Hne : m_oServiceURL e0 <> m_oServiceURL p).
      { intros Heq. apply String.eqb_eq in Heq. congruence. }
      destruct Hin as [[= -> ->] | Hin]; [contradiction|].
      destruct IH as [l1 [k1 [e1 [l2 [Hm [Hu1 [Ht1 [Hfirst Hscan]]]]]]]].
      * exists k, e. auto.
      * intros Hd k' e' Hin'. apply (Hdebug Hd k'). now right.
      * exists ((k0, e0) :: l1), k1, e1, l2. rewrite Hscan, Hm. simpl.
        repeat split; try assumption.
        intros k' e' [Heq | Hin'];
          [injection Heq as <- <-; tauto | exact (Hfirst k' e' Hin')].
Qed.

(** [add( TServicePtr& )] on a duplicate. *)
Lemma add_ptr_duplicate p st m' :
  manageDuplicates_scan E p (m_mServices st) = Ok (Some m') ->
  add_ptr E (Some p) st
  = Ok ((false, None),
        set_log (set_services st m')
                (systemLog st
                 ++ [(LogSeverity.Debug,
                      String.append (m_sMessage st)
                        "Detected a duplicate service. Not going to add the new one.")])).
Proof.
  intros Hscan. unfold add_ptr, bind, manageDuplicates. rewrite Hscan. reflexivity.
Qed.
End Duplicates.

(** C6.  For every [add( url, type, network, rating )] of a valid URL whose
    normalized form is the URL of a stored service of the same service
    type, [add] returns 0, the map keeps its keys (no entry is created, the
    new service is dropped and no [serviceAdded] is emitted), and the first
    such stored service takes the union of its networks and those of the new
    service; all other entries stay as they are.  In a debug build this
    supposes that no stored service has that URL with another type, which
    the assertion of [manageDuplicates] would stop at. *)
Theorem C6_duplicate_add_returns_zero_and_merges
        (E : Environment) (st : CDiscovery)
        (sURL : string) (eSType : TServiceType) (oNType : CNetworkType) (nRating : Z) :
  QUrl_isValid E sURL = true ->
  (exists k e, In (k, e) (m_mServices st)
               /\ m_oServiceURL e = normalizeURL (QUrl_toString E sURL)
               /\ m_nServiceType e = eSType) ->
  (debug_build E = true ->
   forall k e, In (k, e) (m_mServices st) ->
               m_oServiceURL e = normalizeURL (QUrl_toString E sURL) ->
               m_nServiceType e = eSType) ->
  exists st' l1 k e l2,
    add E sURL eSType oNType nRating st = Ok (0, st')
    /\ m_mServices st = l1 ++ (k, e) :: l2
    /\ m_oServiceURL e = normalizeURL (QUrl_toString E sURL)
    /\ m_nServiceType e = eSType
    /\ (forall k' e', In (k', e') l1 ->
                      ~ (m_oServiceURL e' = normalizeURL (QUrl_toString E sURL)
                         /\ m_nServiceType e' = eSType))
    /\ m_mServices st' = l1 ++ (k, merged e oNType) :: l2
    /\ m_oNetworkType (merged e oNType) = Z.lor (m_oNetworkType e) oNType
    /\ StdMap.keys (m_mServices st') = StdMap.keys (m_mServices st)
    /\ m_nLastID st' = m_nLastID st
    /\ emitted st' = emitted st.
Proof.
  intros Hvalid Hex Hdebug.
  set (p := mkService 0 (normalizeURL (QUrl_toString E sURL)) eSType oNType
                      (quint8 nRating) false false 0 0).
  destruct (manageDuplicates_scan_duplicate E p (m_mServices st) Hex Hdebug)
    as [l1 [k [e [l2 [Hm [Hu [Ht [Hfirst Hscan]]]]]]]].
  eexists. exists l1, k, e, l2.
  split.
  - unfold add. rewrite Hvalid. cbn [negb]. unfold createService. fold p.
    unfold bind at 1. rewrite (add_ptr_duplicate E p st _ Hscan). reflexivity.
  - simpl. repeat split; try assumption.
    rewrite Hm. unfold StdMap.keys. rewrite !map_app. reflexivity.
Qed.

Lemma C6_duplicate_add_returns_zero_and_merges_witness :
  let st := Sample.manager [(1, Sample.gwc 1 "http://a.com" 5 0);
                            (2, Sample.gwc 2 "http://b.com" 5 0)] 2 in
  QUrl_isValid (Sample.env true) "HTTP://B.com" = true
  /\ exists st' l1 k e l2,
       add (Sample.env true) "HTTP://B.com" stGWC 1 5 st = Ok (0, st')
       /\ m_mServices st = l1 ++ (k, e) :: l2
       /\ m_mServices st' = l1 ++ (k, merged e 1) :: l2
       /\ StdMap.keys (m_mServices st') = StdMap.keys (m_mServices st).
Proof.
  intros st. split; [reflexivity|].
  destruct (C6_duplicate_add_returns_zero_and_merges
              (Sample.env true) st "HTTP://B.com" stGWC 1 5 eq_refl)
    as [st' [l1 [k [e [l2 [Hadd [Hm [_ [_ [_ [Hm' [_ [Hk _]]]]]]]]]]]]].
  - exists 2, (Sample.gwc 2 "http://b.com" 5 0). simpl. repeat split. right. now left.
  - intros _ k e [[= <- <-] | [[= <- <-] | []]]; simpl; [discriminate | reflexivity].
  - exists st', l1, k, e, l2. repeat split; assumption.
Defined.

Section TypeMismatch.
Variable E : Environment.
Import StdMapFacts.

#[local] Arguments findFreeID : simpl never.

(** The scan when every stored service with the URL of the candidate has
    another type: a build without assertions finds no duplicate. *)
Lemma manageDuplicates_scan_mismatch_release p (m : TMap) :
  debug_build E = false ->
  (forall k e, In (k, e) m -> m_oServiceURL e = m_oServiceURL p ->
               m_nServiceType e <> m_nServiceType p) ->
  manageDuplicates_scan E p m = Ok None.
Proof.
  intros Hrel. induction m as [|[k0 e0] m IH]; intros Hall; simpl; [reflexivity|].
  rewrite IH by (intros k e Hin; apply (Hall k e); now right).
  destruct (String.eqb (m_oServiceURL e0) (m_oServiceURL p)) eqn:Hu; [|reflexivity].
  apply String.eqb_eq in Hu.
  destruct (TServiceType_eqb (m_nServiceType p) (m_nServiceType e0)) eqn:Ht.
  - apply TServiceType_eqb_eq in Ht. exfalso.
    apply (Hall k0 e0); [now left | assumption | congruence].
  - now rewrite Hrel.
Qed.

(** The same scan in a debug build stops at the assertion. *)
Lemma manageDuplicates_scan_mismatch_debug p (m : TMap) :
  debug_build E = true ->
  (exists k e, In (k, e) m /\ m_oServiceURL e = m_oServiceURL p) ->
  (forall k e, In (k, e) m -> m_oServiceURL e = m_oServiceURL p ->
               m_nServiceType e <> m_nServiceType p) ->
  manageDuplicates_scan E p m = Crash AssertionFailed.
Proof.
  intros Hdbg. induction m as [|[k0 e0] m IH]; intros [k [e [Hin Hurl]]] Hall.
  - destruct Hin.
  - simpl. destruct (String.eqb (m_oServiceURL e0) (m_oServiceURL p)) eqn:Hu.
    + apply String.eqb_eq in Hu.
      destruct (TServiceType_eqb (m_nServiceType p) (m_nServiceType e0)) eqn:Ht.
      * apply TServiceType_eqb_eq in Ht. exfalso.
        apply (Hall k0 e0); [now left | assumption | congruence].
      * now rewrite Hdbg.
    + destruct Hin as [Heq | Hin].
      * injection Heq as -> ->. rewrite String.eqb_neq in Hu. contradiction.
      * rewrite IH; [reflexivity | now exists k, e |].
        intros k' e' Hin'. apply (Hall k' e'). now right.
Qed.

(** A service that is no duplicate is stored, under an identifier that
    was free, by every build that does not stop at an assertion. *)
Lemma add_ptr_release_stores p st :
  debug_build E = false ->
  manageDuplicates_scan E p (m_mServices st) = Ok None ->
  exists id st',
    add_ptr E (Some p) st = Ok ((true, Some (with_id p id)), st')
    /\ StdMap.find id (m_mServices st) = None
    /\ m_mServices st' = StdMap.insert id (with_id p id) (m_mServices st)
    /\ systemLog st' = systemLog st
    /\ m_bSaved st' = m_bSaved st.
Proof.
  intros Hrel Hscan.
  destruct (Z.eq_dec (m_nID p) 0) as [Hz | Hnz].
  - destruct (add_ptr_unassigned E p st Hscan Hz) as [id [Hfree Hadd]].
    destruct (findFreeID_enough (m_mServices st) (m_nLastID st)) as [id' [Hfree' [_ Hnone]]].
    assert (id' = id) as -> by congruence.
    exists id. eexists. split; [exact Hadd|]. simpl. repeat split. exact Hnone.
  - destruct (StdMap.find (m_nID p) (m_mServices st)) as [e|] eqn:Hf.
    + pose proof (add_ptr_taken E p st e Hscan Hnz Hf) as Hadd. rewrite Hrel in Hadd.
      destruct Hadd as [id [Hfree Hadd]].
      destruct (findFreeID_enough (m_mServices st) (m_nLastID st))
        as [id' [Hfree' [_ Hnone]]].
      assert (id' = id) as -> by congruence.
      exists id. eexists. split; [exact Hadd|]. simpl. repeat split. exact Hnone.
    + exists (m_nID p). eexists. rewrite with_id_same.
      split; [exact (add_ptr_assigned E p st Hscan Hnz Hf)|].
      simpl. repeat split. exact Hf.
Qed.
End TypeMismatch.

(** C7, as stated, fails: in a build without assertions, with the GWC
    service "http://a.com" stored, adding "http://a.com" as a service of
    type [stNull] returns the new id 2, leaves two services in the map and
    logs nothing at error severity. *)
Lemma C7_mismatched_candidate_is_added :
  let st := Sample.manager [(1, Sample.gwc 1 "http://a.com" 5 0)] 1 in
  exists st',
    add (Sample.env false) "http://a.com" stNull dpG2 5 st = Ok (2, st')
    /\ StdMap.keys (m_mServices st') = [1; 2]
    /\ errors (systemLog st') = [].
Proof.
  intros st. eexists. split; [vm_compute; reflexivity|]. split; reflexivity.
Qed.

(** C7 (amended).  When a candidate service has the URL of stored services
    that are all of another service type, a debug build stops at the
    assertion of [manageDuplicates]; a production build logs nothing, keeps
    every stored service as it is and does not reject the candidate: it is
    stored under an identifier that was free. *)
Theorem C7_type_mismatch_asserts_or_adds
        (E : Environment) (st : CDiscovery) (pService : CDiscoveryService) :
  (exists k e, In (k, e) (m_mServices st)
               /\ m_oServiceURL e = m_oServiceURL pService) ->
  (forall k e, In (k, e) (m_mServices st) ->
               m_oServiceURL e = m_oServiceURL pService ->
               m_nServiceType e <> m_nServiceType pService) ->
  if debug_build E
  then add_ptr E (Some pService) st = Crash AssertionFailed
  else exists id st',
      add_ptr E (Some pService) st = Ok ((true, Some (with_id pService id)), st')
      /\ StdMap.find id (m_mServices st) = None
      /\ StdMap.find id (m_mServices st') = Some (with_id pService id)
      /\ (forall k, k <> id ->
                    StdMap.find k (m_mServices st') = StdMap.find k (m_mServices st))
      /\ systemLog st' = systemLog st.
Proof.
  intros Hex Hall. destruct (debug_build E) eqn:Hbuild.
  - unfold add_ptr, bind, manageDuplicates.
    now rewrite (manageDuplicates_scan_mismatch_debug E pService _ Hbuild Hex Hall).
  - pose proof (manageDuplicates_scan_mismatch_release E pService _ Hbuild Hall) as Hscan.
    destruct (add_ptr_release_stores E pService st Hbuild Hscan)
      as [id [st' [Hadd [Hfree [Hm [Hlog _]]]]]].
    exists id, st'. split; [exact Hadd|]. split; [exact Hfree|].
    rewrite Hm. split; [apply StdMapFacts.find_insert_eq|].
    split; [|exact Hlog].
    intros k Hk. apply StdMapFacts.find_insert_neq. congruence.
Qed.

Lemma C7_type_mismatch_asserts_or_adds_witness :
  let st := Sample.manager [(1, Sample.gwc 1 "http://a.com" 5 0)] 1 in
  let p := mkService 0 "http://a.com" stNull dpG2 5 false false 0 0 in
  (exists k e, In (k, e) (m_mServices st) /\ m_oServiceURL e = m_oServiceURL p)
  /\ add_ptr (Sample.env true) (Some p) st = Crash AssertionFailed
  /\ exists id st',
       add_ptr (Sample.env false) (Some p) st = Ok ((true, Some (with_id p id)), st')
       /\ StdMap.find id (m_mServices st') = Some (with_id p id).
Proof.
  intros st p.
  assert (Hex : exists k e, In (k, e) (m_mServices st)
                            /\ m_oServiceURL e = m_oServiceURL p).
  { exists 1, (Sample.gwc 1 "http://a.com" 5 0). split; [now left | reflexivity]. }
  assert (Hall : forall k e, In (k, e) (m_mServices st) ->
                             m_oServiceURL e = m_oServiceURL p ->
                             m_nServiceType e <> m_nServiceType p).
  { intros k e [[= <- <-] | []] _. discriminate. }
  split; [exact Hex|]. split.
  - exact (C7_type_mismatch_asserts_or_adds (Sample.env true) st p Hex Hall).
  - destruct (C7_type_mismatch_asserts_or_adds (Sample.env false) st p Hex Hall)
      as [id [st' [Hadd [_ [Hf _]]]]].
    exists id, st'. split; assumption.
Defined.

(** ** Selection *)

Section SelectionFacts.
Variable E : Environment.
Variables (oNType : CNetworkType) (tNow : Z).

Lemma accumulate_app l1 l2 n :
  accumulate (l1 ++ l2) n = accumulate l2 (accumulate l1 n).
Proof. unfold accumulate. apply fold_left_app. Qed.

(** The loop of [getRandomService], result by result. *)
Lemma collect_eq (pairs list : TMap) (n : Z) :
  collect E oNType tNow pairs list n
  = (map (visit E oNType tNow) pairs,
     list ++ listed E oNType tNow pairs,
     accumulate (listed E oNType tNow pairs) n).
Proof.
  revert list n. induction pairs as [|[k s] pairs IH]; intros list n.
  - simpl. now rewrite app_nil_r.
  - cbn [collect]. unfold listed, visit. cbn [flat_map map fst snd].
    fold (listed E oNType tNow pairs).
    destruct (m_bBanned s) eqn:Hb.
    + rewrite IH. reflexivity.
    + destruct (consider E oNType tNow s) as [s' b] eqn:Hc. cbn [fst snd].
      destruct b; rewrite IH.
      * rewrite <- app_assoc. reflexivity.
      * reflexivity.
Qed.

Lemma accumulate_sum (l : TMap) (n : Z) :
  accumulate l (quint16 n) = quint16 (n + rating_sum l).
Proof.
  revert n. induction l as [|[k s] l IH]; intros n; simpl.
  - now rewrite Z.add_0_r.
  - rewrite IH. unfold quint16, wrap.
    rewrite <- Z.add_assoc. apply Zplus_mod_idemp_l.
Qed.

(** What [consider] says of a service it lists. *)
Lemma consider_listed s s' :
  consider E oNType tNow s = (s', true) ->
  m_bRunning s = false
  /\ m_bRunning s' = false
  /\ m_bBanned s' = m_bBanned s
  /\ isNetwork (m_oNetworkType s) oNType = true
  /\ (quint32 (m_tLastQueried s + AccessThrottle E) >? tNow) = true
  /\ (m_nRating s <> 0 /\ s' = s
      \/ m_nRating s = 0 /\ s' = revived E s
         /\ (quint32 (m_tLastQueried s + ZeroRatingRevivalInterval E) >? tNow) = true).
Proof.
  unfold consider, revived.
  destruct (m_nRating s =? 0) eqn:Hr; cbn [negb].
  - apply Z.eqb_eq in Hr.
    destruct (quint32 (m_tLastQueried s + ZeroRatingRevivalInterval E) >? tNow) eqn:Hrev.
    + cbn. intros [= <- Hl].
      apply andb_prop in Hl. destruct Hl as [Hl Hrun].
      apply andb_prop in Hl. destruct Hl as [Hl Hthr].
      apply andb_prop in Hl. destruct Hl as [Hnet _].
      apply negb_true_iff in Hrun.
      repeat split; try assumption. right. repeat split; assumption.
    + cbn. intros [= <- Hl]. rewrite andb_false_r in Hl. discriminate.
  - apply Z.eqb_neq in Hr. intros [= <- Hl].
    apply andb_prop in Hl. destruct Hl as [Hl Hrun].
    apply andb_prop in Hl. destruct Hl as [Hl Hthr].
    apply andb_prop in Hl. destruct Hl as [Hnet _].
    apply negb_true_iff in Hrun.
    repeat split; try assumption. left. split; [assumption | reflexivity].
Qed.

(** The candidates are the entries of the map that are not banned and
    that [consider] lists, as [consider] leaves them. *)
Lemma In_listed (pairs : TMap) k s :
  In (k, s) (listed E oNType tNow pairs)
  <-> exists s0, In (k, s0) pairs
                 /\ m_bBanned s0 = false
                 /\ consider E oNType tNow s0 = (s, true).
Proof.
  unfold listed. rewrite in_flat_map. split.
  - intros [[k0 s0] [Hin Hl]]. cbn [fst snd] in Hl.
    destruct (m_bBanned s0) eqn:Hb; [destruct Hl|].
    destruct (consider E oNType tNow s0) as [s' b] eqn:Hc. cbn [fst snd] in Hl.
    destruct b; [|destruct Hl].
    destruct Hl as [Heq | []]. unfold visit in Heq. cbn [fst snd] in Heq.
    rewrite Hb, Hc in Heq. cbn [fst] in Heq. injection Heq as <- <-.
    exists s0. repeat split; assumption.
  - intros [s0 [Hin [Hb Hc]]]. exists (k, s0). split; [assumption|].
    cbn [fst snd]. rewrite Hb, Hc. cbn [fst snd]. left.
    unfold visit. cbn [fst snd]. now rewrite Hb, Hc.
Qed.

Lemma In_visited (pairs : TMap) k s0 :
  In (k, s0) pairs -> In (visit E oNType tNow (k, s0)) (map (visit E oNType tNow) pairs).
Proof. apply in_map. Qed.

(** The walk ends on an entry of the list it walks along. *)
Lemma walk_In (rest : TMap) n first p :
  walk rest n first = Ok p -> In p (first :: rest).
Proof.
  revert n first. induction rest as [|next rest IH]; intros n first; simpl.
  - destruct (n >? m_nRating (snd first)); [discriminate|].
    intros [= <-]. now left.
  - destruct (n >? m_nRating (snd first)).
    + intros H. right. exact (IH _ _ H).
    + intros [= <-]. now left.
Qed.

(** The walk stays on the list when the draw is not above the sum of the
    ratings. *)
Lemma walk_total (rest : TMap) n first :
  (forall kv, In kv (first :: rest) -> 0 <= m_nRating (snd kv)) ->
  0 < n < 65536 ->
  n <= rating_sum (first :: rest) ->
  exists p, walk rest n first = Ok p.
Proof.
  revert n first. induction rest as [|next rest IH]; intros n first Hpos Hn Hsum.
  - simpl in *. destruct (n >? m_nRating (snd first)) eqn:Hgt; [lia | eauto].
  - cbn [walk]. destruct (n >? m_nRating (snd first)) eqn:Hgt; [|eauto].
    assert (H0 : 0 <= m_nRating (snd first)) by (apply Hpos; now left).
    assert (Hq : quint16 (n - m_nRating (snd first)) = n - m_nRating (snd first)).
    { unfold quint16, wrap. apply Z.mod_small. lia. }
    rewrite Hq. apply IH.
    + intros kv Hin. apply Hpos. now right.
    + lia.
    + cbn [rating_sum fold_right] in Hsum. unfold rating_sum. cbn [fold_right]. lia.
Qed.
End SelectionFacts.

Lemma candidates_listed E oNType tNow st :
  candidates E oNType tNow st = listed E oNType (quint32 tNow) (m_mServices st).
Proof. unfold candidates. now rewrite collect_eq. Qed.

(** [nTotalRating] is the sum of the ratings of the candidates, reduced
    modulo 2^16. *)
Lemma totalRating_sum E oNType tNow st :
  totalRating E oNType tNow st = quint16 (rating_sum (candidates E oNType tNow st)).
Proof.
  rewrite candidates_listed. unfold totalRating. rewrite collect_eq. cbn [fst snd app].
  change 0 with (quint16 0) at 1. now rewrite accumulate_sum.
Qed.

(** [getRandomService] in terms of its list of candidates. *)
Lemma getRandomService_eq E oNType tNow nRand st :
  getRandomService E oNType tNow nRand st
  = let st' := set_services st (map (visit E oNType (quint32 tNow)) (m_mServices st)) in
    match candidates E oNType tNow st with
    | [] => Ok (None, st')
    | first :: rest =>
        if totalRating E oNType tNow st =? 0 then Crash DivisionByZero
        else match walk rest (quint16 (Z.rem nRand (totalRating E oNType tNow st) + 1)) first with
             | Ok pSelected => Ok (Some pSelected, st')
             | Crash f => Crash f
             end
    end.
Proof.
  unfold getRandomService, candidates, totalRating, bind, get.
  rewrite collect_eq. cbn [fst snd app].
  destruct (listed E oNType (quint32 tNow) (m_mServices st)) as [|first rest];
    [reflexivity|].
  cbn [modify ret].
  destruct (accumulate (first :: rest) 0 =? 0); [reflexivity|].
  destruct (walk rest _ first); reflexivity.
Qed.

Lemma rating_sum_nonneg (l : TMap) :
  (forall kv, In kv l -> 0 <= m_nRating (snd kv)) -> 0 <= rating_sum l.
Proof.
  induction l as [|kv l IH]; intros H; unfold rating_sum; cbn [fold_right]; [lia|].
  fold (rating_sum l). specialize (H kv (or_introl eq_refl)) as H0.
  assert (0 <= rating_sum l) by (apply IH; intros; apply H; now right). lia.
Qed.

(** Every candidate has a positive rating, when the ratings stored are not
    negative and [DISCOVERY_MAX_PROBABILITY] is a positive rating. *)
Lemma candidates_positive E oNType tNow st :
  (forall k s, In (k, s) (m_mServices st) -> 0 <= m_nRating s) ->
  0 < quint8 (DISCOVERY_MAX_PROBABILITY E) ->
  forall kv, In kv (candidates E oNType tNow st) -> 0 < m_nRating (snd kv).
Proof.
  intros Hstore Hmax [k s] Hin. rewrite candidates_listed in Hin.
  apply In_listed in Hin. destruct Hin as [s0 [Hin0 [_ Hc]]].
  apply consider_listed in Hc.
  destruct Hc as [_ [_ [_ [_ [_ [[Hr ->] | [_ [-> _]]]]]]]]; cbn [snd].
  - specialize (Hstore k s0 Hin0). lia.
  - exact Hmax.
Qed.

Lemma candidates_nonneg E oNType tNow st :
  (forall k s, In (k, s) (m_mServices st) -> 0 <= m_nRating s) ->
  forall kv, In kv (candidates E oNType tNow st) -> 0 <= m_nRating (snd kv).
Proof.
  intros Hstore [k s] Hin. rewrite candidates_listed in Hin.
  apply In_listed in Hin. destruct Hin as [s0 [Hin0 [_ Hc]]].
  apply consider_listed in Hc.
  destruct Hc as [_ [_ [_ [_ [_ [[Hr ->] | [_ [-> _]]]]]]]]; cbn [snd].
  - exact (Hstore k s0 Hin0).
  - cbn. unfold quint8, wrap. apply Z.mod_pos_bound. lia.
Qed.

(** As long as the ratings of the candidates sum up to less than 2^16,
    [nTotalRating] is that sum and is positive. *)
Lemma totalRating_below_wrap E oNType tNow st :
  (forall k s, In (k, s) (m_mServices st) -> 0 <= m_nRating s) ->
  0 < quint8 (DISCOVERY_MAX_PROBABILITY E) ->
  candidates E oNType tNow st <> [] ->
  rating_sum (candidates E oNType tNow st) < 65536 ->
  totalRating E oNType tNow st = rating_sum (candidates E oNType tNow st)
  /\ 0 < totalRating E oNType tNow st.
Proof.
  intros Hstore Hmax Hne Hsum.
  pose proof (candidates_positive E oNType tNow st Hstore Hmax) as Hpos.
  pose proof (rating_sum_nonneg _ (candidates_nonneg E oNType tNow st Hstore)) as Hge.
  assert (Htot : totalRating E oNType tNow st = rating_sum (candidates E oNType tNow st)).
  { rewrite totalRating_sum. unfold quint16, wrap. apply Z.mod_small. lia. }
  split; [exact Htot|]. rewrite Htot.
  destruct (candidates E oNType tNow st) as [|first rest] eqn:Hc; [contradiction|].
  assert (Hfirst : 0 < m_nRating (snd first)) by (apply Hpos; now left).
  assert (Hrest : 0 <= rating_sum rest).
  { apply rating_sum_nonneg. intros kv Hin.
    assert (0 < m_nRating (snd kv)) by (apply Hpos; now right). lia. }
  change (rating_sum (first :: rest)) with (m_nRating (snd first) + rating_sum rest). lia.
Qed.

(** Whenever [nTotalRating] is not 0, the draw is defined and the walk ends
    on a candidate, wrap-around or not. *)
Lemma getRandomService_defined E oNType tNow nRand st :
  (forall k s, In (k, s) (m_mServices st) -> 0 <= m_nRating s) ->
  candidates E oNType tNow st <> [] ->
  totalRating E oNType tNow st <> 0 ->
  0 <= nRand ->
  exists p st', getRandomService E oNType tNow nRand st = Ok (Some p, st')
                /\ In p (candidates E oNType tNow st).
Proof.
  intros Hstore Hne Htot Hrand.
  pose proof (candidates_nonneg E oNType tNow st Hstore) as Hnn.
  pose proof (rating_sum_nonneg _ Hnn) as Hge.
  pose proof (totalRating_sum E oNType tNow st) as Hsum.
  assert (Hbound : 0 <= totalRating E oNType tNow st < 65536).
  { rewrite Hsum. unfold quint16, wrap. apply Z.mod_pos_bound. lia. }
  assert (Hle : totalRating E oNType tNow st <= rating_sum (candidates E oNType tNow st)).
  { rewrite Hsum. unfold quint16, wrap. apply Z.mod_le; lia. }
  rewrite getRandomService_eq. cbn zeta.
  destruct (candidates E oNType tNow st) as [|first rest] eqn:Hc; [contradiction|].
  destruct (totalRating E oNType tNow st =? 0) eqn:Hz; [lia|].
  pose proof (Z.rem_bound_pos nRand (totalRating E oNType tNow st) Hrand ltac:(lia)) as Hrem.
  assert (Hq : quint16 (Z.rem nRand (totalRating E oNType tNow st) + 1)
               = Z.rem nRand (totalRating E oNType tNow st) + 1).
  { unfold quint16, wrap. apply Z.mod_small. lia. }
  rewrite Hq.
  destruct (walk_total rest (Z.rem nRand (totalRating E oNType tNow st) + 1) first Hnn)
    as [p Hp]; [lia | lia |].
  rewrite Hp. exists p. eexists. split; [reflexivity|].
  exact (walk_In _ _ _ _ Hp).
Qed.

(** The one way [getRandomService] is lost: candidates whose ratings add
    up to a multiple of 2^16. *)
Lemma getRandomService_crash E oNType tNow nRand st f :
  (forall k s, In (k, s) (m_mServices st) -> 0 <= m_nRating s) ->
  0 <= nRand ->
  getRandomService E oNType tNow nRand st = Crash f ->
  f = DivisionByZero
  /\ candidates E oNType tNow st <> []
  /\ totalRating E oNType tNow st = 0.
Proof.
  intros Hstore Hrand Hcrash.
  destruct (candidates E oNType tNow st) as [|first rest] eqn:Hc.
  - rewrite getRandomService_eq in Hcrash. cbn zeta in Hcrash. rewrite Hc in Hcrash.
    discriminate.
  - destruct (Z.eq_dec (totalRating E oNType tNow st) 0) as [Hz | Hnz].
    + rewrite getRandomService_eq in Hcrash. cbn zeta in Hcrash.
      rewrite Hc, Hz in Hcrash. cbn in Hcrash. injection Hcrash as <-.
      repeat split; [discriminate | assumption].
    + destruct (getRandomService_defined E oNType tNow nRand st Hstore) as [p [st' [H _]]];
        [rewrite Hc; discriminate | assumption | assumption | congruence].
Qed.

(** C9.  For every state of the map and every requested network type,
    [getRandomService] returns the null pointer when its list of candidates
    is empty, and a service it returns is stored in the map, is not banned,
    is not running, and either has a rating other than 0 or had rating 0
    and was revived by this very call. *)
Theorem C9_selection_returns_only_fit_services
        (E : Environment) (st : CDiscovery) (oNType : CNetworkType) (tNow nRand : Z) :
  (candidates E oNType tNow st = [] ->
   exists st', getRandomService E oNType tNow nRand st = Ok (None, st'))
  /\ (forall k s st',
        getRandomService E oNType tNow nRand st = Ok (Some (k, s), st') ->
        In (k, s) (m_mServices st')
        /\ m_bBanned s = false
        /\ m_bRunning s = false
        /\ exists s0, In (k, s0) (m_mServices st)
                      /\ m_bBanned s0 = false
                      /\ m_bRunning s0 = false
                      /\ (m_nRating s0 <> 0 /\ s = s0
                          \/ m_nRating s0 = 0 /\ s = revived E s0)).
Proof.
  rewrite getRandomService_eq. cbn zeta. split.
  - intros ->. eauto.
  - intros k s st'.
    destruct (candidates E oNType tNow st) as [|first rest] eqn:Hc; [discriminate|].
    destruct (totalRating E oNType tNow st =? 0); [discriminate|].
    destruct (walk rest _ first) as [p|f] eqn:Hw; [|discriminate].
    intros [= -> <-].
    apply walk_In in Hw. rewrite <- Hc, candidates_listed in Hw.
    apply In_listed in Hw. destruct Hw as [s0 [Hin0 [Hb0 Hcons]]].
    pose proof (consider_listed E oNType (quint32 tNow) s0 s Hcons)
      as [Hrun0 [Hrun [Hb [_ [_ Hrating]]]]].
    split.
    { cbn [m_mServices set_services].
      replace (k, s) with (visit E oNType (quint32 tNow) (k, s0)).
      - now apply in_map.
      - unfold visit. cbn [fst snd]. now rewrite Hb0, Hcons. }
    split; [congruence|]. split; [assumption|].
    exists s0. repeat split; try assumption.
    destruct Hrating as [[Hr ->] | [Hr [-> _]]]; [left | right]; now split.
Qed.

Lemma C9_selection_returns_only_fit_services_witness :
  let E := Sample.env false in
  let s2 := Sample.gwc 2 "http://b.com" 0 950 in
  let st := Sample.manager [(2, s2)] 2 in
  getRandomService E dpG2 1000 7 st = Ok (Some (2, revived E s2), Sample.manager [(2, revived E s2)] 2)
  /\ m_bBanned (revived E s2) = false
  /\ m_bRunning (revived E s2) = false
  /\ (candidates E dpG2 1000 (Sample.manager [] 0) = [] ->
      exists st', getRandomService E dpG2 1000 7 (Sample.manager [] 0) = Ok (None, st')).
Proof.
  intros E s2 st.
  assert (Hrun : getRandomService E dpG2 1000 7 st
                 = Ok (Some (2, revived E s2), Sample.manager [(2, revived E s2)] 2))
    by reflexivity.
  destruct (proj2 (C9_selection_returns_only_fit_services E st dpG2 1000 7) _ _ _ Hrun)
    as [_ [Hb [Hr _]]].
  split; [exact Hrun|]. split; [exact Hb|]. split; [exact Hr|].
  exact (proj1 (C9_selection_returns_only_fit_services E (Sample.manager [] 0) dpG2 1000 7)).
Defined.

(** C1 (failing input).  With an access throttle of 60 seconds and the
    clock at 1000, service 1 was queried at 990 and service 2 at 0; both
    have rating 5, support the requested network and are neither banned nor
    running.  The claim keeps the recently used service 1 off the list and
    lets service 2 on it; the list the code builds holds service 1 alone:
    the comparison of line 958 reads [>] where "are not recently used"
    asks for [<=]. *)
Theorem C1_recently_queried_service_is_listed :
  let E := Sample.env false in
  let s1 := Sample.gwc 1 "http://a.com" 5 990 in
  let s2 := Sample.gwc 2 "http://b.com" 5 0 in
  let st := Sample.manager [(1, s1); (2, s2)] 2 in
  AccessThrottle E = 60
  /\ ~ (m_tLastQueried s1 + AccessThrottle E <= 1000)
  /\ m_tLastQueried s2 + AccessThrottle E <= 1000
  /\ candidates E dpG2 1000 st = [(1, s1)].
Proof.
  cbv zeta. split; [reflexivity|]. split; [simpl; lia|]. split; [simpl; lia|].
  vm_compute. reflexivity.
Qed.

(** C2 (failing input).  With a revival interval of 100 seconds and the
    clock at 1000, service 1 has rating 0 and was queried at 0, so that
    [lastQueried + revivalInterval <= now]: the claim has it revived.  The
    code leaves it as it is (rating 0, no revival counted) and returns no
    service.  Service 2, of rating 0 and queried at 950, for which the
    interval has not passed, is the one the code revives: the comparison of
    line 946 reads [>] where the claim has [<=]. *)
Theorem C2_cooled_down_service_is_not_revived :
  let E := Sample.env false in
  let s1 := Sample.gwc 1 "http://a.com" 0 0 in
  let s2 := Sample.gwc 2 "http://b.com" 0 950 in
  ZeroRatingRevivalInterval E = 100
  /\ m_tLastQueried s1 + ZeroRatingRevivalInterval E <= 1000
  /\ getRandomService E dpG2 1000 7 (Sample.manager [(1, s1)] 1)
     = Ok (None, Sample.manager [(1, s1)] 1)
  /\ ~ (m_tLastQueried s2 + ZeroRatingRevivalInterval E <= 1000)
  /\ getRandomService E dpG2 1000 7 (Sample.manager [(2, s2)] 2)
     = Ok (Some (2, revived E s2), Sample.manager [(2, revived E s2)] 2)
  /\ m_nRating (revived E s2) = DISCOVERY_MAX_PROBABILITY E
  /\ m_nZeroRevivals (revived E s2) = m_nZeroRevivals s2 + 1.
Proof.
  cbv zeta. split; [reflexivity|]. split; [simpl; lia|]. split; [reflexivity|].
  split; [simpl; lia|]. split; [reflexivity|]. split; reflexivity.
Qed.

(** C10 (failing input).  13108 services, none banned or running, all of
    the requested network and all used within the throttle interval: 13107
    of rating 5 and one of rating 1.  All of them are candidates, their
    ratings sum up to 65536, the 16-bit [nTotalRating] is 0 and
    [qrand() % nTotalRating] divides by zero. *)
Theorem C10_total_rating_wraps_to_zero :
  let E := Sample.env false in
  let st := Sample.manager Overflow.fullHouse 13108 in
  List.length (candidates E dpG2 1000 st) = Z.to_nat 13108
  /\ rating_sum (candidates E dpG2 1000 st) = 65536
  /\ totalRating E dpG2 1000 st = 0
  /\ getRandomService E dpG2 1000 7 st = Crash DivisionByZero.
Proof.
  cbv zeta.
  rewrite getRandomService_eq, totalRating_sum, candidates_listed.
  vm_compute. repeat split; reflexivity.
Qed.

(** ** What the operations on the map leave alone *)

Lemma same_frame_refl st : same_frame st st.
Proof. now repeat split. Qed.

Lemma same_frame_trans st1 st2 st3 :
  same_frame st1 st2 -> same_frame st2 st3 -> same_frame st1 st3.
Proof.
  unfold same_frame. intros [? [? [? ?]]] [? [? [? ?]]]. repeat split; congruence.
Qed.

Section Frames.
Variable E : Environment.

Lemma manageDuplicates_scan_crash p (m : TMap) f :
  manageDuplicates_scan E p m = Crash f ->
  debug_build E = true /\ f = AssertionFailed.
Proof.
  induction m as [|[k e] m IH]; simpl; [discriminate|].
  destruct (String.eqb (m_oServiceURL e) (m_oServiceURL p)).
  - destruct (TServiceType_eqb (m_nServiceType p) (m_nServiceType e)); [discriminate|].
    destruct (debug_build E) eqn:Hd.
    + intros [= <-]. now split.
    + destruct (manageDuplicates_scan E p m) as [[m'|]|f'];
        [discriminate | discriminate | exact IH].
  - destruct (manageDuplicates_scan E p m) as [[m'|]|f'];
      [discriminate | discriminate | exact IH].
Qed.

(** [add( TServicePtr& )] is lost only to an assertion of a debug build:
    the search for a free identifier always ends. *)
Lemma add_ptr_crash p st f :
  add_ptr E p st = Crash f -> debug_build E = true /\ f = AssertionFailed.
Proof.
  destruct p as [p|]; [|discriminate].
  destruct (manageDuplicates_scan E p (m_mServices st)) as [[m'|]|f'] eqn:Hscan.
  - rewrite (add_ptr_duplicate E p st m' Hscan). discriminate.
  - destruct (Z.eq_dec (m_nID p) 0) as [Hz | Hnz].
    + destruct (add_ptr_unassigned E p st Hscan Hz) as [id [_ ->]]. discriminate.
    + destruct (StdMap.find (m_nID p) (m_mServices st)) as [e|] eqn:Hf.
      * pose proof (add_ptr_taken E p st e Hscan Hnz Hf) as H.
        destruct (debug_build E).
        -- rewrite H. intros [= <-]. now split.
        -- destruct H as [id [_ ->]]. discriminate.
      * rewrite (add_ptr_assigned E p st Hscan Hnz Hf). discriminate.
  - unfold add_ptr, bind, manageDuplicates. rewrite Hscan. intros [= <-].
    exact (manageDuplicates_scan_crash p _ f' Hscan).
Qed.

Lemma add_ptr_frame p st r st' :
  add_ptr E p st = Ok (r, st') -> same_frame st st'.
Proof.
  destruct p as [p|]; [|intros [= <- <-]; apply same_frame_refl].
  destruct (manageDuplicates_scan E p (m_mServices st)) as [[m'|]|f'] eqn:Hscan.
  - rewrite (add_ptr_duplicate E p st m' Hscan). intros [= <- <-]. now repeat split.
  - destruct (Z.eq_dec (m_nID p) 0) as [Hz | Hnz].
    + destruct (add_ptr_unassigned E p st Hscan Hz) as [id [_ ->]].
      intros [= <- <-]. now repeat split.
    + destruct (StdMap.find (m_nID p) (m_mServices st)) as [e|] eqn:Hf.
      * pose proof (add_ptr_taken E p st e Hscan Hnz Hf) as H.
        destruct (debug_build E).
        -- rewrite H. discriminate.
        -- destruct H as [id [_ ->]]. intros [= <- <-]. now repeat split.
      * rewrite (add_ptr_assigned E p st Hscan Hnz Hf).
        intros [= <- <-]. now repeat split.
  - unfold add_ptr, bind, manageDuplicates. rewrite Hscan. discriminate.
Qed.

Lemma load_services_crash n v bytes st f :
  load_services E n v bytes st = Crash f -> debug_build E = true /\ f = AssertionFailed.
Proof.
  revert bytes st. induction n as [|n IH]; intros bytes st; simpl; [discriminate|].
  destruct (CDiscoveryService_load E v bytes) as [[p bytes']|]; [|discriminate].
  unfold bind. destruct (add_ptr E p st) as [[r st']|f'] eqn:Hadd.
  - apply IH.
  - intros [= <-]. exact (add_ptr_crash p st f' Hadd).
Qed.

Lemma load_services_frame n v bytes st r st' :
  load_services E n v bytes st = Ok (r, st') -> same_frame st st'.
Proof.
  revert bytes st. induction n as [|n IH]; intros bytes st; simpl.
  - intros [= <- <-]. apply same_frame_refl.
  - destruct (CDiscoveryService_load E v bytes) as [[p bytes']|];
      [|intros [= <- <-]; apply same_frame_refl].
    unfold bind. destruct (add_ptr E p st) as [[r0 st0]|f'] eqn:Hadd; [|discriminate].
    intros H. apply (same_frame_trans st st0 st').
    + exact (add_ptr_frame p st r0 st0 Hadd).
    + exact (IH _ _ H).
Qed.
End Frames.

(** ** Loading *)

Section Loading.
Variable E : Environment.

(** A file that cannot be opened: [load( path )] returns before it has
    touched anything. *)
Lemma load_path_closed path st :
  QFile_openRead (disk st) path = None -> load_path E path st = Ok (false, st).
Proof. intros H. unfold load_path, bind, get. now rewrite H. Qed.

(** A file that can be opened: what was stored before plays no part. *)
Lemma load_path_open path st m0 n0 :
  QFile_openRead (disk st) path <> None ->
  load_path E path (with_store st m0 n0) = load_path E path st.
Proof.
  intros H. unfold load_path, bind, get. cbn [with_store set_lastID set_services disk].
  destruct (QFile_openRead (disk st) path) as [bytes|]; [reflexivity | contradiction].
Qed.

Lemma clear_eq st : clear false st = Ok (tt, with_store st [] 0).
Proof. reflexivity. Qed.

Lemma load_path_crash path st f :
  load_path E path st = Crash f -> debug_build E = true /\ f = AssertionFailed.
Proof.
  unfold load_path, bind, get.
  destruct (QFile_openRead (disk st) path) as [bytes|]; [|discriminate].
  rewrite clear_eq.
  destruct (read_u16 bytes) as [nVersion fsFile].
  destruct (read_u32 fsFile) as [nCount fsFile'].
  match goal with
  | |- context [load_services E ?n ?v ?b ?s] =>
      destruct (load_services E n v b s) as [[r st1]|f'] eqn:Hl
  end.
  - destruct r; discriminate.
  - intros [= <-]. exact (load_services_crash E _ _ _ _ _ Hl).
Qed.

(** What an attempt leaves behind: the frame is kept, and a failed
    attempt either could not open the file and changed nothing, or had
    opened it and leaves the map empty. *)
Lemma load_path_result path st r st1 :
  load_path E path st = Ok (r, st1) ->
  same_frame st st1
  /\ (r = false ->
      QFile_openRead (disk st) path = None /\ st1 = st
      \/ QFile_openRead (disk st) path <> None /\ m_mServices st1 = []).
Proof.
  unfold load_path, bind, get.
  destruct (QFile_openRead (disk st) path) as [bytes|] eqn:Hopen.
  - rewrite clear_eq.
    destruct (read_u16 bytes) as [nVersion fsFile].
    destruct (read_u32 fsFile) as [nCount fsFile'].
    match goal with
    | |- context [load_services E ?n ?v ?b ?s] =>
        destruct (load_services E n v b s) as [[r' st2]|f'] eqn:Hl
    end; [|discriminate].
    apply load_services_frame in Hl. destruct Hl as [H1 [H2 [H3 H4]]].
    cbn in H1, H2, H3, H4.
    destruct r'; intros [= <- <-].
    + split; [now repeat split | discriminate].
    + split; [now repeat split|]. intros _. right. split; [discriminate | reflexivity].
  - intros [= <- <-]. split; [apply same_frame_refl|]. intros _. now left.
Qed.

(** [load] in terms of its two attempts. *)
Lemma load_eq st :
  load E st
  = match load_path E (sPath E) st with
    | Ok (true, st1) =>
        postLog LogSeverity.Debug
                (String.append "Loading discovery services from file: " (sPath E)) st1
    | Ok (false, st1) =>
        match load_path E (sBackupPath E) (warned E st1) with
        | Ok (true, st2) => Ok (tt, st2)
        | Ok (false, st2) =>
            postLog LogSeverity.Error "Failed to load discovery services!" st2
        | Crash f => Crash f
        end
    | Crash f => Crash f
    end.
Proof.
  unfold load. unfold bind at 1.
  destruct (load_path E (sPath E) st) as [[[|] st1]|f]; [reflexivity | | reflexivity].
  unfold bind at 1. cbn [postLog modify]. fold (warned E st1).
  unfold bind at 1.
  destruct (load_path E (sBackupPath E) (warned E st1)) as [[[|] st2]|f]; reflexivity.
Qed.
(** An attempt returns true exactly when the file can be opened and its
    records read. *)
Lemma load_services_readable n v bytes st r st' :
  load_services E n v bytes st = Ok (r, st') -> r = readable E n v bytes.
Proof.
  revert bytes st. induction n as [|n IH]; intros bytes st; simpl.
  - now intros [= <- _].
  - destruct (CDiscoveryService_load E v bytes) as [[p bytes']|]; [|now intros [= <- _]].
    unfold bind. destruct (add_ptr E p st) as [[r0 st0]|f]; [|discriminate].
    apply IH.
Qed.

Lemma load_path_loads path st r st1 :
  load_path E path st = Ok (r, st1) -> r = loads E (disk st) path.
Proof.
  unfold load_path, loads, bind, get.
  destruct (QFile_openRead (disk st) path) as [bytes|]; [|now intros [= <- _]].
  rewrite clear_eq.
  destruct (read_u16 bytes) as [nVersion fsFile].
  destruct (read_u32 fsFile) as [nCount fsFile'].
  match goal with
  | |- context [load_services E ?n ?v ?b ?s] =>
      destruct (load_services E n v b s) as [[r' st2]|f'] eqn:Hl
  end; [|discriminate].
  apply load_services_readable in Hl. destruct r'; intros [= <- _]; exact Hl.
Qed.

(** What [add( TServicePtr& )] does to the map and to [m_nLastID] depends
    on the map and on [m_nLastID] only. *)
Lemma add_ptr_store p a b :
  m_mServices a = m_mServices b ->
  m_nLastID a = m_nLastID b ->
  match add_ptr E p a, add_ptr E p b with
  | Ok (r1, a'), Ok (r2, b') =>
      r1 = r2 /\ m_mServices a' = m_mServices b' /\ m_nLastID a' = m_nLastID b'
  | Crash f1, Crash f2 => f1 = f2
  | _, _ => False
  end.
Proof.
  intros Hm Hl. destruct p as [p|]; [|cbn; now repeat split].
  destruct (manageDuplicates_scan E p (m_mServices a)) as [[m'|]|f] eqn:Ha;
    pose proof Ha as Hb; rewrite Hm in Hb.
  - rewrite (add_ptr_duplicate E p a m' Ha), (add_ptr_duplicate E p b m' Hb).
    cbn. now repeat split.
  - destruct (Z.eq_dec (m_nID p) 0) as [Hz | Hnz].
    + destruct (add_ptr_unassigned E p a Ha Hz) as [ia [Hfa ->]].
      destruct (add_ptr_unassigned E p b Hb Hz) as [ib [Hfb ->]].
      rewrite Hm, Hl, Hfb in Hfa. injection Hfa as <-. cbn. rewrite Hm. now repeat split.
    + destruct (StdMap.find (m_nID p) (m_mServices a)) as [e|] eqn:Hfa;
        pose proof Hfa as Hfb; rewrite Hm in Hfb.
      * pose proof (add_ptr_taken E p a e Ha Hnz Hfa) as H1.
        pose proof (add_ptr_taken E p b e Hb Hnz Hfb) as H2.
        destruct (debug_build E); [now rewrite H1, H2|].
        destruct H1 as [ia [Hia ->]]. destruct H2 as [ib [Hib ->]].
        rewrite Hm, Hl, Hib in Hia. injection Hia as <-. cbn. rewrite Hm. now repeat split.
      * rewrite (add_ptr_assigned E p a Ha Hnz Hfa), (add_ptr_assigned E p b Hb Hnz Hfb).
        cbn. rewrite Hm. now repeat split.
  - unfold add_ptr, bind, manageDuplicates. now rewrite Ha, Hb.
Qed.

Lemma load_services_store n v bytes :
  forall a b,
    m_mServices a = m_mServices b ->
    m_nLastID a = m_nLastID b ->
    match load_services E n v bytes a, load_services E n v bytes b with
    | Ok (r1, a'), Ok (r2, b') =>
        r1 = r2 /\ m_mServices a' = m_mServices b' /\ m_nLastID a' = m_nLastID b'
    | Crash f1, Crash f2 => f1 = f2
    | _, _ => False
    end.
Proof.
  revert bytes. induction n as [|n IH]; intros bytes a b Hm Hl; simpl.
  - now repeat split.
  - destruct (CDiscoveryService_load E v bytes) as [[p bytes']|]; [|now repeat split].
    unfold bind. pose proof (add_ptr_store p a b Hm Hl) as H.
    destruct (add_ptr E p a) as [[r1 a']|f1], (add_ptr E p b) as [[r2 b']|f2];
      try contradiction; [|exact H].
    destruct H as [_ [Hm' Hl']]. exact (IH bytes' a' b' Hm' Hl').
Qed.

(** What an attempt on a file that can be opened leaves in the map depends
    on the file only: not on the map, the log or anything else the manager
    held before. *)
Lemma load_path_store path a b :
  disk a = disk b ->
  QFile_openRead (disk a) path <> None ->
  match load_path E path a, load_path E path b with
  | Ok (r1, a'), Ok (r2, b') =>
      r1 = r2 /\ m_mServices a' = m_mServices b' /\ m_nLastID a' = m_nLastID b'
  | Crash f1, Crash f2 => f1 = f2
  | _, _ => False
  end.
Proof.
  intros Hd Hopen. unfold load_path, bind, get. rewrite <- Hd.
  destruct (QFile_openRead (disk a) path) as [bytes|]; [|contradiction].
  rewrite !clear_eq.
  destruct (read_u16 bytes) as [nVersion fsFile].
  destruct (read_u32 fsFile) as [nCount fsFile'].
  pose proof (load_services_store (Z.to_nat nCount) nVersion fsFile'
                (with_store a [] 0) (with_store b [] 0) eq_refl eq_refl) as H.
  destruct (load_services E _ _ _ (with_store a [] 0)) as [[r1 a']|f1],
           (load_services E _ _ _ (with_store b [] 0)) as [[r2 b']|f2];
    try contradiction; [|exact H].
  destruct H as [<- [Hm Hl]]. destruct r1; cbn; now repeat split.
Qed.
End Loading.

(** C8, as stated, fails: with one service stored and neither file on the
    disk, [load] returns with that service still stored; the map is neither
    cleared first nor left empty. *)
Lemma C8_load_without_files_keeps_the_store :
  let E := Sample.env false in
  let st := Sample.manager [(1, Sample.gwc 1 "http://a.com" 5 0)] 1 in
  files (disk st) (sPath E) = None
  /\ files (disk st) (sBackupPath E) = None
  /\ exists st', load E st = Ok (tt, st')
                 /\ m_mServices st' = [(1, Sample.gwc 1 "http://a.com" 5 0)].
Proof.
  cbv zeta. split; [reflexivity|]. split; [reflexivity|].
  eexists. split; [vm_compute; reflexivity | reflexivity].
Qed.

(** C8 (amended).  [load] attempts the primary file first: when that file
    can be opened and its records read, a [load] that returns holds what
    the attempt on the primary file gives.  It turns to the backup file
    when the primary file cannot be opened or an exception is thrown while
    it is read: a [load] that returns then holds what the attempt on the
    backup file gives, if that file can be opened and read.  The map is
    cleared once a file has been opened, and not before: from then on the
    outcome does not depend on what was stored (load replaces, never
    merges).  When both attempts fail the map is empty if one of the
    files could be opened, and is left as it was if neither could.  The
    only fault of [load] is an assertion of a debug build. *)
Theorem C8_load_clears_once_a_file_is_open (E : Environment) (st : CDiscovery) :
  let primary := QFile_openRead (disk st) (sPath E) in
  let backup := QFile_openRead (disk st) (sBackupPath E) in
  (forall f, load E st = Crash f -> debug_build E = true /\ f = AssertionFailed)
  /\ (primary = None -> backup = None ->
      exists st', load E st = Ok (tt, st')
                  /\ m_mServices st' = m_mServices st
                  /\ m_nLastID st' = m_nLastID st)
  /\ (primary <> None \/ backup <> None ->
      forall m0 n0, load E (with_store st m0 n0) = load E st)
  /\ (forall st',
        load E st = Ok (tt, st') ->
        loads E (disk st) (sPath E) = true ->
        exists st1, load_path E (sPath E) st = Ok (true, st1)
                    /\ m_mServices st' = m_mServices st1
                    /\ m_nLastID st' = m_nLastID st1)
  /\ (forall st',
        load E st = Ok (tt, st') ->
        loads E (disk st) (sPath E) = false ->
        loads E (disk st) (sBackupPath E) = true ->
        exists st2, load_path E (sBackupPath E) st = Ok (true, st2)
                    /\ m_mServices st' = m_mServices st2
                    /\ m_nLastID st' = m_nLastID st2)
  /\ (forall st',
        load E st = Ok (tt, st') ->
        loads E (disk st) (sPath E) = false ->
        loads E (disk st) (sBackupPath E) = false ->
        (primary <> None \/ backup <> None -> m_mServices st' = [])
        /\ (primary = None -> backup = None -> m_mServices st' = m_mServices st))
  /\ (forall path r st1,
        load_path E path st = Ok (r, st1) -> r = loads E (disk st) path).
Proof.
  cbv zeta. repeat apply conj.
  - intros f. rewrite load_eq.
    destruct (load_path E (sPath E) st) as [[[|] st1]|f1] eqn:H1.
    + discriminate.
    + destruct (load_path E (sBackupPath E) (warned E st1)) as [[[|] st2]|f2] eqn:H2;
        [discriminate | discriminate |].
      intros [= <-]. exact (load_path_crash E _ _ _ H2).
    + intros [= <-]. exact (load_path_crash E _ _ _ H1).
  - intros Hp Hb. rewrite load_eq, (load_path_closed E _ st Hp).
    rewrite (load_path_closed E _ (warned E st) Hb).
    eexists. split; [reflexivity|]. split; reflexivity.
  - intros Hopen m0 n0. rewrite !load_eq.
    destruct (QFile_openRead (disk st) (sPath E)) as [bytes|] eqn:Hp.
    + rewrite load_path_open; [reflexivity | congruence].
    + destruct Hopen as [Hopen | Hopen]; [contradiction|].
      rewrite (load_path_closed E _ st Hp).
      rewrite (load_path_closed E _ (with_store st m0 n0) Hp).
      change (warned E (with_store st m0 n0)) with (with_store (warned E st) m0 n0).
      rewrite load_path_open; [reflexivity | exact Hopen].
  - intros st' Hload Hp. rewrite load_eq in Hload.
    destruct (load_path E (sPath E) st) as [[r st1]|f1] eqn:H1; [|discriminate].
    pose proof (load_path_loads E _ _ _ _ H1) as Hr. rewrite Hp in Hr. subst r.
    injection Hload as <-. exists st1. now repeat split.
  - intros st' Hload Hp Hb. rewrite load_eq in Hload.
    destruct (load_path E (sPath E) st) as [[r st1]|f1] eqn:H1; [|discriminate].
    pose proof (load_path_loads E _ _ _ _ H1) as Hr. rewrite Hp in Hr. subst r.
    destruct (load_path_result E _ _ _ _ H1) as [[_ [Hd1 _]] _].
    assert (Hopen : QFile_openRead (disk (warned E st1)) (sBackupPath E) <> None).
    { cbn [warned set_log disk]. rewrite Hd1. unfold loads in Hb.
      destruct (QFile_openRead (disk st) (sBackupPath E)); [discriminate | discriminate]. }
    pose proof (load_path_store E (sBackupPath E) (warned E st1) st
                  ltac:(cbn [warned set_log disk]; exact Hd1) Hopen) as Hsim.
    destruct (load_path E (sBackupPath E) (warned E st1)) as [[r2 st2]|f2] eqn:H2;
      [|discriminate].
    pose proof (load_path_loads E _ _ _ _ H2) as Hr2.
    cbn [warned set_log disk] in Hr2. rewrite Hd1, Hb in Hr2. subst r2.
    injection Hload as <-.
    destruct (load_path E (sBackupPath E) st) as [[r3 st3]|f3]; [|contradiction].
    destruct Hsim as [<- [Hm Hl]]. exists st3. now repeat split.
  - intros st' Hload Hp Hb. rewrite load_eq in Hload.
    destruct (load_path E (sPath E) st) as [[r st1]|f1] eqn:H1; [|discriminate].
    pose proof (load_path_loads E _ _ _ _ H1) as Hr. rewrite Hp in Hr. subst r.
    destruct (load_path_result E _ _ _ _ H1) as [[_ [Hd1 _]] Hf1].
    destruct (load_path E (sBackupPath E) (warned E st1)) as [[r2 st2]|f2] eqn:H2;
      [|discriminate].
    pose proof (load_path_loads E _ _ _ _ H2) as Hr2.
    cbn [warned set_log disk] in Hr2. rewrite Hd1, Hb in Hr2. subst r2.
    destruct (load_path_result E _ _ _ _ H2) as [_ Hf2].
    injection Hload as <-. cbn [postLog modify set_log m_mServices]. split.
    + intros Hopen.
      destruct (Hf2 eq_refl) as [[Hb' ->] | [_ Hempty]]; [|exact Hempty].
      cbn [warned set_log disk m_mServices] in *.
      destruct (Hf1 eq_refl) as [[Hp' ->] | [_ Hempty]]; [|exact Hempty].
      destruct Hopen; contradiction.
    + intros Hp' Hb'.
      destruct (Hf1 eq_refl) as [[_ ->] | [Hopen _]]; [|contradiction].
      destruct (Hf2 eq_refl) as [[_ ->] | [Hopen _]]; [reflexivity|].
      cbn [warned set_log disk] in Hopen. contradiction.
  - intros path r st1 H. exact (load_path_loads E _ _ _ _ H).
Qed.

Lemma C8_load_clears_once_a_file_is_open_witness :
  let E := Sample.env false in
  let good := write_u16 1 ++ write_u32 1
              ++ match Sample.save_record (Sample.gwc 7 "http://b.com" 3 70) with
                 | Some bytes => bytes | None => [] end in
  let bad := write_u16 1 ++ write_u32 1 ++ [1; 0; 0] in
  let d := put_file (put_file Sample.emptyDisk (sPath E) (Some bad))
                    (sBackupPath E) (Some good) in
  let st := set_disk (Sample.manager [(1, Sample.gwc 1 "http://a.com" 5 0)] 1) d in
  loads E (disk st) (sPath E) = false
  /\ loads E (disk st) (sBackupPath E) = true
  /\ exists st' st2,
      load E st = Ok (tt, st')
      /\ load_path E (sBackupPath E) st = Ok (true, st2)
      /\ m_mServices st' = m_mServices st2
      /\ m_nLastID st' = m_nLastID st2
      /\ m_mServices st' = [(7, Sample.gwc 7 "http://b.com" 3 70)].
Proof.
  cbv zeta. split; [vm_compute; reflexivity|]. split; [vm_compute; reflexivity|].
  eexists.
  assert (Hload : load (Sample.env false)
                    (set_disk (Sample.manager [(1, Sample.gwc 1 "http://a.com" 5 0)] 1)
                       (put_file
                          (put_file Sample.emptyDisk (sPath (Sample.env false))
                             (Some (write_u16 1 ++ write_u32 1 ++ [1; 0; 0])))
                          (sBackupPath (Sample.env false))
                          (Some (write_u16 1 ++ write_u32 1
                                 ++ match Sample.save_record
                                            (Sample.gwc 7 "http://b.com" 3 70) with
                                    | Some bytes => bytes | None => [] end))))
                  = Ok (tt, _)) by (vm_compute; reflexivity).
  destruct (proj1 (proj2 (proj2 (proj2 (proj2
              (C8_load_clears_once_a_file_is_open (Sample.env false) _)))))
              _ Hload) as [st2 [H2 [Hm Hl]]];
    [vm_compute; reflexivity | vm_compute; reflexivity |].
  exists st2. split; [exact Hload|]. split; [exact H2|]. split; [exact Hm|].
  split; [exact Hl | reflexivity].
Defined.

(** ** Saving *)

Lemma append_inj s a b : String.append s a = String.append s b -> a = b.
Proof. induction s as [|c s IH]; simpl; [auto|]. intros [= H]. auto. Qed.

Lemma append_assoc s a b :
  String.append (String.append s a) b = String.append s (String.append a b).
Proof. induction s as [|c s IH]; simpl; [reflexivity|]. now rewrite IH. Qed.

(** The three files are three different files. *)
Lemma paths_differ E :
  String.eqb (sPath E) (sTemporaryPath E) = false
  /\ String.eqb (sPath E) (sBackupPath E) = false
  /\ String.eqb (sBackupPath E) (sTemporaryPath E) = false.
Proof.
  unfold sTemporaryPath, sBackupPath, sPath. rewrite append_assoc.
  repeat split; apply String.eqb_neq; intros H; apply append_inj in H; discriminate.
Qed.

(** A forced save on a disk without primary file returns, and leaves the
    disk without primary file: the temporary file is renamed only inside
    [if ( QFile::exists( sPath ) )].  The backup file is then not written
    either. *)
Lemma save_without_primary E st :
  files (disk st) (sPath E) = None ->
  match save E true st with
  | Ok (_, st') =>
      files (disk st') (sPath E) = None
      /\ (files (disk st') (sBackupPath E) = None
          \/ files (disk st') (sBackupPath E) = files (disk st) (sBackupPath E))
  | Crash _ => False
  end.
Proof.
  intros Hnone. destruct (paths_differ E) as [H1 [H2 H3]].
  unfold save, asyncSyncSavingHelper.
  repeat (run; rewrite ?H1, ?H2, ?H3, ?String.eqb_refl; known st; try stuck st).
  all: auto.
Qed.

(** What is saved first is not loaded back: on a disk with neither file, a
    forced save returns, and after it [clear] and [load] end with an empty
    map, whatever was stored. *)
Lemma first_save_is_not_loaded_back E st :
  files (disk st) (sPath E) = None ->
  files (disk st) (sBackupPath E) = None ->
  exists b st1 st2 st3,
    save E true st = Ok (b, st1)
    /\ clear false st1 = Ok (tt, st2)
    /\ load E st2 = Ok (tt, st3)
    /\ m_mServices st3 = [].
Proof.
  intros Hp Hb. pose proof (save_without_primary E st Hp) as H.
  destruct (save E true st) as [[b st1]|f]; [|destruct H].
  destruct H as [Hp1 Hb1]. rewrite Hb in Hb1.
  assert (Hb2 : files (disk st1) (sBackupPath E) = None) by (destruct Hb1; assumption).
  exists b, st1, (with_store st1 [] 0).
  assert (Hclosed : forall path, files (disk st1) path = None ->
                                 QFile_openRead (disk (with_store st1 [] 0)) path = None).
  { intros path Hnone. unfold QFile_openRead. cbn [with_store set_lastID set_services disk].
    rewrite Hnone. now destruct (refuses (disk st1) OpOpenRead path). }
  rewrite load_eq, (load_path_closed E _ _ (Hclosed _ Hp1)).
  rewrite (load_path_closed E _ (warned E (with_store st1 [] 0)) (Hclosed _ Hb2)).
  eexists. repeat split.
Qed.

(** C5 (failing input).  One service stored, no file on the disk yet, no
    call refused.  [save( true )] writes the temporary file and returns
    true, but creates neither the primary nor the backup file; after
    [clear], [load] finds nothing to open and the map stays empty: the
    service is not read back. *)
Theorem C5_first_save_does_not_round_trip :
  let E := Sample.env false in
  let st := Sample.manager [(1, Sample.gwc 1 "http://a.com" 5 0)] 1 in
  exists st1 st2 st3,
    save E true st = Ok (true, st1)
    /\ files (disk st1) (sPath E) = None
    /\ files (disk st1) (sBackupPath E) = None
    /\ files (disk st1) (sTemporaryPath E) <> None
    /\ clear false st1 = Ok (tt, st2)
    /\ load E st2 = Ok (tt, st3)
    /\ m_mServices st3 = []
    /\ map essence (map snd (m_mServices st)) = [(1, "http://a.com", stGWC, dpG2, 5)].
Proof.
  cbv zeta. eexists. eexists. eexists.
  split; [vm_compute; reflexivity|].
  split; [reflexivity|]. split; [reflexivity|]. split; [discriminate|].
  split; [reflexivity|]. split; [vm_compute; reflexivity|].
  split; reflexivity.
Qed.

(** With a primary file in place the same store does come back. *)
Example round_trip_over_an_existing_primary_file :
  let E := Sample.env false in
  let m := [(1, Sample.gwc 1 "http://a.com" 5 0); (4, Sample.gwc 4 "http://b.com" 3 70)] in
  let st := set_disk (Sample.manager m 4)
                     (put_file Sample.emptyDisk (sPath E) (Some [])) in
  exists st1 st2 st3,
    save E true st = Ok (true, st1)
    /\ clear false st1 = Ok (tt, st2)
    /\ load E st2 = Ok (tt, st3)
    /\ m_mServices st3 = m
    /\ files (disk st1) (sBackupPath E) = files (disk st1) (sPath E).
Proof.
  cbv zeta. eexists. eexists. eexists.
  split; [vm_compute; reflexivity|].
  split; [reflexivity|]. split; [vm_compute; reflexivity|].
  split; reflexivity.
Qed.

(** ** The flag [m_bSaved] *)

Section SavedFlag.
Variable E : Environment.

Lemma add_keeps_saved sURL eSType oNType nRating st id st' :
  add E sURL eSType oNType nRating st = Ok (id, st') -> m_bSaved st' = m_bSaved st.
Proof.
  unfold add. destruct (QUrl_isValid E sURL); cbn [negb].
  - unfold bind at 1.
    destruct (add_ptr E _ st) as [[r st0]|f] eqn:Hadd; [|discriminate].
    apply add_ptr_frame in Hadd. destruct Hadd as [Hs _].
    destruct r as [[|] [p|]]; intros [= <- <-]; exact Hs.
  - intros [= <- <-]. reflexivity.
Qed.

Lemma remove_keeps_saved nID st b st' :
  remove nID st = Ok (b, st') -> m_bSaved st' = m_bSaved st.
Proof.
  unfold remove. destruct (nID =? 0); run; [intros [= <- <-]; reflexivity|].
  destruct (StdMap.find nID (m_mServices st)); run; [|intros [= <- <-]; reflexivity].
  destruct (nID - 1 <? m_nLastID st); intros [= <- <-]; reflexivity.
Qed.

Lemma clear_keeps_saved bInformGUI st st' :
  clear bInformGUI st = Ok (tt, st') -> m_bSaved st' = m_bSaved st.
Proof. destruct bInformGUI; intros [= <-]; reflexivity. Qed.

Lemma load_keeps_saved st st' :
  load E st = Ok (tt, st') -> m_bSaved st' = m_bSaved st.
Proof.
  rewrite load_eq.
  destruct (load_path E (sPath E) st) as [[[|] st1]|f] eqn:H1; [| |discriminate].
  - apply load_path_result in H1. destruct H1 as [[Hs _] _].
    intros [= <-]. exact Hs.
  - apply load_path_result in H1. destruct H1 as [[Hs1 _] _].
    destruct (load_path E (sBackupPath E) (warned E st1)) as [[[|] st2]|f] eqn:H2;
      [| |discriminate]; apply load_path_result in H2; destruct H2 as [[Hs2 _] _];
      intros [= <-]; cbn in *; congruence.
Qed.

(** No assignment of [false] to [m_bSaved] exists: what the constructor
    sets, [add], [remove], [clear] and [load] keep, and [save( false )]
    then returns true without posting the saving helper or touching the
    disk. *)
Lemma save_not_forced_after_saved st :
  m_bSaved st = true -> save E false st = Ok (true, st).
Proof. intros H. unfold save, bind, get. now rewrite H. Qed.
End SavedFlag.

(** C3 (failing input).  On a manager fresh from its constructor, [add]
    succeeds (it returns the id 1 and stores the service) and leaves
    [m_bSaved] true: the flag is not set.  [save( false )] then returns
    true, posts no saving and leaves the disk without any file, although
    nothing was ever saved. *)
Theorem C3_add_does_not_set_the_dirty_flag :
  let E := Sample.env false in
  let st := newDiscovery Sample.emptyDisk in
  exists st1,
    add E "http://a.com" stGWC dpG2 5 st = Ok (1, st1)
    /\ StdMap.keys (m_mServices st1) = [1]
    /\ m_bSaved st1 = true
    /\ save E false st1 = Ok (true, st1)
    /\ posted st1 = []
    /\ files (disk st1) (sPath E) = None
    /\ files (disk st1) (sBackupPath E) = None.
Proof.
  cbv zeta. eexists. split; [vm_compute; reflexivity|].
  repeat split.
Qed.

(** ** Loading, on concrete files *)

(** A primary file whose only record is cut short: the exception sends
    [load] to the backup file, and the map holds what the backup file
    holds. *)
Example load_falls_back_on_a_cut_record :
  let E := Sample.env false in
  let good := write_u16 1 ++ write_u32 1
              ++ match Sample.save_record (Sample.gwc 7 "http://b.com" 3 70) with
                 | Some bytes => bytes | None => [] end in
  let bad := write_u16 1 ++ write_u32 1 ++ [1; 0; 0] in
  let d := put_file (put_file Sample.emptyDisk (sPath E) (Some bad))
                    (sBackupPath E) (Some good) in
  let st := set_disk (Sample.manager [(1, Sample.gwc 1 "http://a.com" 5 0)] 1) d in
  exists st1 st',
    load_path E (sPath E) st = Ok (false, st1)
    /\ m_mServices st1 = []
    /\ load E st = Ok (tt, st')
    /\ m_mServices st' = [(7, Sample.gwc 7 "http://b.com" 3 70)].
Proof.
  cbv zeta. eexists. eexists.
  split; [vm_compute; reflexivity|]. split; [reflexivity|].
  split; [vm_compute; reflexivity | reflexivity].
Qed.

(** A primary file cut inside its header reads as a file of no services:
    the attempt succeeds with an empty map and the backup file is not
    consulted. *)
Example load_of_a_cut_header_does_not_fall_back :
  let E := Sample.env false in
  let good := write_u16 1 ++ write_u32 1
              ++ match Sample.save_record (Sample.gwc 7 "http://b.com" 3 70) with
                 | Some bytes => bytes | None => [] end in
  let d := put_file (put_file Sample.emptyDisk (sPath E) (Some [0; 1; 0]))
                    (sBackupPath E) (Some good) in
  let st := set_disk (Sample.manager [(1, Sample.gwc 1 "http://a.com" 5 0)] 1) d in
  exists st1 st',
    load_path E (sPath E) st = Ok (true, st1)
    /\ load E st = Ok (tt, st')
    /\ m_mServices st' = [].
Proof.
  cbv zeta. eexists. eexists.
  split; [vm_compute; reflexivity|].
  split; [vm_compute; reflexivity | reflexivity].
Qed.

(** ** Identifiers after removals that are not followed by an [add] *)

(** After the services 1, 2 and 3 were added and service 1 was removed,
    removing service 3, the highest, leaves [m_nLastID] at 0: the next
    [add] takes the id 1, not the id 3. *)
Example add_after_removing_the_highest_id_may_take_a_lower_one :
  let E := Sample.env false in
  let st := Sample.manager [(2, Sample.gwc 2 "http://b.com" 5 0);
                            (3, Sample.gwc 3 "http://c.com" 5 0)] 0 in
  exists st1 st2,
    remove 3 st = Ok (true, st1)
    /\ m_nLastID st1 = 0
    /\ add E "http://d.com" stGWC dpG2 5 st1 = Ok (1, st2).
Proof.
  cbv zeta. eexists. eexists. split; [reflexivity|]. split; [reflexivity|].
  vm_compute. reflexivity.
Qed.

(** ** The conditions of the list of candidates, as the code has them *)

Lemma consider_snd E oNType tNow s :
  snd (consider E oNType tNow s)
  = isNetwork (m_oNetworkType s) oNType
    && (negb (m_nRating s =? 0)
        || (quint32 (m_tLastQueried s + ZeroRatingRevivalInterval E) >? tNow))
    && (quint32 (m_tLastQueried s + AccessThrottle E) >? tNow)
    && negb (m_bRunning s).
Proof.
  unfold consider. destruct (m_nRating s =? 0); cbn [negb orb].
  - destruct (quint32 (m_tLastQueried s + ZeroRatingRevivalInterval E) >? tNow);
      cbn; [reflexivity|].
    now rewrite andb_false_r.
  - cbn. now rewrite andb_true_r.
Qed.

(** A stored service is a candidate exactly when it is not banned, is of
    the requested network, is not running, has a rating other than 0 or was
    queried less than the revival interval ago, and was queried less than
    the access throttle ago. *)
Lemma candidate_iff E oNType tNow st k :
  (exists s, In (k, s) (candidates E oNType tNow st))
  <-> exists s0, In (k, s0) (m_mServices st)
                 /\ m_bBanned s0 = false
                 /\ isNetwork (m_oNetworkType s0) oNType = true
                 /\ m_bRunning s0 = false
                 /\ (m_nRating s0 <> 0
                     \/ quint32 tNow < quint32 (m_tLastQueried s0 + ZeroRatingRevivalInterval E))
                 /\ quint32 tNow < quint32 (m_tLastQueried s0 + AccessThrottle E).
Proof.
  rewrite candidates_listed. split.
  - intros [s Hin]. apply In_listed in Hin. destruct Hin as [s0 [Hin [Hb Hc]]].
    exists s0. split; [assumption|]. split; [assumption|].
    assert (Hs : snd (consider E oNType (quint32 tNow) s0) = true) by now rewrite Hc.
    rewrite consider_snd in Hs.
    apply andb_prop in Hs. destruct Hs as [Hs Hrun].
    apply andb_prop in Hs. destruct Hs as [Hs Hthr].
    apply andb_prop in Hs. destruct Hs as [Hnet Hrat].
    apply negb_true_iff in Hrun. apply orb_prop in Hrat.
    repeat split; try assumption; [|lia].
    destruct Hrat as [Hr | Hr]; [left | right; lia].
    apply negb_true_iff, Z.eqb_neq in Hr. exact Hr.
  - intros [s0 [Hin [Hb [Hnet [Hrun [Hrat Hthr]]]]]].
    destruct (consider E oNType (quint32 tNow) s0) as [s b] eqn:Hc.
    assert (Hs : snd (consider E oNType (quint32 tNow) s0) = true).
    { rewrite consider_snd, Hnet, Hrun. cbn [andb negb].
      replace (quint32 (m_tLastQueried s0 + AccessThrottle E) >? quint32 tNow)
        with true by lia.
      rewrite !andb_true_r. destruct Hrat as [Hr | Hr].
      - apply Z.eqb_neq in Hr. now rewrite Hr.
      - replace (quint32 (m_tLastQueried s0 + ZeroRatingRevivalInterval E) >? quint32 tNow)
          with true by lia.
        apply orb_true_r. }
    rewrite Hc in Hs. cbn in Hs. subst b.
    exists s. apply In_listed. exists s0. repeat split; assumption.
Qed.

(** ** The shape of the map *)

Section Shape.
Variable E : Environment.
Import StdMapFacts.

Lemma ordered_keys {V W} (m : StdMap.t V) (m' : StdMap.t W) :
  StdMap.keys m' = StdMap.keys m -> StdMap.ordered m -> StdMap.ordered m'.
Proof.
  revert m'. induction m as [|[k v] m IH]; intros [|[k' v'] m'] Hk; simpl;
    try discriminate; [trivial|].
  injection Hk as -> Hk. intros [Hhd Htl]. split.
  - rewrite Hk. exact Hhd.
  - now apply IH.
Qed.

Lemma In_insert {V} k (v : V) m k' v' :
  In (k', v') (StdMap.insert k v m) -> (k', v') = (k, v) \/ In (k', v') m.
Proof.
  induction m as [|[k0 v0] m IH]; simpl.
  - intros [H | []]. left. now symmetry.
  - destruct (k <? k0); simpl.
    + intros [H | H]; [left; now symmetry | now right].
    + destruct (k =? k0); simpl.
      * intros [H | H]; [left; now symmetry | right; now right].
      * intros [H | H]; [right; now left|].
        destruct (IH H) as [H' | H']; [now left | right; now right].
Qed.

(** A scan that finds a duplicate rewrites one entry and nothing else. *)
Lemma manageDuplicates_scan_split p (m m' : TMap) :
  manageDuplicates_scan E p m = Ok (Some m') ->
  exists l1 k e l2,
    m = l1 ++ (k, e) :: l2
    /\ m' = l1 ++ (k, merged e (m_oNetworkType p)) :: l2.
Proof.
  revert m'. induction m as [|[k e] m IH]; intros m'; simpl; [discriminate|].
  assert (Hrec : match manageDuplicates_scan E p m with
                 | Ok (Some rest') => Ok (Some ((k, e) :: rest'))
                 | r => r
                 end = Ok (Some m') ->
                 exists l1 k0 e0 l2,
                   (k, e) :: m = l1 ++ (k0, e0) :: l2
                   /\ m' = l1 ++ (k0, merged e0 (m_oNetworkType p)) :: l2).
  { destruct (manageDuplicates_scan E p m) as [[rest'|]|f'];
      [|discriminate|discriminate].
    intros [= <-]. destruct (IH rest' eq_refl) as [l1 [k0 [e0 [l2 [H1 H2]]]]].
    exists ((k, e) :: l1), k0, e0, l2. simpl. now rewrite H1, H2. }
  destruct (String.eqb (m_oServiceURL e) (m_oServiceURL p)); [|exact Hrec].
  destruct (TServiceType_eqb (m_nServiceType p) (m_nServiceType e)).
  - intros [= <-]. now exists [], k, e, m.
  - destruct (debug_build E); [discriminate | exact Hrec].
Qed.

Lemma well_formed_new d : well_formed (newDiscovery d).
Proof.
  split; [exact I|]. split; [intros k s []|]. simpl. lia.
Qed.

Lemma well_formed_clear b st st' :
  clear b st = Ok (tt, st') -> well_formed st'.
Proof.
  destruct b; intros [= <-];
    (split; [exact I|]; split; [intros k s []|]; simpl; lia).
Qed.

Lemma well_formed_remove nID st b st' :
  well_formed st -> remove nID st = Ok (b, st') -> well_formed st'.
Proof.
  intros [Hord [Hid Hlast]]. destruct b.
  - intros Hrem. destruct (remove_success nID st st' Hrem) as [p [_ [Hf [Hm [Hl _]]]]].
    apply find_In in Hf. destruct (Hid _ _ Hf) as [_ Hpos].
    unfold well_formed. rewrite Hm, Hl. split; [now apply erase_ordered|]. split.
    + intros k s Hin. apply Hid. unfold StdMap.erase in Hin.
      now apply filter_In in Hin.
    + destruct (nID - 1 <? m_nLastID st); lia.
  - assert (Hsame : well_formed
                      (set_log st
                         (systemLog st
                          ++ [(LogSeverity.Error,
                               String.append (m_sMessage st)
                                 "Internal error: Got request to remove invalid ID: ")])))
      by (split; [exact Hord | split; [exact Hid | exact Hlast]]).
    unfold remove. destruct (nID =? 0); run; [intros [= <-]; exact Hsame|].
    destruct (StdMap.find nID (m_mServices st)); run; [|intros [= <-]; exact Hsame].
    destruct (nID - 1 <? m_nLastID st); discriminate.
Qed.

Lemma well_formed_add sURL eSType oNType nRating st id st' :
  well_formed st ->
  add E sURL eSType oNType nRating st = Ok (id, st') ->
  well_formed st'.
Proof.
  intros [Hord [Hid Hlast]]. unfold add.
  destruct (QUrl_isValid E sURL); cbn [negb];
    [|intros [= <- <-]; split; [exact Hord | split; [exact Hid | exact Hlast]]].
  unfold createService.
  set (p := mkService 0 (normalizeURL (QUrl_toString E sURL)) eSType oNType
                      (quint8 nRating) false false 0 0).
  unfold bind at 1.
  destruct (manageDuplicates_scan E p (m_mServices st)) as [[m'|]|f] eqn:Hscan.
  - rewrite (add_ptr_duplicate E p st m' Hscan). intros [= <- <-].
    destruct (manageDuplicates_scan_split p _ _ Hscan) as [l1 [k [e [l2 [Hm Hm']]]]].
    assert (Hshape : StdMap.keys m' = StdMap.keys (m_mServices st)
                     /\ forall k s, In (k, s) m' ->
                          exists s0, In (k, s0) (m_mServices st) /\ m_nID s = m_nID s0).
    { rewrite Hm, Hm'. split; [unfold StdMap.keys; now rewrite !map_app|].
      intros k' s H. apply in_app_or in H. destruct H as [H | [H | H]].
      - exists s. split; [apply in_or_app; now left | reflexivity].
      - injection H as <- <-. exists e.
        split; [apply in_or_app; right; now left | reflexivity].
      - exists s. split; [apply in_or_app; right; now right | reflexivity]. }
    destruct Hshape as [Hk Hin].
    split; [exact (ordered_keys _ _ Hk Hord)|]. split; [|exact Hlast].
    intros k' s H. cbn in H. destruct (Hin _ _ H) as [s0 [H0 H1]].
    rewrite H1. now apply Hid.
  - destruct (add_ptr_unassigned E p st Hscan eq_refl) as [id' [Hfree ->]].
    destruct (findFreeID_enough (m_mServices st) (m_nLastID st)) as [id'' [Hfree' [Hgt _]]].
    assert (id'' = id') as -> by congruence.
    intros [= <- <-]. split; [now apply insert_ordered|]. split; [|cbn; lia].
    intros k s H. cbn in H. apply In_insert in H. destruct H as [[= -> ->] | H].
    + cbn. split; [reflexivity | lia].
    + now apply Hid.
  - unfold add_ptr, bind, manageDuplicates. rewrite Hscan. discriminate.
Qed.

Lemma well_formed_getRandomService oNType tNow nRand st r st' :
  well_formed st ->
  getRandomService E oNType tNow nRand st = Ok (r, st') ->
  well_formed st'.
Proof.
  intros [Hord [Hid Hlast]]. rewrite getRandomService_eq. cbn zeta.
  assert (Hwf : well_formed
                  (set_services st (map (visit E oNType (quint32 tNow)) (m_mServices st)))).
  { split; [|split; [|exact Hlast]].
    - apply (ordered_keys (m_mServices st)); [|exact Hord].
      cbn. unfold StdMap.keys. rewrite map_map. apply map_ext. now intros [k s].
    - intros k s H. cbn in H. apply in_map_iff in H.
      destruct H as [[k0 s0] [Heq H0]]. unfold visit in Heq. cbn [fst snd] in Heq.
      injection Heq as <- <-. destruct (Hid _ _ H0) as [H1 H2]. split; [|exact H2].
      destruct (m_bBanned s0); [exact H1|].
      unfold consider.
      destruct (negb (negb (m_nRating s0 =? 0))); [|exact H1].
      destruct (quint32 (m_tLastQueried s0 + ZeroRatingRevivalInterval E) >? quint32 tNow);
        exact H1. }
  destruct (candidates E oNType tNow st) as [|first rest]; [intros [= <- <-]; exact Hwf|].
  destruct (totalRating E oNType tNow st =? 0); [discriminate|].
  destruct (walk rest _ first); [intros [= <- <-]; exact Hwf | discriminate].
Qed.
End Shape.

(** ** The round trip over an existing primary file *)

Lemma read_write_u16 v rest : read_u16 (write_u16 v ++ rest) = (quint16 v, rest).
Proof.
  unfold read_u16, write_u16. cbn [app]. f_equal.
  pose proof (Z.div_mod (quint16 v) 256). lia.
Qed.

Lemma read_write_u32 v rest : read_u32 (write_u32 v ++ rest) = (quint32 v, rest).
Proof.
  unfold read_u32, write_u32. cbn [app]. f_equal.
  set (q := quint32 v).
  assert (E2 : q / 65536 = q / 256 / 256) by (now rewrite Z.div_div by lia).
  assert (E3 : q / 16777216 = q / 256 / 256 / 256) by (now rewrite !Z.div_div by lia).
  rewrite E3, E2.
  pose proof (Z.div_mod q 256 ltac:(lia)).
  pose proof (Z.div_mod (q / 256) 256 ltac:(lia)).
  pose proof (Z.div_mod (q / 256 / 256) 256 ltac:(lia)).
  lia.
Qed.

Section RoundTrip.
Variable E : Environment.
Import StdMapFacts.

Lemma save_services_records (m : TMap) written :
  (forall k s, In (k, s) m -> CDiscoveryService_save E s <> None) ->
  save_services E m written = (written ++ records E m, true).
Proof.
  revert written. induction m as [|[k s] m IH]; intros written Hok; simpl.
  - now rewrite app_nil_r.
  - destruct (CDiscoveryService_save E s) as [bytes|] eqn:Hs.
    + rewrite IH; [now rewrite <- app_assoc|].
      intros k' s' Hin. apply (Hok k' s'). now right.
    + exfalso. apply (Hok k s); [now left | assumption].
Qed.

(** A forced save over an existing primary file, with no call refused and
    no record throwing: it returns true, the primary file holds the header
    and the records, and the map is as it was. *)
Lemma save_over_primary st :
  files (disk st) (sPath E) <> None ->
  (forall o p, refuses (disk st) o p = false) ->
  (forall k s, In (k, s) (m_mServices st) -> CDiscoveryService_save E s <> None) ->
  match save E true st with
  | Ok (b, st') =>
      b = true
      /\ m_mServices st' = m_mServices st
      /\ (forall o p, refuses (disk st') o p = false)
      /\ files (disk st') (sPath E)
         = Some (write_u16 (DISCOVERY_CODE_VERSION E)
                 ++ write_u32 (quint32 (Z.of_nat (List.length (m_mServices st))))
                 ++ records E (m_mServices st))
  | Crash _ => False
  end.
Proof.
  intros Hprimary Hfree Hok. destruct (paths_differ E) as [H1 [H2 H3]].
  assert (H1' : String.eqb (sTemporaryPath E) (sPath E) = false)
    by now rewrite String.eqb_sym.
  assert (H2' : String.eqb (sBackupPath E) (sPath E) = false)
    by now rewrite String.eqb_sym.
  assert (H3' : String.eqb (sTemporaryPath E) (sBackupPath E) = false)
    by now rewrite String.eqb_sym.
  destruct (files (disk st) (sPath E)) as [old|] eqn:Hold; [clear Hprimary | contradiction].
  unfold save, asyncSyncSavingHelper.
  repeat (run;
          rewrite ?H1, ?H2, ?H3, ?H1', ?H2', ?H3', ?String.eqb_refl, ?Hfree,
            ?(save_services_records _ _ Hok);
          known st; try stuck st).
  all: cbn [negb]; run;
    rewrite ?H1, ?H2, ?H3, ?H1', ?H2', ?H3', ?String.eqb_refl, ?Hfree;
    repeat split; try (intros; apply Hfree); now rewrite <- app_assoc.
Qed.
End RoundTrip.

Section ReadingBack.
Variable E : Environment.
Import StdMapFacts.

Lemma ordered_app_lt {V} (l1 : StdMap.t V) k v l2 :
  StdMap.ordered (l1 ++ (k, v) :: l2) ->
  forall k', In k' (StdMap.keys l1) -> k' < k.
Proof.
  induction l1 as [|[k0 v0] l1 IH]; simpl; [intros _ k' []|].
  intros [Hhd Htl] k' [<- | Hin].
  - apply Hhd. unfold StdMap.keys. rewrite map_app. apply in_or_app. right. now left.
  - now apply IH.
Qed.

Lemma find_above {V} (m : StdMap.t V) k :
  (forall k', In k' (StdMap.keys m) -> k' < k) -> StdMap.find k m = None.
Proof.
  induction m as [|[k0 v0] m IH]; simpl; [reflexivity|]. intros Hlt.
  assert (k0 < k) by (apply Hlt; now left).
  replace (k0 =? k) with false by lia. apply IH. intros k' Hin. apply Hlt. now right.
Qed.

Lemma insert_above {V} (m : StdMap.t V) k v :
  (forall k', In k' (StdMap.keys m) -> k' < k) -> StdMap.insert k v m = m ++ [(k, v)].
Proof.
  induction m as [|[k0 v0] m IH]; simpl; [reflexivity|]. intros Hlt.
  assert (k0 < k) by (apply Hlt; now left).
  replace (k <? k0) with false by lia. replace (k =? k0) with false by lia.
  rewrite IH; [reflexivity|]. intros k' Hin. apply Hlt. now right.
Qed.

Lemma manageDuplicates_scan_compatible p (m : TMap) :
  (forall k e, In (k, e) m -> compatible E e p) ->
  manageDuplicates_scan E p m = Ok None.
Proof.
  induction m as [|[k e] m IH]; intros Hall; simpl; [reflexivity|].
  rewrite IH by (intros k' e' Hin; apply (Hall k' e'); now right).
  destruct (String.eqb (m_oServiceURL e) (m_oServiceURL p)) eqn:Hu; [|reflexivity].
  apply String.eqb_eq in Hu.
  destruct (Hall k e (or_introl eq_refl)) as [Hne | [Hrel Hty]]; [contradiction|].
  destruct (TServiceType_eqb (m_nServiceType p) (m_nServiceType e)) eqn:Ht.
  - apply TServiceType_eqb_eq in Ht. congruence.
  - now rewrite Hrel.
Qed.

Lemma essence_fields s s' :
  essence s' = essence s ->
  m_nID s' = m_nID s
  /\ m_oServiceURL s' = m_oServiceURL s
  /\ m_nServiceType s' = m_nServiceType s.
Proof. unfold essence. intros [= H1 H2 H3 _ _]. now repeat split. Qed.

Lemma equivalent_keys m m' : equivalent m m' -> StdMap.keys m = StdMap.keys m'.
Proof.
  induction 1 as [|a b m m' [Hk _] _ IH]; [reflexivity|].
  unfold StdMap.keys in *. simpl. now rewrite Hk, IH.
Qed.

Lemma equivalent_In m m' k e' :
  equivalent m m' -> In (k, e') m ->
  exists e, In (k, e) m' /\ essence e' = essence e.
Proof.
  induction 1 as [|a b m m' [Hk He] _ IH]; [intros []|].
  intros [Ha | Hin].
  - subst a. cbn [fst snd] in Hk, He. exists (snd b). split; [|exact He].
    left. destruct b. cbn in *. now subst.
  - destruct (IH Hin) as [e [H1 H2]]. exists e. split; [now right | exact H2].
Qed.

(** Reading the records back: each record yields a service that is no
    duplicate of those read before it and whose id is free, so that it is
    appended to the map under its id. *)
Lemma load_services_records rest :
  forall (todo done loaded : TMap) st,
    (forall k s, In (k, s) todo -> faithful_format E s /\ m_nID s = k /\ k <> 0) ->
    StdMap.ordered (done ++ todo) ->
    (forall k1 s1 k2 s2, In (k1, s1) (done ++ todo) -> In (k2, s2) (done ++ todo) ->
                         k1 <> k2 -> compatible E s1 s2) ->
    m_mServices st = loaded ->
    equivalent loaded done ->
    exists st',
      load_services E (List.length todo) (quint16 (DISCOVERY_CODE_VERSION E))
                    (records E todo ++ rest) st = Ok (true, st')
      /\ equivalent (m_mServices st') (done ++ todo).
Proof.
  induction todo as [|[k s] todo IH]; intros done loaded st Hfmt Hord Hcomp Hst Heq.
  - exists st. split; [reflexivity|]. rewrite app_nil_r, Hst. exact Heq.
  - destruct (Hfmt k s (or_introl eq_refl)) as [[bytes [Hsave Hload]] [Hid Hnz]].
    cbn [records List.length load_services]. rewrite Hsave, <- app_assoc.
    destruct (Hload (records E todo ++ rest)) as [s' [-> Hess]].
    destruct (essence_fields _ _ Hess) as [Hid' [Hurl' Hty']].
    pose proof (ordered_app_lt done k s todo Hord) as Hlt.
    rewrite <- (equivalent_keys _ _ Heq) in Hlt.
    assert (Hscan : manageDuplicates_scan E s' (m_mServices st) = Ok None).
    { apply manageDuplicates_scan_compatible. rewrite Hst. intros k0 e' Hin.
      destruct (equivalent_In _ _ _ _ Heq Hin) as [e [Hin0 He]].
      destruct (essence_fields _ _ He) as [_ [Hu Ht]].
      assert (Hk0 : k0 < k).
      { apply Hlt. unfold StdMap.keys. apply in_map_iff. now exists (k0, e'). }
      destruct (Hcomp k0 e k s) as [Hc | [Hrel Hc]].
      - apply in_or_app. now left.
      - apply in_or_app. right. now left.
      - lia.
      - left. congruence.
      - right. split; [exact Hrel | congruence]. }
    assert (Hfree : StdMap.find (m_nID s') (m_mServices st) = None).
    { rewrite Hst, Hid', Hid. now apply find_above. }
    unfold bind.
    rewrite (add_ptr_assigned E s' st Hscan ltac:(congruence) Hfree).
    rewrite Hst, Hid', Hid, (insert_above loaded k s' Hlt).
    destruct (IH (done ++ [(k, s)]) (loaded ++ [(k, s')])
                 (set_services st (loaded ++ [(k, s')]))) as [st' [Hl He]].
    + intros k0 s0 Hin. apply Hfmt. now right.
    + now rewrite <- app_assoc.
    + rewrite <- app_assoc. exact Hcomp.
    + reflexivity.
    + apply Forall2_app; [exact Heq|]. constructor; [|constructor].
      cbn. split; [reflexivity | exact Hess].
    + exists st'. split; [exact Hl|]. now rewrite <- app_assoc in He.
Qed.

(** The round trip of the spec, where it holds: over an existing primary
    file, with no file operation refused, for a well-formed map of fewer
    than 2^32 services that [manageDuplicates] lets live side by side and a
    record format that is faithful to them. *)
Theorem round_trip_over_primary st :
  files (disk st) (sPath E) <> None ->
  (forall o p, refuses (disk st) o p = false) ->
  well_formed st ->
  Z.of_nat (List.length (m_mServices st)) < 2 ^ 32 ->
  (forall k s, In (k, s) (m_mServices st) -> faithful_format E s) ->
  (forall k1 s1 k2 s2, In (k1, s1) (m_mServices st) -> In (k2, s2) (m_mServices st) ->
                       k1 <> k2 -> compatible E s1 s2) ->
  exists st1 st2 st3,
    save E true st = Ok (true, st1)
    /\ clear false st1 = Ok (tt, st2)
    /\ load E st2 = Ok (tt, st3)
    /\ equivalent (m_mServices st3) (m_mServices st).
Proof.
  intros Hprimary Hfree [Hord [Hids _]] Hlen Hfmt Hcomp.
  assert (Hok : forall k s, In (k, s) (m_mServices st) ->
                            CDiscoveryService_save E s <> None).
  { intros k s Hin Hnone. destruct (Hfmt k s Hin) as [bytes [Hs _]]. congruence. }
  pose proof (save_over_primary E st Hprimary Hfree Hok) as Hsave.
  destruct (save E true st) as [[b st1]|f]; [|destruct Hsave].
  destruct Hsave as [-> [Hm [Hfree1 Hfile]]].
  exists st1, (with_store st1 [] 0).
  assert (Hopen : QFile_openRead (disk (with_store st1 [] 0)) (sPath E)
                  = Some (write_u16 (DISCOVERY_CODE_VERSION E)
                          ++ write_u32 (quint32 (Z.of_nat (List.length (m_mServices st))))
                          ++ records E (m_mServices st))).
  { unfold QFile_openRead. cbn [with_store set_lastID set_services disk].
    now rewrite Hfree1, Hfile. }
  destruct (load_services_records [] (m_mServices st) [] []
              (with_store (with_store st1 [] 0) [] 0)) as [st3 [Hload Hequiv]].
  - intros k s Hin. split; [exact (Hfmt k s Hin)|].
    destruct (Hids k s Hin) as [H1 H2]. split; [exact H1 | lia].
  - exact Hord.
  - exact Hcomp.
  - reflexivity.
  - constructor.
  - rewrite app_nil_r in Hload.
    exists (set_log st3
              (systemLog st3
               ++ [(LogSeverity.Debug,
                    String.append (m_sMessage st3)
                      (String.append "Loading discovery services from file: " (sPath E)))])).
    split; [reflexivity|]. split; [reflexivity|]. split; [|exact Hequiv].
    rewrite load_eq. unfold load_path, bind, get. rewrite Hopen, clear_eq.
    rewrite read_write_u16, read_write_u32.
    assert (Hn : Z.to_nat (quint32 (quint32 (Z.of_nat (List.length (m_mServices st)))))
                 = List.length (m_mServices st)).
    { assert (Hlen' : Z.of_nat (List.length (m_mServices st)) < 4294967296) by exact Hlen.
      unfold quint32, wrap. change (2 ^ 32) with 4294967296.
      rewrite Z.mod_mod by lia. rewrite Z.mod_small by lia. apply Nat2Z.id. }
    rewrite Hn, Hload. reflexivity.
Qed.
End ReadingBack.

(** The sample record format is faithful to the services of the examples,
    and the round trip theorem applies to them. *)
Example round_trip_over_primary_applies :
  let E := Sample.env true in
  let m := [(1, Sample.gwc 1 "http://a.com" 5 0); (4, Sample.gwc 4 "http://b.com" 3 70)] in
  let st := set_disk (Sample.manager m 4)
                     (put_file Sample.emptyDisk (sPath E) (Some [])) in
  exists st1 st2 st3,
    save E true st = Ok (true, st1)
    /\ clear false st1 = Ok (tt, st2)
    /\ load E st2 = Ok (tt, st3)
    /\ equivalent (m_mServices st3) m.
Proof.
  intros E m st. apply (round_trip_over_primary E st).
  - discriminate.
  - reflexivity.
  - split; [|split].
    + cbn. split; [intros k' [<- | []]; lia | split; [intros k' [] | exact I]].
    + intros k s [[= <- <-] | [[= <- <-] | []]]; cbn; split; (reflexivity || lia).
    + cbn. lia.
  - cbn. lia.
  - intros k s [[= <- <-] | [[= <- <-] | []]]; eexists; (split; [reflexivity|]);
      intros rest; eexists; split; reflexivity.
  - intros k1 s1 k2 s2 [[= <- <-] | [[= <- <-] | []]] [[= <- <-] | [[= <- <-] | []]] Hne;
      try contradiction; left; discriminate.
Qed.

(** ** Debug builds store no URL under two types *)

Section DebugBuild.
Variable E : Environment.
Hypothesis Hdebug : debug_build E = true.

Lemma manageDuplicates_scan_none_debug p (m : TMap) :
  manageDuplicates_scan E p m = Ok None ->
  forall k e, In (k, e) m -> m_oServiceURL e <> m_oServiceURL p.
Proof.
  induction m as [|[k0 e0] m IH]; simpl; [intros _ k e []|].
  destruct (String.eqb (m_oServiceURL e0) (m_oServiceURL p)) eqn:Hu.
  - destruct (TServiceType_eqb (m_nServiceType p) (m_nServiceType e0)); [discriminate|].
    rewrite Hdebug. discriminate.
  - destruct (manageDuplicates_scan E p m) as [[rest'|]|f]; try discriminate.
    intros _ k e [Heq | Hin].
    + injection Heq as <- <-. now apply String.eqb_neq.
    + now apply (IH eq_refl k e).
Qed.

(** Whatever a debug build stores through [add( TServicePtr& )] leaves no
    URL with two types in the map. *)
Lemma add_ptr_type_consistent p st r st' :
  type_consistent (m_mServices st) ->
  add_ptr E p st = Ok (r, st') ->
  type_consistent (m_mServices st').
Proof.
  intros Hcons. destruct p as [p|]; [|intros [= <- <-]; exact Hcons].
  destruct (manageDuplicates_scan E p (m_mServices st)) as [[m'|]|f] eqn:Hscan.
  - rewrite (add_ptr_duplicate E p st m' Hscan). intros [= <- <-]. cbn.
    destruct (manageDuplicates_scan_split E p _ _ Hscan) as [l1 [k [e [l2 [Hm ->]]]]].
    assert (Hback : forall k' e', In (k', e') (l1 ++ (k, merged e (m_oNetworkType p)) :: l2) ->
                      exists e0, In (k', e0) (m_mServices st)
                                 /\ m_oServiceURL e' = m_oServiceURL e0
                                 /\ m_nServiceType e' = m_nServiceType e0).
    { rewrite Hm. intros k' e' H. apply in_app_or in H. destruct H as [H | [H | H]].
      - exists e'. split; [apply in_or_app; now left | now split].
      - injection H as <- <-. exists e.
        split; [apply in_or_app; right; now left | now split].
      - exists e'. split; [apply in_or_app; right; now right | now split]. }
    intros k1 e1 k2 e2 H1 H2 Hu.
    destruct (Hback _ _ H1) as [a [Ha [Hua Hta]]].
    destruct (Hback _ _ H2) as [b [Hb [Hub Htb]]].
    rewrite Hta, Htb. apply (Hcons k1 a k2 b Ha Hb). congruence.
  - pose proof (manageDuplicates_scan_none_debug p _ Hscan) as Hfresh.
    assert (Hins : forall id st0,
               m_mServices st0 = StdMap.insert id (with_id p id) (m_mServices st) ->
               type_consistent (m_mServices st0)).
    { intros id st0 ->. intros k1 e1 k2 e2 H1 H2 Hu.
      apply In_insert in H1. apply In_insert in H2.
      destruct H1 as [[= -> ->] | H1]; destruct H2 as [[= -> ->] | H2].
      - reflexivity.
      - exfalso. apply (Hfresh _ _ H2). now rewrite <- Hu.
      - exfalso. now apply (Hfresh _ _ H1).
      - exact (Hcons _ _ _ _ H1 H2 Hu). }
    destruct (Z.eq_dec (m_nID p) 0) as [Hz | Hnz].
    + destruct (add_ptr_unassigned E p st Hscan Hz) as [id [_ ->]].
      intros [= <- <-]. now apply (Hins id).
    + destruct (StdMap.find (m_nID p) (m_mServices st)) as [e|] eqn:Hf.
      * pose proof (add_ptr_taken E p st e Hscan Hnz Hf) as H. rewrite Hdebug in H.
        rewrite H. discriminate.
      * rewrite (add_ptr_assigned E p st Hscan Hnz Hf). intros [= <- <-].
        apply (Hins (m_nID p)). cbn. now rewrite with_id_same.
  - unfold add_ptr, bind, manageDuplicates. rewrite Hscan. discriminate.
Qed.
End DebugBuild.

(** In a map without a URL under two types, the stored services with the
    URL of a duplicate all have its type: the premise under which a debug
    build gets through [manageDuplicates] on a duplicate. *)
Lemma type_consistent_duplicate (m : TMap) url eSType :
  type_consistent m ->
  (exists k e, In (k, e) m /\ m_oServiceURL e = url /\ m_nServiceType e = eSType) ->
  forall k e, In (k, e) m -> m_oServiceURL e = url -> m_nServiceType e = eSType.
Proof.
  intros Hcons [k0 [e0 [Hin0 [Hu0 Ht0]]]] k e Hin Hu.
  rewrite <- Ht0. apply (Hcons k e k0 e0 Hin Hin0). congruence.
Qed.

(** * Further properties *)

(** ** Counting *)

Lemma count_working_filter oType (m : TMap) n :
  count_working oType m (quint16 n)
  = quint16 (n + Z.of_nat (List.length (filter (working oType) m))).
Proof.
  revert n. induction m as [|[k s] m IH]; intros n; cbn [count_working filter].
  - cbn. now rewrite Z.add_0_r.
  - unfold working at 1. cbn [snd].
    destruct (isNetwork (m_oNetworkType s) oType && negb (m_bBanned s)
              && negb (m_nRating s =? 0)).
    + rewrite IH. cbn [List.length]. rewrite Nat2Z.inj_succ.
      unfold quint16, wrap. rewrite <- Z.add_assoc, Zplus_mod_idemp_l.
      f_equal. lia.
    + apply IH.
Qed.

(** X1.  [count] leaves the manager as it is.  For the null network type it
    returns the number of stored services, whatever their state; for any
    other type it returns the number of stored services of that network
    that are not banned and have a rating other than 0, counted modulo 2^16
    (the counter is a [quint16]); running services are counted. *)
Theorem count_is_the_number_of_working_services_modulo_65536
        (oType : CNetworkType) (st : CDiscovery) :
  count oType st
  = Ok (if isNull oType
        then quint32 (Z.of_nat (List.length (m_mServices st)))
        else quint16 (Z.of_nat (List.length (filter (working oType) (m_mServices st)))),
        st).
Proof.
  unfold count, bind, get, ret. destruct (isNull oType); [reflexivity|].
  change 0 with (quint16 0) at 1. now rewrite count_working_filter.
Qed.

(** ** Identifiers handed out by [add] *)

Lemma findFreeID_least fuel (m : TMap) nLastID id :
  findFreeID fuel m nLastID = Some id ->
  nLastID < id
  /\ StdMap.find id m = None
  /\ forall j, nLastID < j < id -> StdMap.find j m <> None.
Proof.
  revert nLastID. induction fuel as [|fuel IH]; intros nLastID; simpl; [discriminate|].
  destruct (StdMap.find (nLastID + 1) m) eqn:Hf.
  - intros H. destruct (IH _ H) as [H1 [H2 H3]]. split; [lia|]. split; [exact H2|].
    intros j Hj. destruct (Z.eq_dec j (nLastID + 1)) as [-> | Hne].
    + rewrite Hf. discriminate.
    + apply H3. lia.
  - intros [= <-]. split; [lia|]. split; [exact Hf|]. intros j Hj. lia.
Qed.

(** What a call of [add] that returns has done: either it returned 0 and
    created no entry, or it stored a new service under the identifier the
    search found. *)
Lemma add_outcome E sURL eSType oNType nRating st id st' :
  add E sURL eSType oNType nRating st = Ok (id, st') ->
  (id = 0
   /\ StdMap.keys (m_mServices st') = StdMap.keys (m_mServices st)
   /\ m_nLastID st' = m_nLastID st
   /\ emitted st' = emitted st
   /\ (QUrl_isValid E sURL = false -> m_mServices st' = m_mServices st))
  \/ (QUrl_isValid E sURL = true
      /\ findFreeID (S (List.length (m_mServices st))) (m_mServices st) (m_nLastID st)
         = Some id
      /\ exists p,
          p = mkService id (normalizeURL (QUrl_toString E sURL)) eSType oNType
                        (quint8 nRating) false false 0 0
          /\ m_mServices st' = StdMap.insert id p (m_mServices st)
          /\ m_nLastID st' = id
          /\ emitted st' = emitted st ++ [serviceAdded p]).
Proof.
  unfold add. destruct (QUrl_isValid E sURL) eqn:Hvalid; cbn [negb].
  - unfold createService.
    set (p := mkService 0 (normalizeURL (QUrl_toString E sURL)) eSType oNType
                        (quint8 nRating) false false 0 0).
    unfold bind at 1.
    destruct (manageDuplicates_scan E p (m_mServices st)) as [[m'|]|f] eqn:Hscan.
    + rewrite (add_ptr_duplicate E p st m' Hscan). intros [= <- <-]. left.
      destruct (manageDuplicates_scan_split E p _ _ Hscan) as [l1 [k [e [l2 [Hm Hm']]]]].
      cbn. repeat split; [|discriminate].
      rewrite Hm, Hm'. unfold StdMap.keys. now rewrite !map_app.
    + destruct (add_ptr_unassigned E p st Hscan eq_refl) as [id' [Hfree ->]].
      intros [= <- <-]. right. split; [reflexivity|]. split; [exact Hfree|].
      eexists. split; [reflexivity|]. cbn. repeat split.
    + unfold add_ptr, bind, manageDuplicates. rewrite Hscan. discriminate.
  - intros [= <- <-]. left. cbn. repeat split.
Qed.

Lemma erase_absent {V} k (m : StdMap.t V) :
  StdMap.find k m = None -> StdMap.erase k m = m.
Proof.
  unfold StdMap.erase. induction m as [|[k0 v0] m IH]; simpl; [reflexivity|].
  destruct (k0 =? k); [discriminate|]. intros H. simpl. now rewrite IH.
Qed.

Lemma erase_insert {V} k (v : V) (m : StdMap.t V) :
  StdMap.find k m = None -> StdMap.erase k (StdMap.insert k v m) = m.
Proof.
  induction m as [|[k0 v0] m IH]; simpl.
  - intros _. unfold StdMap.erase. simpl. now rewrite Z.eqb_refl.
  - destruct (k0 =? k) eqn:Hk; [discriminate|]. intros Hf.
    destruct (k <? k0).
    + unfold StdMap.erase. cbn [filter fst]. rewrite Z.eqb_refl, Hk. cbn [negb].
      f_equal. now apply erase_absent.
    + rewrite Z.eqb_sym, Hk. unfold StdMap.erase. cbn [filter fst]. rewrite Hk.
      cbn [negb]. f_equal. now apply IH.
Qed.

(** The search stays within the ids it was given fuel for. *)
Lemma findFreeID_bound fuel (m : TMap) nLastID id :
  findFreeID fuel m nLastID = Some id -> id <= nLastID + Z.of_nat fuel.
Proof.
  revert nLastID. induction fuel as [|fuel IH]; intros nLastID; simpl; [discriminate|].
  destruct (StdMap.find (nLastID + 1) m).
  - intros H. specialize (IH _ H). lia.
  - intros [= <-]. lia.
Qed.

(** X2.  [add] on a manager whose ids have room: [m_nLastID] plus the
    number of stored services plus 1 is within the range of a [TServiceID]
    of [bits] bits, so that the search for a free id ends below the top of
    the range and no [++m_nLastID] wraps.  A call that returns 0 has then
    created and removed no entry, has left [m_nLastID] alone (and has
    changed nothing in the map if the URL was invalid).  A call that
    returns another id has stored the new service, with the normalized
    URL, under that id: the id is above the previous [m_nLastID], was not
    in use, every id between the previous [m_nLastID] and it is in use,
    all other entries are as before, [m_nLastID] is the new id and
    [serviceAdded] was emitted for the new service.  ([m_nLastID] is
    unsigned in the code: it is not negative.) *)
Theorem add_stores_under_the_least_free_id_above_lastID
        (E : Environment) (bits : Z) (sURL : string) (eSType : TServiceType)
        (oNType : CNetworkType) (nRating : Z) (st st' : CDiscovery) (id : Z) :
  0 <= m_nLastID st ->
  m_nLastID st + Z.of_nat (List.length (m_mServices st)) + 1 < 2 ^ bits ->
  add E sURL eSType oNType nRating st = Ok (id, st') ->
  (id = 0 ->
   StdMap.keys (m_mServices st') = StdMap.keys (m_mServices st)
   /\ m_nLastID st' = m_nLastID st
   /\ (QUrl_isValid E sURL = false -> m_mServices st' = m_mServices st))
  /\ (id <> 0 ->
      m_nLastID st < id < 2 ^ bits
      /\ (forall j, m_nLastID st <= j < id -> wrap bits (j + 1) = j + 1)
      /\ StdMap.find id (m_mServices st) = None
      /\ (forall j, m_nLastID st < j < id -> StdMap.find j (m_mServices st) <> None)
      /\ (forall k, k <> id ->
                    StdMap.find k (m_mServices st') = StdMap.find k (m_mServices st))
      /\ m_nLastID st' = id
      /\ exists p,
          StdMap.find id (m_mServices st') = Some p
          /\ m_nID p = id
          /\ m_oServiceURL p = normalizeURL (QUrl_toString E sURL)
          /\ m_nServiceType p = eSType
          /\ emitted st' = emitted st ++ [serviceAdded p]).
Proof.
  intros Hlast Hroom Hadd. destruct (add_outcome _ _ _ _ _ _ _ _ Hadd)
    as [[Hz [Hk [Hl [_ Hinv]]]] | [Hvalid [Hfree [p [Hp [Hm [Hl He]]]]]]].
  - split; [intros _; repeat split; assumption | intros Hnz; contradiction].
  - destruct (findFreeID_least _ _ _ _ Hfree) as [Hgt [Hnone Hleast]].
    pose proof (findFreeID_bound _ _ _ _ Hfree) as Hbound.
    rewrite Nat2Z.inj_succ in Hbound.
    split; [intros ->; lia|].
    intros Hnz. split; [lia|].
    split; [intros j Hj; unfold wrap; apply Z.mod_small; lia|].
    split; [exact Hnone|]. split; [exact Hleast|].
    split; [intros k Hk; rewrite Hm; apply StdMapFacts.find_insert_neq; congruence|].
    split; [exact Hl|].
    exists p. split; [rewrite Hm; apply StdMapFacts.find_insert_eq|].
    subst p. cbn. repeat split. exact He.
Qed.

Lemma add_stores_under_the_least_free_id_above_lastID_witness :
  let E := Sample.env false in
  let st := Sample.manager [(1, Sample.gwc 1 "http://a.com" 5 0);
                            (3, Sample.gwc 3 "http://c.com" 5 0)] 1 in
  0 <= m_nLastID st
  /\ m_nLastID st + Z.of_nat (List.length (m_mServices st)) + 1 < 2 ^ 32
  /\ exists st', add E "http://B.com" stGWC dpG2 5 st = Ok (2, st')
                 /\ StdMap.find 2 (m_mServices st) = None
                 /\ m_nLastID st' = 2
                 /\ StdMap.find 3 (m_mServices st') = StdMap.find 3 (m_mServices st).
Proof.
  intros E st. split; [cbn; lia|]. split; [reflexivity|].
  assert (exists st', add E "http://B.com" stGWC dpG2 5 st = Ok (2, st')) as [st' Hadd]
    by (subst E st; eexists; vm_compute; reflexivity).
  exists st'. split; [exact Hadd|].
  destruct (add_stores_under_the_least_free_id_above_lastID
              E 32 _ _ _ _ st st' 2 ltac:(cbn; lia) ltac:(reflexivity) Hadd) as [_ H].
  destruct (H ltac:(lia)) as [_ [_ [Hfree [_ [Hothers [Hlast _]]]]]].
  split; [exact Hfree|]. split; [exact Hlast|]. apply Hothers. lia.
Defined.

(** ** Removal *)

Lemma remove_found nID st p :
  nID <> 0 ->
  StdMap.find nID (m_mServices st) = Some p ->
  exists st',
    remove nID st = Ok (true, st')
    /\ m_mServices st' = StdMap.erase nID (m_mServices st)
    /\ m_nLastID st' = Z.min (nID - 1) (m_nLastID st)
    /\ emitted st' = emitted st ++ [serviceRemoved nID]
    /\ same_frame st st'.
Proof.
  intros Hnz Hf. unfold remove. apply Z.eqb_neq in Hnz. rewrite Hnz. run. rewrite Hf. run.
  destruct (nID - 1 <? m_nLastID st) eqn:Hlt; eexists; (split; [reflexivity|]); cbn;
    repeat split; lia.
Qed.

Lemma remove_missing nID st :
  nID = 0 \/ StdMap.find nID (m_mServices st) = None ->
  exists st',
    remove nID st = Ok (false, st')
    /\ m_mServices st' = m_mServices st
    /\ m_nLastID st' = m_nLastID st
    /\ emitted st' = emitted st
    /\ errors (systemLog st') <> errors (systemLog st).
Proof.
  assert (Hlog : forall l (e : LogSeverity.t * string),
             fst e = LogSeverity.Error -> errors (l ++ [e]) <> errors l).
  { intros l e He H. unfold errors in H. rewrite filter_app in H. cbn in H.
    rewrite He in H. cbn in H.
    apply (f_equal (@List.length _)) in H. rewrite length_app in H. cbn in H. lia. }
  intros H. unfold remove. destruct (nID =? 0) eqn:Hz; run.
  - eexists. split; [reflexivity|]. cbn. repeat split. now apply Hlog.
  - destruct H as [-> | H]; [discriminate|]. rewrite H. run.
    eexists. split; [reflexivity|]. cbn. repeat split. now apply Hlog.
Qed.

Lemma keys_erase {V} k (m : StdMap.t V) :
  StdMap.keys (StdMap.erase k m) = filter (fun k' => negb (k' =? k)) (StdMap.keys m).
Proof.
  unfold StdMap.erase, StdMap.keys.
  induction m as [|[k0 v0] m IH]; cbn; [reflexivity|].
  destruct (k0 =? k); cbn; now rewrite IH.
Qed.

(** X3.  [remove] always returns.  It returns true exactly when the id is
    not 0 and is stored; then exactly that entry is erased, every other
    entry stays, [serviceRemoved( id )] is emitted once and [m_nLastID]
    becomes the smaller of [id - 1] and its previous value.  Otherwise it
    returns false, logs an error and leaves the map, [m_nLastID] and the
    signals as they were. *)
Theorem remove_erases_exactly_the_given_id (nID : Z) (st : CDiscovery) :
  exists b st',
    remove nID st = Ok (b, st')
    /\ (b = true <-> nID <> 0 /\ StdMap.find nID (m_mServices st) <> None)
    /\ (b = false ->
        m_mServices st' = m_mServices st
        /\ m_nLastID st' = m_nLastID st
        /\ emitted st' = emitted st
        /\ errors (systemLog st') <> errors (systemLog st))
    /\ (b = true ->
        StdMap.find nID (m_mServices st') = None
        /\ (forall k, k <> nID ->
                      StdMap.find k (m_mServices st') = StdMap.find k (m_mServices st))
        /\ StdMap.keys (m_mServices st')
           = filter (fun k => negb (k =? nID)) (StdMap.keys (m_mServices st))
        /\ emitted st' = emitted st ++ [serviceRemoved nID]
        /\ m_nLastID st' = Z.min (nID - 1) (m_nLastID st)).
Proof.
  destruct (Z.eq_dec nID 0) as [Hz | Hnz].
  - destruct (remove_missing nID st (or_introl Hz)) as [st' [Hrem H]].
    exists false, st'. split; [exact Hrem|]. split; [|split; [intros _; exact H | discriminate]].
    split; [discriminate | intros [Hn _]; contradiction].
  - destruct (StdMap.find nID (m_mServices st)) as [p|] eqn:Hf.
    + destruct (remove_found nID st p Hnz Hf) as [st' [Hrem [Hm [Hl [He _]]]]].
      exists true, st'. split; [exact Hrem|]. split; [|split; [discriminate|]].
      * split; [intros _; split; [assumption | discriminate] | reflexivity].
      * intros _. rewrite Hm.
        split; [apply StdMapFacts.find_erase_eq|].
        split; [intros k Hk; apply StdMapFacts.find_erase_neq; congruence|].
        split; [apply keys_erase | split; assumption].
    + destruct (remove_missing nID st (or_intror Hf)) as [st' [Hrem H]].
      exists false, st'. split; [exact Hrem|].
      split; [|split; [intros _; exact H | discriminate]].
      split; [discriminate | intros [_ Hn]; contradiction].
Qed.

(** X4.  Removing the service a successful [add] has just stored gives back
    the map as it was before the [add], entry for entry; [m_nLastID] is then
    one below the id that was handed out. *)
Theorem remove_after_add_restores_the_map
        (E : Environment) (sURL : string) (eSType : TServiceType)
        (oNType : CNetworkType) (nRating : Z) (st st1 : CDiscovery) (id : Z) :
  add E sURL eSType oNType nRating st = Ok (id, st1) ->
  id <> 0 ->
  exists st2,
    remove id st1 = Ok (true, st2)
    /\ m_mServices st2 = m_mServices st
    /\ m_nLastID st2 = id - 1.
Proof.
  intros Hadd Hnz.
  destruct (add_outcome _ _ _ _ _ _ _ _ Hadd)
    as [[Hz _] | [_ [Hfree [p [_ [Hm [Hl _]]]]]]]; [contradiction|].
  destruct (findFreeID_least _ _ _ _ Hfree) as [_ [Hnone _]].
  destruct (remove_found id st1 p Hnz) as [st2 [Hrem [Hm2 [Hl2 _]]]].
  { rewrite Hm. apply StdMapFacts.find_insert_eq. }
  exists st2. split; [exact Hrem|]. split.
  - rewrite Hm2, Hm. now apply erase_insert.
  - rewrite Hl2, Hl. lia.
Qed.

Lemma remove_after_add_restores_the_map_witness :
  let E := Sample.env true in
  let st := Sample.manager [(1, Sample.gwc 1 "http://a.com" 5 0);
                            (3, Sample.gwc 3 "http://c.com" 5 0)] 1 in
  exists st1 st2,
    add E "http://b.com" stGWC dpG2 5 st = Ok (2, st1)
    /\ remove 2 st1 = Ok (true, st2)
    /\ m_mServices st2 = m_mServices st.
Proof.
  intros E st.
  assert (exists st1, add E "http://b.com" stGWC dpG2 5 st = Ok (2, st1)) as [st1 Hadd]
    by (subst E st; eexists; vm_compute; reflexivity).
  destruct (remove_after_add_restores_the_map E _ _ _ _ st st1 2 Hadd ltac:(lia))
    as [st2 [Hrem [Hm _]]].
  exists st1, st2. repeat split; assumption.
Defined.

(** X5.  After [clear], whatever was stored and whatever ids were in use,
    the map is empty, [m_nLastID] is 0 and the first [add] of a valid URL
    returns the id 1.  [clear( true )] emits [serviceRemoved] once for every
    service that was stored, in ascending order of the keys; [clear( false )]
    emits nothing. *)
Theorem first_add_after_clear_returns_1
        (E : Environment) (bInformGUI : bool) (st : CDiscovery)
        (sURL : string) (eSType : TServiceType) (oNType : CNetworkType) (nRating : Z) :
  QUrl_isValid E sURL = true ->
  exists st1 st2,
    clear bInformGUI st = Ok (tt, st1)
    /\ m_mServices st1 = []
    /\ m_nLastID st1 = 0
    /\ emitted st1
       = emitted st
         ++ (if bInformGUI
             then map (fun kv => serviceRemoved (m_nID (snd kv))) (m_mServices st)
             else [])
    /\ add E sURL eSType oNType nRating st1 = Ok (1, st2)
    /\ StdMap.keys (m_mServices st2) = [1].
Proof.
  intros Hvalid.
  assert (Hclear : exists st1, clear bInformGUI st = Ok (tt, st1)
                               /\ m_mServices st1 = [] /\ m_nLastID st1 = 0
                               /\ emitted st1
                                  = emitted st
                                    ++ (if bInformGUI
                                        then map (fun kv => serviceRemoved (m_nID (snd kv)))
                                                 (m_mServices st)
                                        else [])).
  { destruct bInformGUI; eexists; (split; [reflexivity|]); cbn; repeat split.
    now rewrite app_nil_r. }
  destruct Hclear as [st1 [Hc [Hm [Hl He]]]].
  destruct (add_fresh E sURL eSType oNType nRating st1 Hvalid) as [id [st2 [Hadd [Hid [_ [_ Hm2]]]]]].
  { rewrite Hm. intros k e []. }
  rewrite Hm, Hl in Hid. cbn in Hid. injection Hid as <-.
  exists st1, st2. repeat split; try assumption.
  rewrite Hm2, Hm. reflexivity.
Qed.

Lemma first_add_after_clear_returns_1_witness :
  let E := Sample.env false in
  let st := Sample.manager [(4, Sample.gwc 4 "http://a.com" 5 0);
                            (9, Sample.gwc 9 "http://c.com" 5 0)] 9 in
  QUrl_isValid E "http://c.com" = true
  /\ exists st1 st2,
       clear true st = Ok (tt, st1)
       /\ emitted st1 = [serviceRemoved 4; serviceRemoved 9]
       /\ add E "http://c.com" stGWC dpG2 5 st1 = Ok (1, st2).
Proof.
  intros E st. split; [reflexivity|].
  destruct (first_add_after_clear_returns_1 E true st "http://c.com" stGWC dpG2 5 eq_refl)
    as [st1 [st2 [Hc [_ [_ [He [Hadd _]]]]]]].
  exists st1, st2. repeat split; assumption.
Defined.

(** ** What every sequence of calls keeps *)

Lemma ordered_NoDup {V} (m : StdMap.t V) : StdMap.ordered m -> NoDup (StdMap.keys m).
Proof.
  induction m as [|[k v] m IH]; simpl; [constructor|].
  intros [Hhd Htl]. constructor; [|now apply IH].
  intros Hin. specialize (Hhd k Hin). lia.
Qed.

(** The loop of [getRandomService] changes a stored service in one way
    only: it revives it. *)
Lemma visit_revives E oNType tNow k s :
  visit E oNType (quint32 tNow) (k, s)
  = (k, if revivable E tNow s then revived E s else s).
Proof.
  unfold visit, revivable, consider, revived. cbn [fst snd].
  destruct (m_bBanned s); cbn [negb andb]; [reflexivity|].
  destruct (m_nRating s =? 0); cbn [negb andb]; [|reflexivity].
  now destruct (quint32 (m_tLastQueried s + ZeroRatingRevivalInterval E) >? quint32 tNow).
Qed.

Lemma getRandomService_map E oNType tNow nRand st r st' :
  getRandomService E oNType tNow nRand st = Ok (r, st') ->
  m_mServices st'
  = map (fun kv => (fst kv, if revivable E tNow (snd kv)
                            then revived E (snd kv) else snd kv))
        (m_mServices st)
  /\ m_nLastID st' = m_nLastID st
  /\ same_frame st st'.
Proof.
  rewrite getRandomService_eq. cbn zeta.
  assert (Hmap : map (visit E oNType (quint32 tNow)) (m_mServices st)
                 = map (fun kv => (fst kv, if revivable E tNow (snd kv)
                                           then revived E (snd kv) else snd kv))
                       (m_mServices st)).
  { apply map_ext. intros [k s]. apply visit_revives. }
  destruct (candidates E oNType tNow st) as [|first rest].
  - intros [= <- <-]. cbn. rewrite Hmap. now repeat split.
  - destruct (totalRating E oNType tNow st =? 0); [discriminate|].
    destruct (walk rest _ first); [|discriminate].
    intros [= <- <-]. cbn. rewrite Hmap. now repeat split.
Qed.

Section Sequences.
Variable E : Environment.

Lemma manageDuplicates_scan_none p (m : TMap) :
  manageDuplicates_scan E p m = Ok None ->
  forall k e, In (k, e) m ->
              ~ (m_oServiceURL e = m_oServiceURL p /\ m_nServiceType e = m_nServiceType p).
Proof.
  induction m as [|[k0 e0] m IH]; simpl; [intros _ k e []|].
  destruct (String.eqb (m_oServiceURL e0) (m_oServiceURL p)) eqn:Hu.
  - destruct (TServiceType_eqb (m_nServiceType p) (m_nServiceType e0)) eqn:Ht;
      [discriminate|].
    destruct (debug_build E); [discriminate|].
    destruct (manageDuplicates_scan E p m) as [[rest'|]|f]; try discriminate.
    intros _ k e [Heq | Hin].
    + injection Heq as <- <-. intros [_ Hty]. symmetry in Hty.
      apply TServiceType_eqb_eq in Hty. congruence.
    + now apply (IH eq_refl k e).
  - destruct (manageDuplicates_scan E p m) as [[rest'|]|f]; try discriminate.
    intros _ k e [Heq | Hin].
    + injection Heq as <- <-. intros [Hurl _]. apply String.eqb_neq in Hu. contradiction.
    + now apply (IH eq_refl k e).
Qed.

Lemma manageDuplicates_scan_found p (m m' : TMap) :
  manageDuplicates_scan E p m = Ok (Some m') ->
  exists l1 k e l2,
    m = l1 ++ (k, e) :: l2
    /\ m' = l1 ++ (k, merged e (m_oNetworkType p)) :: l2
    /\ m_oServiceURL e = m_oServiceURL p
    /\ m_nServiceType e = m_nServiceType p.
Proof.
  revert m'. induction m as [|[k e] m IH]; intros m'; simpl; [discriminate|].
  assert (Hrec : match manageDuplicates_scan E p m with
                 | Ok (Some rest') => Ok (Some ((k, e) :: rest'))
                 | r => r
                 end = Ok (Some m') ->
                 exists l1 k0 e0 l2,
                   (k, e) :: m = l1 ++ (k0, e0) :: l2
                   /\ m' = l1 ++ (k0, merged e0 (m_oNetworkType p)) :: l2
                   /\ m_oServiceURL e0 = m_oServiceURL p
                   /\ m_nServiceType e0 = m_nServiceType p).
  { destruct (manageDuplicates_scan E p m) as [[rest'|]|f'];
      [|discriminate|discriminate].
    intros [= <-]. destruct (IH rest' eq_refl) as [l1 [k0 [e0 [l2 [H1 [H2 [H3 H4]]]]]]].
    exists ((k, e) :: l1), k0, e0, l2. simpl. rewrite H1, H2. now repeat split. }
  destruct (String.eqb (m_oServiceURL e) (m_oServiceURL p)) eqn:Hu; [|exact Hrec].
  destruct (TServiceType_eqb (m_nServiceType p) (m_nServiceType e)) eqn:Ht.
  - intros [= <-]. exists [], k, e, m. apply String.eqb_eq in Hu.
    apply TServiceType_eqb_eq in Ht. now repeat split.
  - destruct (debug_build E); [discriminate | exact Hrec].
Qed.

(** What [add( TServicePtr& )] makes of the map: it merges the networks of
    one entry, or inserts the service under an id that was free, after a
    scan that found no entry with its URL and type. *)
Lemma add_ptr_map p st r st' :
  add_ptr E (Some p) st = Ok (r, st') ->
  (exists l1 k e l2,
      m_mServices st = l1 ++ (k, e) :: l2
      /\ m_mServices st' = l1 ++ (k, merged e (m_oNetworkType p)) :: l2
      /\ m_oServiceURL e = m_oServiceURL p
      /\ m_nServiceType e = m_nServiceType p)
  \/ (exists id,
         StdMap.find id (m_mServices st) = None
         /\ m_mServices st' = StdMap.insert id (with_id p id) (m_mServices st)
         /\ manageDuplicates_scan E p (m_mServices st) = Ok None).
Proof.
  destruct (manageDuplicates_scan E p (m_mServices st)) as [[m'|]|f] eqn:Hscan.
  - rewrite (add_ptr_duplicate E p st m' Hscan). intros [= <- <-]. left.
    destruct (manageDuplicates_scan_found p _ _ Hscan) as [l1 [k [e [l2 [H1 [H2 [H3 H4]]]]]]].
    exists l1, k, e, l2. now repeat split.
  - intros Hadd. right.
    assert (Hfresh : forall id,
               findFreeID (S (List.length (m_mServices st))) (m_mServices st)
                          (m_nLastID st) = Some id ->
               StdMap.find id (m_mServices st) = None).
    { intros id H. now destruct (findFreeID_least _ _ _ _ H) as [_ [H' _]]. }
    destruct (Z.eq_dec (m_nID p) 0) as [Hz | Hnz].
    + destruct (add_ptr_unassigned E p st Hscan Hz) as [id [Hfree Heq]].
      rewrite Heq in Hadd. injection Hadd as <- <-.
      exists id. split; [now apply Hfresh|]. now split.
    + destruct (StdMap.find (m_nID p) (m_mServices st)) as [e|] eqn:Hf.
      * pose proof (add_ptr_taken E p st e Hscan Hnz Hf) as H.
        destruct (debug_build E); [rewrite H in Hadd; discriminate|].
        destruct H as [id [Hfree Heq]]. rewrite Heq in Hadd. injection Hadd as <- <-.
        exists id. split; [now apply Hfresh|]. now split.
      * rewrite (add_ptr_assigned E p st Hscan Hnz Hf) in Hadd. injection Hadd as <- <-.
        exists (m_nID p). rewrite with_id_same. now repeat split.
  - unfold add_ptr, bind, manageDuplicates. rewrite Hscan. discriminate.
Qed.

Lemma add_ptr_distinct p st r st' :
  distinct_services (m_mServices st) ->
  add_ptr E (Some p) st = Ok (r, st') ->
  distinct_services (m_mServices st').
Proof.
  intros Hd Hadd.
  destruct (add_ptr_map p st r st' Hadd)
    as [[l1 [k [e [l2 [Hm [Hm' _]]]]]] | [id [Hfree [Hm' Hscan]]]].
  - assert (Hback : forall k' e', In (k', e') (m_mServices st') ->
                      exists e0, In (k', e0) (m_mServices st)
                                 /\ m_oServiceURL e' = m_oServiceURL e0
                                 /\ m_nServiceType e' = m_nServiceType e0).
    { rewrite Hm, Hm'. intros k' e' H. apply in_app_or in H. destruct H as [H | [H | H]].
      - exists e'. split; [apply in_or_app; now left | now split].
      - injection H as <- <-. exists e.
        split; [apply in_or_app; right; now left | now split].
      - exists e'. split; [apply in_or_app; right; now right | now split]. }
    intros k1 e1 k2 e2 H1 H2 Hu Ht.
    destruct (Hback _ _ H1) as [a [Ha [Hua Hta]]].
    destruct (Hback _ _ H2) as [b [Hb [Hub Htb]]].
    apply (Hd k1 a k2 b Ha Hb); congruence.
  - pose proof (manageDuplicates_scan_none p _ Hscan) as Hnone.
    rewrite Hm'. intros k1 e1 k2 e2 H1 H2 Hu Ht.
    apply In_insert in H1. apply In_insert in H2.
    destruct H1 as [[= -> ->] | H1]; destruct H2 as [[= -> ->] | H2].
    + reflexivity.
    + exfalso. apply (Hnone _ _ H2). cbn in Hu, Ht. now split.
    + exfalso. apply (Hnone _ _ H1). cbn in Hu, Ht. now split.
    + exact (Hd _ _ _ _ H1 H2 Hu Ht).
Qed.

Lemma add_ptr_ratings p st r st' :
  ratings_in_range (m_mServices st) ->
  0 <= m_nRating p < 256 ->
  add_ptr E (Some p) st = Ok (r, st') ->
  ratings_in_range (m_mServices st').
Proof.
  intros Hr Hp Hadd.
  destruct (add_ptr_map p st r st' Hadd)
    as [[l1 [k [e [l2 [Hm [Hm' _]]]]]] | [id [Hfree [Hm' Hscan]]]].
  - rewrite Hm', Hm in *. intros k' s H. apply in_app_or in H.
    destruct H as [H | [H | H]].
    + apply (Hr k'). apply in_or_app. now left.
    + injection H as <- <-. cbn. apply (Hr k). apply in_or_app. right. now left.
    + apply (Hr k'). apply in_or_app. right. now right.
  - rewrite Hm'. intros k s H. apply In_insert in H.
    destruct H as [[= -> ->] | H]; [exact Hp | exact (Hr _ _ H)].
Qed.

(** The public [add] acts on the map through [add( TServicePtr& )] or not
    at all. *)
Lemma add_via_add_ptr sURL eSType oNType nRating st id st' :
  add E sURL eSType oNType nRating st = Ok (id, st') ->
  (QUrl_isValid E sURL = false
   /\ m_mServices st' = m_mServices st
   /\ m_nLastID st' = m_nLastID st
   /\ id = 0)
  \/ (QUrl_isValid E sURL = true
      /\ exists r st1,
          add_ptr E (Some (mkService 0 (normalizeURL (QUrl_toString E sURL)) eSType oNType
                                     (quint8 nRating) false false 0 0)) st
          = Ok (r, st1)
          /\ m_mServices st' = m_mServices st1
          /\ m_nLastID st' = m_nLastID st1).
Proof.
  unfold add. destruct (QUrl_isValid E sURL); cbn [negb];
    [|intros [= <- <-]; left; now repeat split].
  unfold createService. unfold bind at 1.
  destruct (add_ptr E _ st) as [[r st1]|f]; [|discriminate].
  intros H. right. split; [reflexivity|]. exists r, st1. split; [reflexivity|].
  destruct r as [[|] [p|]]; injection H as <- <-; now split.
Qed.

Lemma add_crash sURL eSType oNType nRating st f :
  add E sURL eSType oNType nRating st = Crash f ->
  debug_build E = true /\ f = AssertionFailed.
Proof.
  unfold add. destruct (QUrl_isValid E sURL); cbn [negb]; [|discriminate].
  unfold bind at 1.
  destruct (add_ptr E _ st) as [[r st1]|f'] eqn:Hadd.
  - destruct r as [[|] [p|]]; discriminate.
  - intros [= <-]. exact (add_ptr_crash E _ _ _ Hadd).
Qed.

Lemma remove_total nID st :
  exists b st',
    remove nID st = Ok (b, st')
    /\ (m_mServices st' = m_mServices st
        \/ m_mServices st' = StdMap.erase nID (m_mServices st)).
Proof.
  destruct (Z.eq_dec nID 0) as [Hz | Hnz].
  - destruct (remove_missing nID st (or_introl Hz)) as [st' [H [Hm _]]].
    exists false, st'. split; [exact H | now left].
  - destruct (StdMap.find nID (m_mServices st)) as [p|] eqn:Hf.
    + destruct (remove_found nID st p Hnz Hf) as [st' [H [Hm _]]].
      exists true, st'. split; [exact H | now right].
    + destruct (remove_missing nID st (or_intror Hf)) as [st' [H [Hm _]]].
      exists false, st'. split; [exact H | now left].
Qed.

Lemma In_erase {V} k (m : StdMap.t V) k' v :
  In (k', v) (StdMap.erase k m) -> In (k', v) m.
Proof. unfold StdMap.erase. intros H. now apply filter_In in H. Qed.

Lemma clear_empties b st :
  exists st', clear b st = Ok (tt, st')
              /\ m_mServices st' = [] /\ m_nLastID st' = 0 /\ same_frame st st'.
Proof. destruct b; eexists; (split; [reflexivity|]); cbn; now repeat split. Qed.

Lemma perform_kept o st st' :
  kept st -> perform E o st = Ok (tt, st') -> kept st'.
Proof.
  intros [Hwf [Hd Hr]].
  destruct o as [sURL eSType oNType nRating | nID | b | oNType tNow nRand];
    cbn [perform]; unfold bind.
  - destruct (add E sURL eSType oNType nRating st) as [[id st1]|f] eqn:Hadd; [|discriminate].
    intros [= <-]. split; [exact (well_formed_add E _ _ _ _ _ _ _ Hwf Hadd)|].
    destruct (add_via_add_ptr _ _ _ _ _ _ _ Hadd)
      as [[_ [Hm _]] | [_ [r [st2 [Hptr [Hm _]]]]]];
      rewrite Hm; [now split|]. split.
    + exact (add_ptr_distinct _ _ _ _ Hd Hptr).
    + refine (add_ptr_ratings _ _ _ _ Hr _ Hptr).
      cbn. unfold quint8, wrap. apply Z.mod_pos_bound. lia.
  - destruct (remove nID st) as [[b st1]|f] eqn:Hrem; [|discriminate].
    intros [= <-]. split; [exact (well_formed_remove _ _ _ _ Hwf Hrem)|].
    destruct (remove_total nID st) as [b' [st2 [Hrem' Hm]]].
    rewrite Hrem in Hrem'. injection Hrem' as <- <-.
    destruct Hm as [-> | ->]; [now split|]. split.
    + intros k1 e1 k2 e2 H1 H2. apply Hd; eapply In_erase; eassumption.
    + intros k s H. apply (Hr k). eapply In_erase; eassumption.
  - intros Hclear. split; [exact (well_formed_clear _ _ _ Hclear)|].
    destruct (clear_empties b st) as [st1 [Hc [Hm _]]].
    rewrite Hc in Hclear. injection Hclear as <-. rewrite Hm.
    split; [intros k1 e1 k2 e2 [] | intros k s []].
  - destruct (getRandomService E oNType tNow nRand st) as [[r st1]|f] eqn:Hsel;
      [|discriminate].
    intros [= <-]. split; [exact (well_formed_getRandomService E _ _ _ _ _ _ Hwf Hsel)|].
    destruct (getRandomService_map _ _ _ _ _ _ _ Hsel) as [Hm _]. rewrite Hm.
    assert (Hback : forall k s,
               In (k, s) (map (fun kv => (fst kv, if revivable E tNow (snd kv)
                                                  then revived E (snd kv) else snd kv))
                              (m_mServices st)) ->
               exists s0, In (k, s0) (m_mServices st)
                          /\ m_oServiceURL s = m_oServiceURL s0
                          /\ m_nServiceType s = m_nServiceType s0
                          /\ (m_nRating s = m_nRating s0
                              \/ m_nRating s = quint8 (DISCOVERY_MAX_PROBABILITY E))).
    { intros k s H. apply in_map_iff in H. destruct H as [[k0 s0] [Heq H0]].
      cbn [fst snd] in Heq. injection Heq as <- <-. exists s0. split; [exact H0|].
      destruct (revivable E tNow s0); cbn; repeat split; auto. }
    split.
    + intros k1 e1 k2 e2 H1 H2 Hu Ht.
      destruct (Hback _ _ H1) as [a [Ha [Hua [Hta _]]]].
      destruct (Hback _ _ H2) as [b [Hb [Hub [Htb _]]]].
      apply (Hd k1 a k2 b Ha Hb); congruence.
    + intros k s H. destruct (Hback _ _ H) as [s0 [H0 [_ [_ [Hrt | Hrt]]]]]; rewrite Hrt.
      * exact (Hr _ _ H0).
      * unfold quint8, wrap. apply Z.mod_pos_bound. lia.
Qed.

Lemma perform_crash o st f :
  kept st -> drawn o -> perform E o st = Crash f ->
  f = DivisionByZero \/ (debug_build E = true /\ f = AssertionFailed).
Proof.
  intros [Hwf [Hd Hr]] Hdrawn.
  destruct o as [sURL eSType oNType nRating | nID | b | oNType tNow nRand];
    cbn [perform]; unfold bind.
  - destruct (add E sURL eSType oNType nRating st) as [[id st1]|f'] eqn:Hadd; [discriminate|].
    intros [= <-]. right. exact (add_crash _ _ _ _ _ _ Hadd).
  - destruct (remove_total nID st) as [b [st1 [-> _]]]. discriminate.
  - destruct (clear_empties b st) as [st1 [-> _]]. discriminate.
  - destruct (getRandomService E oNType tNow nRand st) as [[r st1]|f'] eqn:Hsel;
      [discriminate|].
    intros [= <-]. left.
    apply (getRandomService_crash E oNType tNow nRand st f'); [|exact Hdrawn|exact Hsel].
    intros k s H. specialize (Hr k s H). lia.
Qed.

Lemma kept_new d : kept (newDiscovery d).
Proof.
  split; [apply well_formed_new|]. split; [intros k1 e1 k2 e2 [] | intros k s []].
Qed.

Lemma perform_all_kept ops st st' :
  kept st -> perform_all E ops st = Ok (tt, st') -> kept st'.
Proof.
  revert st. induction ops as [|o ops IH]; intros st Hk; cbn [perform_all].
  - now intros [= <-].
  - unfold bind at 1. destruct (perform E o st) as [[[] st1]|f] eqn:Ho; [|discriminate].
    intros H. exact (IH st1 (perform_kept _ _ _ Hk Ho) H).
Qed.

(** The ids do not outrun the calls: each call raises the highest id and
    [m_nLastID] by one at most. *)
Lemma perform_within n o st st' :
  0 <= n -> within n st -> perform E o st = Ok (tt, st') -> within (n + 1) st'.
Proof.
  intros Hn [Hkeys Hlast].
  destruct o as [sURL eSType oNType nRating | nID | b | oNType tNow nRand];
    cbn [perform]; unfold bind.
  - destruct (add E sURL eSType oNType nRating st) as [[id st1]|f] eqn:Hadd; [|discriminate].
    intros [= <-]. destruct (add_outcome _ _ _ _ _ _ _ _ Hadd)
      as [[_ [Hk [Hl _]]] | [_ [Hfree [p [_ [Hm [Hl _]]]]]]].
    + split; [rewrite Hk; intros k Hin; specialize (Hkeys k Hin); lia | lia].
    + destruct (findFreeID_least _ _ _ _ Hfree) as [Hgt [_ Hleast]].
      assert (Hid : id <= n + 1).
      { destruct (Z_le_gt_dec id (n + 1)) as [Hle | Hgt']; [exact Hle|]. exfalso.
        destruct (StdMap.find (n + 1) (m_mServices st)) as [v|] eqn:Hf;
          [|apply (Hleast (n + 1)); [lia | exact Hf]].
        apply StdMapFacts.find_In in Hf.
        assert (Hin : In (n + 1) (StdMap.keys (m_mServices st))).
        { unfold StdMap.keys. apply in_map_iff. now exists (n + 1, v). }
        specialize (Hkeys _ Hin). lia. }
      split; [|lia]. rewrite Hm. intros k Hin. apply StdMapFacts.keys_insert in Hin.
      destruct Hin as [-> | Hin]; [exact Hid | specialize (Hkeys k Hin); lia].
  - destruct (remove nID st) as [[b st1]|f] eqn:Hrem; [|discriminate].
    intros [= <-].
    assert (Hshrink : (forall k, In k (StdMap.keys (m_mServices st1)) ->
                                 In k (StdMap.keys (m_mServices st)))
                      /\ m_nLastID st1 <= m_nLastID st).
    { destruct (Z.eq_dec nID 0) as [Hz | Hnz].
      - destruct (remove_missing nID st (or_introl Hz)) as [st2 [H [Hm [Hl _]]]].
        rewrite Hrem in H. injection H as _ <-. rewrite Hm, Hl. split; [auto | lia].
      - destruct (StdMap.find nID (m_mServices st)) as [p|] eqn:Hf.
        + destruct (remove_found nID st p Hnz Hf) as [st2 [H [Hm [Hl _]]]].
          rewrite Hrem in H. injection H as _ <-. rewrite Hm, Hl. split; [|lia].
          intros k Hin. rewrite keys_erase in Hin. now apply filter_In in Hin.
        + destruct (remove_missing nID st (or_intror Hf)) as [st2 [H [Hm [Hl _]]]].
          rewrite Hrem in H. injection H as _ <-. rewrite Hm, Hl. split; [auto | lia]. }
    destruct Hshrink as [Hsub Hle].
    split; [intros k Hin; specialize (Hkeys k (Hsub k Hin)); lia | lia].
  - destruct (clear_empties b st) as [st1 [-> [Hm [Hl _]]]]. intros [= <-].
    split; [rewrite Hm; intros k [] | rewrite Hl; lia].
  - destruct (getRandomService E oNType tNow nRand st) as [[r st1]|f] eqn:Hsel;
      [|discriminate].
    intros [= <-]. destruct (getRandomService_map _ _ _ _ _ _ _ Hsel) as [Hm [Hl _]].
    assert (Hk : StdMap.keys (m_mServices st1) = StdMap.keys (m_mServices st)).
    { rewrite Hm. unfold StdMap.keys. rewrite map_map. apply map_ext. now intros [k s]. }
    split; [rewrite Hk; intros k Hin; specialize (Hkeys k Hin); lia | rewrite Hl; lia].
Qed.

Lemma perform_all_within ops :
  forall n st st',
    0 <= n -> within n st -> perform_all E ops st = Ok (tt, st') ->
    within (n + Z.of_nat (List.length ops)) st'.
Proof.
  induction ops as [|o ops IH]; intros n st st' Hn Hw; cbn [perform_all List.length].
  - intros [= <-]. now rewrite Z.add_0_r.
  - unfold bind at 1. destruct (perform E o st) as [[[] st1]|f] eqn:Ho; [|discriminate].
    intros H. rewrite Nat2Z.inj_succ.
    replace (n + Z.succ (Z.of_nat (List.length ops)))
      with ((n + 1) + Z.of_nat (List.length ops)) by lia.
    apply (IH (n + 1) st1 st'); [lia | exact (perform_within n o st st1 Hn Hw Ho) | exact H].
Qed.

Lemma within_new d : within 0 (newDiscovery d).
Proof. split; [intros k [] | cbn; lia]. Qed.

(** X6. Whatever calls of [add], [remove], [clear] and [getRandomService]
    a manager has served since its construction, as long as they are
    fewer than the [2 ^ bits] values of a [TServiceID] of [bits] bits: its
    map holds every service under its own id, the ids are distinct, at
    least 1 and, like [m_nLastID], at most the number of calls served, so
    below the top of the range, where no [++m_nLastID] wraps; no two
    stored services have both the same URL and the same type, and every
    rating is a [quint8] value. *)
Theorem calls_keep_ids_unique_and_services_distinct (bits : Z) ops d st :
  Z.of_nat (List.length ops) < 2 ^ bits ->
  perform_all E ops (newDiscovery d) = Ok (tt, st) ->
  NoDup (StdMap.keys (m_mServices st))
  /\ (forall k s, In (k, s) (m_mServices st) ->
                  m_nID s = k /\ 1 <= k <= Z.of_nat (List.length ops) /\ k < 2 ^ bits)
  /\ 0 <= m_nLastID st <= Z.of_nat (List.length ops)
  /\ m_nLastID st < 2 ^ bits
  /\ distinct_services (m_mServices st)
  /\ ratings_in_range (m_mServices st).
Proof.
  intros Hbits H.
  destruct (perform_all_kept ops _ _ (kept_new d) H) as [[Hord [Hid Hlast]] [Hd Hr]].
  destruct (perform_all_within ops 0 _ _ ltac:(lia) (within_new d) H) as [Hkeys Hle].
  rewrite Z.add_0_l in Hkeys, Hle.
  split; [now apply ordered_NoDup|].
  split; [|split; [lia | split; [lia | split; assumption]]].
  intros k s Hin. destruct (Hid k s Hin) as [Hown Hpos].
  assert (Hk : k <= Z.of_nat (List.length ops)).
  { apply Hkeys. unfold StdMap.keys. apply in_map_iff. now exists (k, s). }
  split; [exact Hown | lia].
Qed.

(** X7. A sequence of calls of [add], [remove], [clear] and
    [getRandomService] on a new manager, with draws of [qrand] that are
    not negative and fewer calls than the [2 ^ bits] values of a
    [TServiceID] of [bits] bits, is lost in two ways only: the division by
    a total rating of 0 in [getRandomService], or an assertion of a debug
    build in [add].  The walk over the candidates never runs past their
    end, and the search for a free id always ends: at every point of the
    run an id is free between [m_nLastID] and the top of the range. *)
Theorem calls_are_lost_only_to_a_zero_total_or_a_debug_assertion (bits : Z) ops d f :
  Z.of_nat (List.length ops) < 2 ^ bits ->
  Forall drawn ops ->
  perform_all E ops (newDiscovery d) = Crash f ->
  (f = DivisionByZero \/ (debug_build E = true /\ f = AssertionFailed))
  /\ (forall ops1 ops2 st1,
         ops = ops1 ++ ops2 ->
         perform_all E ops1 (newDiscovery d) = Ok (tt, st1) ->
         exists id, m_nLastID st1 < id < 2 ^ bits
                    /\ StdMap.find id (m_mServices st1) = None).
Proof.
  intros Hbits Hdrawn Hcrash. split.
  - revert Hcrash. generalize (kept_new d). generalize (newDiscovery d).
    induction Hdrawn as [|o ops Ho Hops IH]; intros st Hk; cbn [perform_all]; [discriminate|].
    unfold bind at 1. destruct (perform E o st) as [[[] st1]|f'] eqn:Hp.
    + apply IH; [|exact (perform_kept _ _ _ Hk Hp)].
      cbn [List.length] in Hbits. lia.
    + intros [= <-]. exact (perform_crash _ _ _ Hk Ho Hp).
  - intros ops1 ops2 st1 Hsplit Hrun.
    destruct (perform_all_within ops1 0 _ _ ltac:(lia) (within_new d) Hrun) as [Hkeys Hle].
    rewrite Z.add_0_l in Hkeys, Hle.
    assert (Hlen : Z.of_nat (List.length ops1) < Z.of_nat (List.length ops)).
    { destruct ops2 as [|o ops2].
      - rewrite app_nil_r in Hsplit. subst ops1. rewrite Hrun in Hcrash. discriminate.
      - subst ops. rewrite length_app. cbn [List.length]. lia. }
    exists (Z.of_nat (List.length ops1) + 1). split; [lia|].
    destruct (StdMap.find (Z.of_nat (List.length ops1) + 1) (m_mServices st1)) as [v|] eqn:Hf;
      [|reflexivity].
    exfalso. apply StdMapFacts.find_In in Hf.
    assert (Hin : In (Z.of_nat (List.length ops1) + 1) (StdMap.keys (m_mServices st1))).
    { unfold StdMap.keys. apply in_map_iff. now exists (Z.of_nat (List.length ops1) + 1, v). }
    specialize (Hkeys _ Hin). lia.
Qed.
End Sequences.

Lemma calls_keep_ids_unique_and_services_distinct_witness :
  let E := Sample.env false in
  let ops := [call_add "http://a.com" stGWC dpG2 5;
              call_add "http://b.com" stGWC dpG2 0;
              call_add "HTTP://A.com" stNull dpG2 300;
              call_remove 1;
              call_getRandomService dpG2 50 7;
              call_add "http://c.com" stGWC dpG2 9] in
  Z.of_nat (List.length ops) < 2 ^ 32
  /\ exists st,
      perform_all E ops (newDiscovery Sample.emptyDisk) = Ok (tt, st)
      /\ StdMap.keys (m_mServices st) = [1; 2; 3]
      /\ NoDup (StdMap.keys (m_mServices st))
      /\ (forall k s, In (k, s) (m_mServices st) ->
                      m_nID s = k /\ 1 <= k <= Z.of_nat (List.length ops) /\ k < 2 ^ 32)
      /\ 0 <= m_nLastID st <= Z.of_nat (List.length ops)
      /\ m_nLastID st < 2 ^ 32
      /\ distinct_services (m_mServices st)
      /\ ratings_in_range (m_mServices st).
Proof.
  cbv zeta. split; [reflexivity|].
  eexists. split; [vm_compute; reflexivity|].
  split; [reflexivity|].
  apply (calls_keep_ids_unique_and_services_distinct (Sample.env false) 32
           [call_add "http://a.com" stGWC dpG2 5;
            call_add "http://b.com" stGWC dpG2 0;
            call_add "HTTP://A.com" stNull dpG2 300;
            call_remove 1;
            call_getRandomService dpG2 50 7;
            call_add "http://c.com" stGWC dpG2 9] Sample.emptyDisk).
  - reflexivity.
  - vm_compute. reflexivity.
Defined.

Lemma calls_are_lost_only_to_a_zero_total_or_a_debug_assertion_witness :
  let E := Sample.env true in
  let ops := [call_add "http://a.com" stGWC dpG2 5;
              call_getRandomService dpG2 50 7;
              call_add "http://a.com" stNull dpG2 5] in
  Z.of_nat (List.length ops) < 2 ^ 32
  /\ Forall drawn ops
  /\ perform_all E ops (newDiscovery Sample.emptyDisk) = Crash AssertionFailed
  /\ (AssertionFailed = DivisionByZero
      \/ (debug_build E = true /\ AssertionFailed = AssertionFailed)).
Proof.
  cbv zeta.
  assert (Hdrawn : Forall drawn [call_add "http://a.com" stGWC dpG2 5;
                                 call_getRandomService dpG2 50 7;
                                 call_add "http://a.com" stNull dpG2 5])
    by (repeat constructor; cbn; lia).
  split; [reflexivity|]. split; [exact Hdrawn|]. split; [vm_compute; reflexivity|].
  refine (proj1 (calls_are_lost_only_to_a_zero_total_or_a_debug_assertion
                   (Sample.env true) 32 _ Sample.emptyDisk AssertionFailed _ Hdrawn _)).
  - reflexivity.
  - vm_compute. reflexivity.
Defined.

(** ** Debug builds, over sequences of calls *)

Section DebugSequences.
Variable E : Environment.
Hypothesis Hdebug : debug_build E = true.

Lemma perform_type_consistent o st st' :
  type_consistent (m_mServices st) ->
  perform E o st = Ok (tt, st') ->
  type_consistent (m_mServices st').
Proof.
  intros Hc.
  destruct o as [sURL eSType oNType nRating | nID | b | oNType tNow nRand];
    cbn [perform]; unfold bind.
  - destruct (add E sURL eSType oNType nRating st) as [[id st1]|f] eqn:Hadd; [|discriminate].
    intros [= <-].
    destruct (add_via_add_ptr E _ _ _ _ _ _ _ Hadd)
      as [[_ [Hm _]] | [_ [r [st2 [Hptr [Hm _]]]]]];
      rewrite Hm; [exact Hc|].
    exact (add_ptr_type_consistent E Hdebug _ _ _ _ Hc Hptr).
  - destruct (remove_total nID st) as [b' [st2 [-> Hm]]]. intros [= <-].
    destruct Hm as [-> | ->]; [exact Hc|].
    intros k1 e1 k2 e2 H1 H2. apply (Hc k1 e1 k2 e2); eapply In_erase; eassumption.
  - destruct (clear_empties b st) as [st1 [-> [Hm _]]]. intros [= <-]. rewrite Hm.
    intros k1 e1 k2 e2 [].
  - destruct (getRandomService E oNType tNow nRand st) as [[r st1]|f] eqn:Hsel;
      [|discriminate].
    intros [= <-]. destruct (getRandomService_map _ _ _ _ _ _ _ Hsel) as [Hm _]. rewrite Hm.
    assert (Hback : forall k s,
               In (k, s) (map (fun kv => (fst kv, if revivable E tNow (snd kv)
                                                  then revived E (snd kv) else snd kv))
                              (m_mServices st)) ->
               exists s0, In (k, s0) (m_mServices st)
                          /\ m_oServiceURL s = m_oServiceURL s0
                          /\ m_nServiceType s = m_nServiceType s0).
    { intros k s H. apply in_map_iff in H. destruct H as [[k0 s0] [Heq H0]].
      cbn [fst snd] in Heq. injection Heq as <- <-. exists s0. split; [exact H0|].
      destruct (revivable E tNow s0); cbn; now split. }
    intros k1 e1 k2 e2 H1 H2 Hu.
    destruct (Hback _ _ H1) as [a [Ha [Hua Hta]]].
    destruct (Hback _ _ H2) as [b [Hb [Hub Htb]]].
    rewrite Hta, Htb. apply (Hc k1 a k2 b Ha Hb). congruence.
Qed.

Lemma perform_all_type_consistent ops st st' :
  type_consistent (m_mServices st) ->
  perform_all E ops st = Ok (tt, st') ->
  type_consistent (m_mServices st').
Proof.
  revert st. induction ops as [|o ops IH]; intros st H0; cbn [perform_all].
  - now intros [= <-].
  - unfold bind at 1. destruct (perform E o st) as [[[] st1]|f] eqn:Ho; [|discriminate].
    apply IH. exact (perform_type_consistent _ _ _ H0 Ho).
Qed.

Lemma type_consistent_new d : type_consistent (m_mServices (newDiscovery d)).
Proof. intros k1 e1 k2 e2 []. Qed.

(** X8. In a debug build, whatever calls of [add], [remove], [clear] and
    [getRandomService] a manager has served since its construction, no URL
    is stored twice: two entries of the map with the same URL are one
    entry. *)
Theorem debug_build_stores_every_url_once ops d st :
  perform_all E ops (newDiscovery d) = Ok (tt, st) ->
  forall k1 e1 k2 e2,
    In (k1, e1) (m_mServices st) -> In (k2, e2) (m_mServices st) ->
    m_oServiceURL e1 = m_oServiceURL e2 -> k1 = k2.
Proof.
  intros H.
  destruct (perform_all_kept E ops _ _ (kept_new d) H) as [_ [Hd _]].
  pose proof (perform_all_type_consistent _ _ _ (type_consistent_new d) H) as Hc.
  intros k1 e1 k2 e2 H1 H2 Hu.
  exact (Hd k1 e1 k2 e2 H1 H2 Hu (Hc k1 e1 k2 e2 H1 H2 Hu)).
Qed.
End DebugSequences.

Lemma debug_build_stores_every_url_once_witness :
  exists st,
    perform_all (Sample.env true)
                [call_add "http://a.com" stGWC dpG2 5;
                 call_add "http://b.com" stNull dpG2 5;
                 call_add "http://A.com" stGWC 4 5]
                (newDiscovery Sample.emptyDisk) = Ok (tt, st)
    /\ StdMap.keys (m_mServices st) = [1; 2]
    /\ forall k1 e1 k2 e2,
         In (k1, e1) (m_mServices st) -> In (k2, e2) (m_mServices st) ->
         m_oServiceURL e1 = m_oServiceURL e2 -> k1 = k2.
Proof.
  eexists. split; [vm_compute; reflexivity|]. split; [reflexivity|].
  apply (debug_build_stores_every_url_once (Sample.env true) eq_refl
           [call_add "http://a.com" stGWC dpG2 5;
            call_add "http://b.com" stNull dpG2 5;
            call_add "http://A.com" stGWC 4 5] Sample.emptyDisk).
  vm_compute. reflexivity.
Defined.

(** ** The draw of [getRandomService] *)

Lemma rating_sum_cons kv (l : TMap) :
  rating_sum (kv :: l) = m_nRating (snd kv) + rating_sum l.
Proof. reflexivity. Qed.

Lemma rating_sum_app (l1 l2 : TMap) :
  rating_sum (l1 ++ l2) = rating_sum l1 + rating_sum l2.
Proof.
  induction l1 as [|kv l1 IH]; [reflexivity|].
  cbn [app]. rewrite !rating_sum_cons, IH. lia.
Qed.

(** The walk stops on the candidate whose share of the ratings the draw
    falls into. *)
Lemma walk_selects (l1 : TMap) c l2 :
  forall n first rest,
    first :: rest = l1 ++ c :: l2 ->
    (forall kv, In kv l1 -> 0 <= m_nRating (snd kv)) ->
    n < 65536 ->
    rating_sum l1 < n <= rating_sum l1 + m_nRating (snd c) ->
    walk rest n first = Ok c.
Proof.
  induction l1 as [|a l1 IH]; intros n first rest Heq Hpos Hn Hin.
  - cbn [app] in Heq. injection Heq as -> ->. change (rating_sum []) with 0 in Hin.
    destruct l2; cbn [walk]; destruct (n >? m_nRating (snd c)) eqn:Hgt; (reflexivity || lia).
  - cbn [app] in Heq. injection Heq as -> ->. rewrite rating_sum_cons in Hin.
    assert (Ha : 0 <= m_nRating (snd a)) by (apply Hpos; now left).
    assert (Hl1 : 0 <= rating_sum l1).
    { apply rating_sum_nonneg. intros kv Hkv. apply Hpos. now right. }
    destruct (l1 ++ c :: l2) as [|next rest'] eqn:Heq;
      [now destruct l1|].
    cbn [walk]. destruct (n >? m_nRating (snd a)) eqn:Hgt; [|lia].
    assert (Hq : quint16 (n - m_nRating (snd a)) = n - m_nRating (snd a)).
    { unfold quint16, wrap. apply Z.mod_small. lia. }
    rewrite Hq. apply IH; [reflexivity | | lia | lia].
    intros kv Hkv. apply Hpos. now right.
Qed.

(** X12. The draw is weighted by the ratings.  When the ratings of the
    candidates add up to less than 2^16, a candidate is returned for
    exactly the draws [qrand() % nTotalRating] from the sum of the ratings
    of the candidates in front of it up to, but excluding, that sum plus
    its own rating: for as many of the [nTotalRating] residues as its
    rating says. *)
Theorem getRandomService_draws_in_proportion_to_the_ratings
        E oNType tNow nRand st (l1 : TMap) c l2 :
  (forall k s, In (k, s) (m_mServices st) -> 0 <= m_nRating s) ->
  candidates E oNType tNow st = l1 ++ c :: l2 ->
  rating_sum (candidates E oNType tNow st) < 65536 ->
  0 <= nRand ->
  rating_sum l1 <= Z.rem nRand (rating_sum (candidates E oNType tNow st))
                < rating_sum l1 + m_nRating (snd c) ->
  exists st', getRandomService E oNType tNow nRand st = Ok (Some c, st').
Proof.
  intros Hstore Hc Hsum Hrand Hdraw.
  pose proof (candidates_nonneg E oNType tNow st Hstore) as Hnn.
  assert (Hl1 : 0 <= rating_sum l1).
  { apply rating_sum_nonneg. intros kv Hkv. apply Hnn. rewrite Hc.
    apply in_or_app. now left. }
  assert (Hl2 : 0 <= rating_sum l2).
  { apply rating_sum_nonneg. intros kv Hkv. apply Hnn. rewrite Hc.
    apply in_or_app. right. now right. }
  assert (Hall : rating_sum (candidates E oNType tNow st)
                 = rating_sum l1 + (m_nRating (snd c) + rating_sum l2))
    by now rewrite Hc, rating_sum_app, rating_sum_cons.
  assert (Htot : totalRating E oNType tNow st = rating_sum (candidates E oNType tNow st)).
  { rewrite totalRating_sum. unfold quint16, wrap. apply Z.mod_small. lia. }
  rewrite getRandomService_eq. cbn zeta. rewrite Htot.
  destruct (candidates E oNType tNow st) as [|first rest] eqn:Hcand;
    [now destruct l1|].
  destruct (rating_sum (first :: rest) =? 0) eqn:Hz; [lia|].
  assert (Hq : quint16 (Z.rem nRand (rating_sum (first :: rest)) + 1)
               = Z.rem nRand (rating_sum (first :: rest)) + 1).
  { unfold quint16, wrap. apply Z.mod_small. lia. }
  rewrite Hq, (walk_selects l1 c l2 _ first rest Hc); [eexists; reflexivity | | lia | lia].
  intros kv Hkv. apply Hnn. rewrite Hc. apply in_or_app. now left.
Qed.

Lemma getRandomService_draws_in_proportion_to_the_ratings_witness :
  let E := Sample.env false in
  let a := Sample.gwc 1 "http://a.com" 5 0 in
  let b := Sample.gwc 2 "http://b.com" 3 0 in
  let st := Sample.manager [(1, a); (2, b)] 2 in
  exists st',
    getRandomService E dpG2 50 14 st = Ok (Some (2, b), st').
Proof.
  cbv zeta.
  apply (getRandomService_draws_in_proportion_to_the_ratings
           (Sample.env false) dpG2 50 14
           (Sample.manager [(1, Sample.gwc 1 "http://a.com" 5 0);
                            (2, Sample.gwc 2 "http://b.com" 3 0)] 2)
           [(1, Sample.gwc 1 "http://a.com" 5 0)]
           (2, Sample.gwc 2 "http://b.com" 3 0) []).
  - intros k s [[= <- <-] | [[= <- <-] | []]]; cbn; lia.
  - reflexivity.
  - vm_compute. reflexivity.
  - lia.
  - vm_compute. split; [discriminate | reflexivity].
Defined.

(** X13. What a call of [getRandomService] that returns does to the
    manager: every stored service that is not banned, has rating 0 and
    was queried less than the revival interval before [tNow] is revived,
    of whatever network it is and whether it runs or not, also when the
    call returns no service; every other service, the keys, [m_nLastID],
    [m_bSaved], the disk and the posted calls are as they were. *)
Theorem getRandomService_revives_and_changes_nothing_else
        E oNType tNow nRand st r st' :
  getRandomService E oNType tNow nRand st = Ok (r, st') ->
  m_mServices st'
  = map (fun kv => (fst kv, if revivable E tNow (snd kv)
                            then revived E (snd kv) else snd kv))
        (m_mServices st)
  /\ m_nLastID st' = m_nLastID st
  /\ m_bSaved st' = m_bSaved st
  /\ disk st' = disk st
  /\ posted st' = posted st.
Proof.
  intros H. destruct (getRandomService_map _ _ _ _ _ _ _ H) as [Hm [Hl [Hs [Hd [Hp _]]]]].
  now repeat split.
Qed.

Lemma getRandomService_revives_and_changes_nothing_else_witness :
  let E := Sample.env false in
  let a := Sample.gwc 1 "http://a.com" 0 950 in
  let b := Sample.gwc 2 "http://b.com" 0 0 in
  let st := Sample.manager [(1, a); (2, b)] 2 in
  exists st',
    getRandomService E 4 1000 0 st = Ok (None, st')
    /\ map (fun kv => (m_nRating (snd kv), m_nZeroRevivals (snd kv))) (m_mServices st')
       = [(5, 1); (0, 0)]
    /\ m_mServices st'
       = map (fun kv => (fst kv, if revivable E 1000 (snd kv)
                                 then revived E (snd kv) else snd kv))
             (m_mServices st).
Proof.
  cbv zeta. eexists. split; [vm_compute; reflexivity|]. split; [reflexivity|].
  apply (getRandomService_revives_and_changes_nothing_else
           (Sample.env false) 4 1000 0
           (Sample.manager [(1, Sample.gwc 1 "http://a.com" 0 950);
                            (2, Sample.gwc 2 "http://b.com" 0 0)] 2) None).
  vm_compute. reflexivity.
Defined.

(** ** Adding a service twice *)

(** X14. [add] is idempotent on what it stores.  On a manager that has
    served calls of [add], [remove], [clear] and [getRandomService] since
    its construction, once [add] has stored a service, an [add] of a valid
    URL with the same normalized form (the same URL in other letter
    cases, for one) and the same service type returns 0, creates no entry
    and leaves [m_nLastID] alone, whatever networks and rating it
    names. *)
Theorem adding_a_stored_service_again_returns_0
        E ops d st sURL eSType oNType nRating id st1 sURL' oNType' nRating' :
  perform_all E ops (newDiscovery d) = Ok (tt, st) ->
  add E sURL eSType oNType nRating st = Ok (id, st1) ->
  id <> 0 ->
  QUrl_isValid E sURL' = true ->
  normalizeURL (QUrl_toString E sURL') = normalizeURL (QUrl_toString E sURL) ->
  exists st2,
    add E sURL' eSType oNType' nRating' st1 = Ok (0, st2)
    /\ StdMap.keys (m_mServices st2) = StdMap.keys (m_mServices st1)
    /\ m_nLastID st2 = m_nLastID st1.
Proof.
  intros Hops Hadd Hid Hvalid Hurl.
  assert (Hstored : exists k e, In (k, e) (m_mServices st1)
                                /\ m_oServiceURL e = normalizeURL (QUrl_toString E sURL)
                                /\ m_nServiceType e = eSType).
  { destruct (add_outcome _ _ _ _ _ _ _ _ Hadd) as [[H0 _] | [_ [_ [p [Hp [Hm _]]]]]];
      [contradiction|].
    exists id, p. rewrite Hm. split; [|now subst p].
    apply StdMapFacts.find_In, StdMapFacts.find_insert_eq. }
  set (p' := mkService 0 (normalizeURL (QUrl_toString E sURL')) eSType oNType'
                       (quint8 nRating') false false 0 0).
  assert (Hdebug : debug_build E = true ->
                   forall k e, In (k, e) (m_mServices st1) ->
                               m_oServiceURL e = m_oServiceURL p' ->
                               m_nServiceType e = m_nServiceType p').
  { intros Hd k e Hin Hu.
    assert (Hc : type_consistent (m_mServices st1)).
    { apply (perform_all_type_consistent E Hd (ops ++ [call_add sURL eSType oNType nRating])
                                         (newDiscovery d));
        [apply type_consistent_new|].
      clear - Hops Hadd. revert Hops. generalize (newDiscovery d).
      induction ops as [|o ops IH]; intros st0; cbn [perform_all app].
      - intros [= ->]. cbn [perform]. unfold bind. now rewrite Hadd.
      - unfold bind at 1. intros H. unfold bind at 1.
        destruct (perform E o st0) as [[[] st0']|f]; [|discriminate].
        now apply IH. }
    destruct Hstored as [k0 [e0 [Hin0 [Hu0 Ht0]]]]. cbn [p' m_nServiceType].
    rewrite <- Ht0. apply (Hc k e k0 e0 Hin Hin0). cbn [p' m_oServiceURL] in Hu. congruence. }
  destruct (manageDuplicates_scan_duplicate E p' (m_mServices st1)) as
      [l1 [k [e [l2 [Hm [_ [_ [_ Hscan]]]]]]]].
  - destruct Hstored as [k0 [e0 [Hin0 [Hu0 Ht0]]]]. exists k0, e0.
    cbn [p' m_oServiceURL m_nServiceType]. repeat split; congruence.
  - exact Hdebug.
  - eexists. split.
    + unfold add. rewrite Hvalid. cbn [negb]. unfold createService. fold p'.
      unfold bind at 1. rewrite (add_ptr_duplicate E p' st1 _ Hscan). reflexivity.
    + cbn. split; [|reflexivity]. rewrite Hm. unfold StdMap.keys.
      rewrite !map_app. reflexivity.
Qed.

Lemma adding_a_stored_service_again_returns_0_witness :
  exists st st1 st2,
    perform_all (Sample.env true) [call_add "http://b.com" stNull dpG2 1]
                (newDiscovery Sample.emptyDisk) = Ok (tt, st)
    /\ add (Sample.env true) "http://a.com/X" stGWC dpG2 5 st = Ok (2, st1)
    /\ add (Sample.env true) "HTTP://A.com/x" stGWC 4 9 st1 = Ok (0, st2)
    /\ StdMap.keys (m_mServices st2) = StdMap.keys (m_mServices st1)
    /\ m_nLastID st2 = m_nLastID st1.
Proof.
  eexists. eexists.
  assert (Hops : perform_all (Sample.env true) [call_add "http://b.com" stNull dpG2 1]
                             (newDiscovery Sample.emptyDisk)
                 = Ok (tt, snd (match perform_all (Sample.env true)
                                        [call_add "http://b.com" stNull dpG2 1]
                                        (newDiscovery Sample.emptyDisk) with
                                | Ok r => r
                                | Crash _ => (tt, newDiscovery Sample.emptyDisk)
                                end)))
    by (vm_compute; reflexivity).
  assert (Hadd : add (Sample.env true) "http://a.com/X" stGWC dpG2 5
                     (snd (match perform_all (Sample.env true)
                                 [call_add "http://b.com" stNull dpG2 1]
                                 (newDiscovery Sample.emptyDisk) with
                           | Ok r => r
                           | Crash _ => (tt, newDiscovery Sample.emptyDisk)
                           end))
                 = Ok (2, snd (match add (Sample.env true) "http://a.com/X" stGWC dpG2 5
                                     (snd (match perform_all (Sample.env true)
                                                 [call_add "http://b.com" stNull dpG2 1]
                                                 (newDiscovery Sample.emptyDisk) with
                                           | Ok r => r
                                           | Crash _ => (tt, newDiscovery Sample.emptyDisk)
                                           end)) with
                               | Ok r => r
                               | Crash _ => (0, newDiscovery Sample.emptyDisk)
                               end)))
    by (vm_compute; reflexivity).
  destruct (adding_a_stored_service_again_returns_0
              (Sample.env true) _ _ _ _ _ _ _ _ _ "HTTP://A.com/x" 4 9 Hops Hadd)
    as [st2 H]; [discriminate | reflexivity | reflexivity |].
  exists st2. split; [exact Hops|]. split; [exact Hadd | exact H].
Defined.

(** ** Requests by network and requests by id *)

Lemma find_of_In {V} (m : StdMap.t V) k v :
  StdMap.ordered m -> In (k, v) m -> StdMap.find k m = Some v.
Proof.
  induction m as [|[k0 v0] m IH]; simpl; [intros _ []|].
  intros [Hhd Htl] [[= -> ->] | Hin].
  - now rewrite Z.eqb_refl.
  - assert (Hlt : k0 < k).
    { apply Hhd. unfold StdMap.keys. apply in_map_iff. now exists (k, v). }
    replace (k0 =? k) with false by lia. now apply IH.
Qed.

Lemma getRandomService_candidate E oNType tNow nRand st p st' :
  getRandomService E oNType tNow nRand st = Ok (Some p, st') ->
  In p (candidates E oNType tNow st).
Proof.
  rewrite getRandomService_eq. cbn zeta.
  destruct (candidates E oNType tNow st) as [|first rest]; [discriminate|].
  destruct (totalRating E oNType tNow st =? 0); [discriminate|].
  destruct (walk rest _ first) as [q|f] eqn:Hw; [|discriminate].
  intros [= <- _]. exact (walk_In _ _ _ _ Hw).
Qed.

Lemma asyncServiceHelper_type_selected E serve r bAccessible type tNow nRand st k s st' :
  asyncServiceHelper_type E serve r bAccessible type tNow nRand st = Ok (Some (k, s), st') ->
  bAccessible = true
  /\ exists st1, getRandomService E type tNow nRand st = Ok (Some (k, s), st1)
                 /\ m_mServices st' = StdMap.insert k (serve r s) (m_mServices st1).
Proof.
  unfold asyncServiceHelper_type. destruct bAccessible; [|discriminate].
  unfold bind at 1.
  destruct (getRandomService E type tNow nRand st) as [[[[k0 s0]|] st1]|f];
    [| discriminate | discriminate].
  intros [= <- <- <-]. split; [reflexivity|]. exists st1. now split.
Qed.

(** X15. A request by network, [asyncUpdateServiceHelper( type )] or
    [asyncQueryServiceHelper( type )], goes through the selection: whatever
    [update()] and [query()] do, the service they are called on is picked
    only while the network is accessible, and is the service stored under
    its id, after its revival if it was revived by this call; it was stored
    as a service that is not banned, is of the requested network and is not
    running. *)
Theorem request_by_network_serves_only_selected_services
        E serve r bAccessible type tNow nRand st k s st' :
  asyncServiceHelper_type E serve r bAccessible type tNow nRand st = Ok (Some (k, s), st') ->
  bAccessible = true
  /\ exists s0, In (k, s0) (m_mServices st)
                /\ m_bBanned s0 = false
                /\ isNetwork (m_oNetworkType s0) type = true
                /\ m_bRunning s0 = false
                /\ s = (if revivable E tNow s0 then revived E s0 else s0).
Proof.
  intros H. destruct (asyncServiceHelper_type_selected _ _ _ _ _ _ _ _ _ _ _ H)
    as [Hacc [st1 [Hsel _]]].
  split; [exact Hacc|].
  pose proof (getRandomService_candidate _ _ _ _ _ _ _ Hsel) as Hin.
  rewrite candidates_listed in Hin. apply In_listed in Hin.
  destruct Hin as [s0 [Hin0 [Hb Hc]]]. exists s0. split; [exact Hin0|].
  split; [exact Hb|].
  assert (Hs : snd (consider E type (quint32 tNow) s0) = true) by now rewrite Hc.
  rewrite consider_snd in Hs.
  apply andb_prop in Hs. destruct Hs as [Hs Hrun].
  apply andb_prop in Hs. destruct Hs as [Hs _].
  apply andb_prop in Hs. destruct Hs as [Hnet _].
  apply negb_true_iff in Hrun. repeat split; try assumption.
  pose proof (visit_revives E type tNow k s0) as Hv. unfold visit in Hv.
  cbn [fst snd] in Hv. rewrite Hb, Hc in Hv. cbn [fst] in Hv. congruence.
Qed.

Lemma request_by_network_serves_only_selected_services_witness :
  let E := Sample.env false in
  let serve := fun (_ : Request) (s : CDiscoveryService) => with_network s dpNull in
  let a := Sample.gwc 1 "http://a.com" 5 0 in
  let b := Sample.gwc 2 "http://b.com" 3 0 in
  let st := Sample.manager [(1, a); (2, b)] 2 in
  exists st',
    asyncQueryServiceHelper_type E serve true dpG2 50 14 st = Ok (Some (2, b), st')
    /\ exists s0, In (2, s0) (m_mServices st)
                  /\ m_bBanned s0 = false
                  /\ isNetwork (m_oNetworkType s0) dpG2 = true
                  /\ m_bRunning s0 = false
                  /\ b = (if revivable E 50 s0 then revived E s0 else s0).
Proof.
  cbv zeta. eexists. split; [vm_compute; reflexivity|].
  refine (proj2 (request_by_network_serves_only_selected_services
                   (Sample.env false) (fun _ s => with_network s dpNull)
                   Query true dpG2 50 14
                   (Sample.manager [(1, Sample.gwc 1 "http://a.com" 5 0);
                                    (2, Sample.gwc 2 "http://b.com" 3 0)] 2)
                   2 (Sample.gwc 2 "http://b.com" 3 0) _ _)).
  vm_compute. reflexivity.
Defined.

(** X16. A banned service is served by id only.  Stored under [nID] in a
    map with ascending keys, it is the service that
    [asyncUpdateServiceHelper( nID )] and [asyncQueryServiceHelper( nID )]
    call [update()] or [query()] on, whatever its rating, its last query
    and the state of the network; no request by network ever picks the
    service stored under [nID]. *)
Theorem banned_service_is_served_by_id_only E nID st s :
  StdMap.ordered (m_mServices st) ->
  StdMap.find nID (m_mServices st) = Some s ->
  m_bBanned s = true ->
  (forall serve r, exists st',
       asyncServiceHelper_id E serve r nID st = Ok (Some (nID, s), st'))
  /\ (forall serve r bAccessible type tNow nRand k s' st',
         asyncServiceHelper_type E serve r bAccessible type tNow nRand st
         = Ok (Some (k, s'), st') ->
         k <> nID).
Proof.
  intros Hord Hfind Hbanned. split.
  - intros serve r. unfold asyncServiceHelper_id, bind, get. rewrite Hfind.
    eexists. reflexivity.
  - intros serve r bAccessible type tNow nRand k s' st' H ->.
    destruct (asyncServiceHelper_type_selected _ _ _ _ _ _ _ _ _ _ _ H)
      as [_ [st1 [Hsel _]]].
    pose proof (getRandomService_candidate _ _ _ _ _ _ _ Hsel) as Hin.
    rewrite candidates_listed in Hin. apply In_listed in Hin.
    destruct Hin as [s0 [Hin0 [Hb _]]].
    rewrite (find_of_In _ _ _ Hord Hin0) in Hfind. congruence.
Qed.

Lemma banned_service_is_served_by_id_only_witness :
  let E := Sample.env true in
  let a := Sample.gwc 1 "http://a.com" 5 0 in
  let b := mkService 2 "http://b.com" stGWC dpG2 0 true true 0 0 in
  let st := Sample.manager [(1, a); (2, b)] 2 in
  (forall serve r, exists st',
       asyncServiceHelper_id E serve r 2 st = Ok (Some (2, b), st'))
  /\ (forall serve r bAccessible type tNow nRand k s' st',
         asyncServiceHelper_type E serve r bAccessible type tNow nRand st
         = Ok (Some (k, s'), st') ->
         k <> 2).
Proof.
  cbv zeta.
  apply (banned_service_is_served_by_id_only (Sample.env true) 2).
  - cbn. split; [intros k' [<- | []]; lia | split; [intros k' [] | exact I]].
  - reflexivity.
  - reflexivity.
Defined.

(** ** [check] *)

(** X17. After [remove( nID )] has returned, with true or with false,
    [check] finds no service of the id [nID] (other than 0), whatever
    [operator==] says of two services, and changes nothing. *)
Theorem check_fails_after_remove
        (service_eq : CDiscoveryService -> CDiscoveryService -> bool)
        nID st b st' pService :
  remove nID st = Ok (b, st') ->
  nID <> 0 ->
  m_nID pService = nID ->
  check service_eq pService st' = Ok (false, st').
Proof.
  intros Hrem Hnz Hid. unfold check, bind, get. rewrite Hid.
  assert (Hnone : StdMap.find nID (m_mServices st') = None).
  { destruct (StdMap.find nID (m_mServices st)) as [p|] eqn:Hf.
    - destruct (remove_found nID st p Hnz Hf) as [st1 [H [Hm _]]].
      rewrite Hrem in H. injection H as -> <-. rewrite Hm.
      apply StdMapFacts.find_erase_eq.
    - destruct (remove_missing nID st (or_intror Hf)) as [st1 [H [Hm _]]].
      rewrite Hrem in H. injection H as -> <-. now rewrite Hm. }
  now rewrite Hnone.
Qed.

Lemma check_fails_after_remove_witness :
  let a := Sample.gwc 1 "http://a.com" 5 0 in
  let st := Sample.manager [(1, a)] 1 in
  exists st',
    remove 1 st = Ok (true, st')
    /\ check (fun _ _ => true) a st = Ok (true, st)
    /\ check (fun _ _ => true) a st' = Ok (false, st').
Proof.
  cbv zeta. eexists. split; [vm_compute; reflexivity|]. split; [reflexivity|].
  apply (check_fails_after_remove (fun _ _ => true) 1
           (Sample.manager [(1, Sample.gwc 1 "http://a.com" 5 0)] 1) true);
    [vm_compute; reflexivity | discriminate | reflexivity].
Defined.

(** ** Seeding the map from the file of default services *)

Section Seeding.
Variable E : Environment.

(** One turn of the loop of [addDefaults] is one call of [add], or
    nothing. *)
Lemma addDefaults_line_seed sLine st :
  addDefaults_line E sLine st
  = match seed E sLine with
    | Some (sService, eSType, oNType, nRating) =>
        (add E sService eSType oNType nRating ;; ret tt) st
    | None => Ok (tt, st)
    end.
Proof.
  unfold addDefaults_line, seed, effective.
  rewrite (Nat.leb_antisym (String.length sLine) 7).
  destruct (String.length sLine <? 7)%nat; cbn [negb andb]; [reflexivity|].
  destruct sLine as [|cType rest]; [reflexivity|].
  destruct (Ascii.eqb cType "2") eqn:H2; cbn [orb].
  - replace (Ascii.eqb cType "X") with false; [reflexivity|].
    apply Ascii.eqb_eq in H2. now subst cType.
  - destruct (Ascii.eqb cType "M") eqn:HM; cbn [orb].
    + replace (Ascii.eqb cType "X") with false; [reflexivity|].
      apply Ascii.eqb_eq in HM. now subst cType.
    + destruct (Ascii.eqb cType "X"); reflexivity.
Qed.

(** X20. The lines of the file that [addDefaults] acts on are those of 7
    characters or more that start with 2, M or X; all other lines (blank
    lines, comments, G1, eDonkey and UDP services) can be dropped from the
    file without any change to what the call does. *)
Theorem addDefaults_skips_the_other_lines applicationDirPath readLines st :
  addDefaults E applicationDirPath readLines st
  = addDefaults E applicationDirPath (fun bytes => filter effective (readLines bytes)) st.
Proof.
  assert (Hloop : forall lines st0,
             addDefaults_loop E lines st0 = addDefaults_loop E (filter effective lines) st0).
  { induction lines as [|sLine lines IH]; intros st0; [reflexivity|].
    cbn [filter addDefaults_loop]. unfold bind at 1. rewrite addDefaults_line_seed.
    destruct (effective sLine) eqn:Heff.
    - cbn [addDefaults_loop]. unfold bind at 2. rewrite addDefaults_line_seed.
      destruct (seed E sLine) as [[[[sService eSType] oNType] nRating]|]; [|apply IH].
      destruct ((add E sService eSType oNType nRating ;; ret tt) st0) as [[[] st1]|f];
        [apply IH | reflexivity].
    - unfold seed. rewrite Heff. apply IH. }
  unfold addDefaults, bind, postLog, modify, get.
  destruct (QFile_openRead _ _); [apply Hloop | reflexivity].
Qed.
End Seeding.

(** ** Loading, whatever the files hold *)

Section LoadingAnything.
Variable E : Environment.

Lemma consistent_empty : consistent [].
Proof.
  split; [exact I|]. split; [intros k s [] | intros k1 e1 k2 e2 []].
Qed.

Lemma add_ptr_consistent p st r st' :
  consistent (m_mServices st) ->
  add_ptr E p st = Ok (r, st') ->
  consistent (m_mServices st').
Proof.
  intros Hc. destruct p as [p|]; [|now intros [= <- <-]].
  intros Hadd. destruct Hc as [Hord [Hid Hd]].
  split; [|split; [|exact (add_ptr_distinct E p st r st' Hd Hadd)]];
    destruct (add_ptr_map E p st r st' Hadd)
      as [[l1 [k [e [l2 [Hm [Hm' _]]]]]] | [id [Hfree [Hm' _]]]]; rewrite Hm'.
  - apply (ordered_keys (m_mServices st)); [|exact Hord].
    rewrite Hm. unfold StdMap.keys. now rewrite !map_app.
  - now apply StdMapFacts.insert_ordered.
  - intros k0 s H. apply in_app_or in H. destruct H as [H | [H | H]].
    + apply Hid. rewrite Hm. apply in_or_app. now left.
    + injection H as <- <-. cbn. apply Hid. rewrite Hm. apply in_or_app. right. now left.
    + apply Hid. rewrite Hm. apply in_or_app. right. now right.
  - intros k0 s H. apply In_insert in H. destruct H as [[= -> ->] | H];
      [reflexivity | now apply Hid].
Qed.

Lemma load_services_consistent n v bytes st r st' :
  consistent (m_mServices st) ->
  load_services E n v bytes st = Ok (r, st') ->
  consistent (m_mServices st').
Proof.
  revert bytes st. induction n as [|n IH]; intros bytes st Hc; simpl.
  - now intros [= <- <-].
  - destruct (CDiscoveryService_load E v bytes) as [[p bytes']|]; [|now intros [= <- <-]].
    unfold bind. destruct (add_ptr E p st) as [[r0 st0]|f] eqn:Hadd; [|discriminate].
    apply IH. exact (add_ptr_consistent _ _ _ _ Hc Hadd).
Qed.

Lemma load_path_consistent path st r st' :
  consistent (m_mServices st) ->
  load_path E path st = Ok (r, st') ->
  consistent (m_mServices st').
Proof.
  intros Hc. unfold load_path, bind, get.
  destruct (QFile_openRead (disk st) path) as [bytes|]; [|now intros [= <- <-]].
  rewrite clear_eq.
  destruct (read_u16 bytes) as [nVersion fsFile].
  destruct (read_u32 fsFile) as [nCount fsFile'].
  match goal with
  | |- context [load_services E ?n ?v ?b ?s] =>
      destruct (load_services E n v b s) as [[r' st2]|f'] eqn:Hl
  end; [|discriminate].
  apply load_services_consistent in Hl; [|exact consistent_empty].
  destruct r'; intros [= <- <-]; [exact Hl | exact consistent_empty].
Qed.

(** X21. Whatever the two files hold (records in any order, the same
    service twice, ids that clash or are 0, a stream that is cut), a
    [load] that returns leaves, from a map that has them, a map with
    ascending keys in which every service is stored under its own id and
    no two services have the same URL and type. *)
Theorem load_leaves_every_service_under_its_own_id st st' :
  consistent (m_mServices st) ->
  load E st = Ok (tt, st') ->
  consistent (m_mServices st').
Proof.
  intros Hc. rewrite load_eq.
  destruct (load_path E (sPath E) st) as [[[|] st1]|f] eqn:H1; [| |discriminate].
  - intros [= <-]. exact (load_path_consistent _ _ _ _ Hc H1).
  - pose proof (load_path_consistent _ _ _ _ Hc H1 : consistent (m_mServices (warned E st1)))
      as Hc1.
    destruct (load_path E (sBackupPath E) (warned E st1)) as [[[|] st2]|f] eqn:H2;
      [| |discriminate]; intros [= <-]; exact (load_path_consistent _ _ _ _ Hc1 H2).
Qed.
End LoadingAnything.

Lemma load_leaves_every_service_under_its_own_id_witness :
  let E := Sample.env false in
  let a := Sample.gwc 7 "http://a.com" 5 0 in
  let b := Sample.gwc 7 "http://b.com" 3 0 in
  let bytes := match Sample.save_record a, Sample.save_record b with
               | Some ra, Some rb => write_u16 1 ++ write_u32 3 ++ ra ++ rb ++ ra
               | _, _ => []
               end in
  let st := set_disk (newDiscovery Sample.emptyDisk)
                     (put_file Sample.emptyDisk (sPath E) (Some bytes)) in
  exists st',
    load E st = Ok (tt, st')
    /\ map (fun kv => (fst kv, m_oServiceURL (snd kv))) (m_mServices st')
       = [(1, "http://b.com"); (7, "http://a.com")]
    /\ consistent (m_mServices st').
Proof.
  cbv zeta. eexists. split; [vm_compute; reflexivity|]. split; [reflexivity|].
  apply (load_leaves_every_service_under_its_own_id (Sample.env false)
           (set_disk (newDiscovery Sample.emptyDisk)
              (put_file Sample.emptyDisk (sPath (Sample.env false))
                 (Some (match Sample.save_record (Sample.gwc 7 "http://a.com" 5 0),
                              Sample.save_record (Sample.gwc 7 "http://b.com" 3 0) with
                        | Some ra, Some rb => write_u16 1 ++ write_u32 3 ++ ra ++ rb ++ ra
                        | _, _ => []
                        end))))).
  - split; [exact I|]. split; [intros k s [] | intros k1 e1 k2 e2 []].
  - vm_compute. reflexivity.
Defined.

(** ** Forced saves that cannot prepare the temporary file *)

(** X9. A forced save that cannot prepare its temporary file gives up
    before it writes anything.  When a stale temporary file cannot be
    removed, or the temporary file cannot be opened for writing,
    [save( true )] returns false and logs an error; the primary file, the
    backup file, the map, [m_nLastID], [m_bSaved], the signals emitted and
    the calls posted are as they were. *)
Theorem forced_save_gives_up_without_its_temporary_file E st :
  (files (disk st) (sTemporaryPath E) <> None
   /\ refuses (disk st) OpRemove (sTemporaryPath E) = true)
  \/ refuses (disk st) OpOpenWrite (sTemporaryPath E) = true ->
  exists st',
    save E true st = Ok (false, st')
    /\ files (disk st') (sPath E) = files (disk st) (sPath E)
    /\ files (disk st') (sBackupPath E) = files (disk st) (sBackupPath E)
    /\ m_mServices st' = m_mServices st
    /\ m_nLastID st' = m_nLastID st
    /\ m_bSaved st' = m_bSaved st
    /\ emitted st' = emitted st
    /\ posted st' = posted st
    /\ errors (systemLog st') <> errors (systemLog st).
Proof.
  assert (Hlog : forall l (a e : LogSeverity.t * string),
             fst e = LogSeverity.Error -> errors ((l ++ [a]) ++ [e]) <> errors l).
  { intros l a e He H. unfold errors in H. rewrite !filter_app in H.
    apply (f_equal (@List.length _)) in H. rewrite !length_app in H.
    cbn [filter] in H. rewrite He in H. cbn in H. lia. }
  destruct (paths_differ E) as [H1 [H2 H3]].
  intros Hcannot. unfold save, asyncSyncSavingHelper.
  destruct (files (disk st) (sTemporaryPath E)) as [stale|] eqn:Hstale;
    [destruct (refuses (disk st) OpRemove (sTemporaryPath E)) eqn:Hremove|];
    try (destruct Hcannot as [[Hc Hc'] | Hopen]; [try discriminate; try contradiction|]);
    repeat (run; rewrite ?H1, ?H2, ?H3, ?String.eqb_refl; known st);
    (eexists; split; [reflexivity|]); cbn; rewrite ?H1, ?H2, ?H3;
    repeat split; now apply Hlog.
Qed.

Lemma forced_save_gives_up_without_its_temporary_file_witness :
  let E := Sample.env false in
  let d := mkDisk (fun p => if String.eqb p (sPath E) then Some [7] else None)
                  (fun o p => match o with OpOpenWrite => true | _ => false end) in
  let st := set_disk (Sample.manager [(1, Sample.gwc 1 "http://a.com" 5 0)] 1) d in
  exists st',
    save E true st = Ok (false, st')
    /\ files (disk st') (sPath E) = Some [7]
    /\ m_mServices st' = m_mServices st.
Proof.
  cbv zeta.
  destruct (forced_save_gives_up_without_its_temporary_file
              (Sample.env false)
              (set_disk (Sample.manager [(1, Sample.gwc 1 "http://a.com" 5 0)] 1)
                 (mkDisk (fun p => if String.eqb p (sPath (Sample.env false))
                                   then Some [7] else None)
                         (fun o p => match o with OpOpenWrite => true | _ => false end))))
    as [st' [Hsave [Hp [_ [Hm _]]]]].
  - right. reflexivity.
  - exists st'. split; [exact Hsave|]. split; [rewrite Hp; reflexivity | exact Hm].
Defined.
